(** * Sales bonus report: a shallow embedding of [src/main.js]

    The three functions of the file, [calculateSimpleRevenue],
    [calculateBonusByProfit] and [analyzeSalesData], are embedded over a small
    model of the JavaScript values they touch.

    - A JavaScript number is an IEEE 754 binary64 value: Rocq's primitive
      [float], whose [+], [-], [*], [/] and comparisons are the ones the
      engine executes (round to nearest even, NaN, signed zeros, infinities).
      Facts about them come from the Standard Library's specification of the
      primitive operations ([FloatAxioms], [SpecFloat]).
    - Dynamic values are the inductive [value]; property reads on [null] and
      [undefined] throw a [TypeError], as they do at run time.
    - A thrown exception is the [Throw] case of [result]; the statements of
      the source are sequenced with the bind of that monad.
    - The objects the function allocates and mutates ([sellerStats] and its
      aliases in [sellerIndex]) are a list of records updated by position; the
      index maps a property key to the position it aliases.
    - [sellerIndex] and [productIndex], plain objects used as dictionaries,
      are finite maps from property keys. [products_sold], which the source
      enumerates with [Object.entries], is an association list kept in the
      own-property order of ECMAScript (array-index keys ascending, then the
      other keys in creation order).
    - The conversions between numbers and text (Number::toString and
      StringToNumber) belong to the runtime; the embedding takes them as
      parameters.
    - [Array.prototype.sort] is a stable insertion sort on the sign of the
      comparator, a NaN result counting as zero. ECMAScript fixes the result
      for a consistent comparator only; for the others the result is the one
      of this algorithm.

    A second embedding, in module [Heap], holds objects in a store and makes
    every property write explicit; it is used for the statement that the
    inputs are not written to.

    Not modelled: functions, symbols and bigints as data values, getters,
    sparse arrays, and properties inherited from [Object.prototype] (a key
    such as ["constructor"] is taken to be absent from an empty dictionary). *)

From Stdlib Require Import ZArith Floats Lia Bool Ascii String.
From Stdlib Require Import Sorting.Permutation Sorting.Sorted.
From stdpp Require Import base option list strings gmap pretty.

#[local] Set Warnings "-register-all,-inexact-float".

Local Open Scope Z_scope.
Local Open Scope string_scope.

(** ** Values and exceptions *)

Inductive value : Type :=
| VUndefined
| VNull
| VBool (b : bool)
| VNum (x : float)
| VStr (s : string)
| VArr (elems : list value)
| VObj (props : list (string * value)).

Inductive error : Type :=
| JsError (msg : string)
| JsTypeError.

Inductive result (A : Type) : Type :=
| Ok (a : A)
| Throw (e : error).
Arguments Ok {A} a.
Arguments Throw {A} e.

Definition bind {A B : Type} (r : result A) (k : A -> result B) : result B :=
  match r with
  | Ok a => k a
  | Throw e => Throw e
  end.

Notation "x <- r ;; k" := (bind r (fun x => k))
  (at level 100, r at next level, right associativity).

(** Left-to-right iteration with early exit on the first exception: the shape
    of [forEach], [map] and [reduce] callbacks that may throw. *)
Fixpoint foldM {A S : Type} (step : S -> A -> result S) (l : list A) (s : S)
  : result S :=
  match l with
  | [] => Ok s
  | a :: l' => s' <- step s a ;; foldM step l' s'
  end.

Fixpoint mapM {A B : Type} (f : A -> result B) (l : list A) : result (list B) :=
  match l with
  | [] => Ok []
  | a :: l' => b <- f a ;; bs <- mapM f l' ;; Ok (b :: bs)
  end.

(** ** Numbers *)

Definition is_zero_or_nan (x : float) : bool :=
  (PrimFloat.eqb x 0 || PrimFloat.is_nan x)%bool.

(** [Math.max]: NaN if any argument is NaN, otherwise the largest argument,
    [+0] counting as larger than [-0]; the scan starts from [-Infinity]. *)
Definition max_step (highest n : float) : float :=
  if PrimFloat.ltb highest n then n
  else if (PrimFloat.eqb highest n && PrimFloat.get_sign highest
           && negb (PrimFloat.get_sign n))%bool then n
  else highest.

Definition Math_max (args : list float) : float :=
  if existsb PrimFloat.is_nan args then PrimFloat.nan
  else fold_left max_step args PrimFloat.neg_infinity.

(** ** Property access and the operators the source uses *)

Fixpoint assoc (k : string) (props : list (string * value)) : value :=
  match props with
  | [] => VUndefined
  | (k', v) :: rest => if String.eqb k k' then v else assoc k rest
  end.

(** [o.k] for the property names the source reads (none of which is
    ["length"] or an array index, so strings, numbers, booleans and arrays
    answer [undefined]). *)
Definition get (o : value) (k : string) : result value :=
  match o with
  | VUndefined | VNull => Throw JsTypeError
  | VObj props => Ok (assoc k props)
  | _ => Ok VUndefined
  end.

(** ToBoolean. *)
Definition truthy (v : value) : bool :=
  match v with
  | VUndefined | VNull => false
  | VBool b => b
  | VNum x => negb (is_zero_or_nan x)
  | VStr s => negb (String.eqb s "")
  | VArr _ | VObj _ => true
  end.

(** [a ?? b]. *)
Definition nullish (a b : value) : value :=
  match a with
  | VUndefined | VNull => b
  | _ => a
  end.

(** A destructuring default, [{ k = d } = o]: only [undefined] is replaced. *)
Definition default (a d : value) : value :=
  match a with
  | VUndefined => d
  | _ => a
  end.

Definition isArray (v : value) : bool :=
  match v with
  | VArr _ => true
  | _ => false
  end.


(** ** Own-property order of a dictionary object

    [Object.entries] lists the keys that are array indices (canonical decimal
    strings below 2^32 - 1) in ascending numeric order, then every other key
    in the order of its creation. *)

Definition is_digit (c : ascii) : bool :=
  (Nat.leb 48 (nat_of_ascii c) && Nat.leb (nat_of_ascii c) 57)%bool.

Fixpoint digits_value (s : string) (acc : N) : option N :=
  match s with
  | EmptyString => Some acc
  | String c rest =>
      if is_digit c
      then digits_value rest (acc * 10 + N.of_nat (nat_of_ascii c - 48))%N
      else None
  end.

Definition array_index (k : string) : option N :=
  match k with
  | EmptyString => None
  | String c rest =>
      if (Ascii.eqb c "0"%char && negb (String.eqb rest ""))%bool then None
      else match digits_value k 0%N with
           | Some n => if (n <? 4294967295)%N then Some n else None
           | None => None
           end
  end.

Definition key_before (k k' : string) : bool :=
  match array_index k, array_index k' with
  | Some n, Some n' => (n <? n')%N
  | Some _, None => true
  | None, _ => false
  end.

Section Dictionary.
Context {A : Type}.

Fixpoint obj_get (k : string) (props : list (string * A)) : option A :=
  match props with
  | [] => None
  | (k', v) :: rest => if String.eqb k k' then Some v else obj_get k rest
  end.

Fixpoint obj_create (k : string) (v : A) (props : list (string * A))
  : list (string * A) :=
  match props with
  | [] => [(k, v)]
  | (k', v') :: rest =>
      if key_before k k' then (k, v) :: props
      else (k', v') :: obj_create k v rest
  end.

Fixpoint obj_update (k : string) (v : A) (props : list (string * A))
  : list (string * A) :=
  match props with
  | [] => []
  | (k', v') :: rest =>
      if String.eqb k k' then (k', v) :: rest
      else (k', v') :: obj_update k v rest
  end.

(** [o[k] = v] *)
Definition obj_set (k : string) (v : A) (props : list (string * A))
  : list (string * A) :=
  match obj_get k props with
  | Some _ => obj_update k v props
  | None => obj_create k v props
  end.
End Dictionary.

(** ** [Array.prototype.sort] with a comparator

    The sort is stable. [cmp a b > 0] places [a] after [b]; a comparator
    value that is negative, zero or NaN leaves [a] before [b]. *)

Section Sort.
Context {A : Type} (cmp : A -> A -> float).

Definition after (a b : A) : bool := PrimFloat.ltb 0 (cmp a b).

Fixpoint insert_sorted (x : A) (l : list A) : list A :=
  match l with
  | [] => [x]
  | y :: l' => if after x y then y :: insert_sorted x l' else x :: l
  end.

Definition js_sort (l : list A) : list A := foldr insert_sorted [] l.

(** [tie a b]: the comparator orders [a] and [b] neither way. *)
Definition tie (a b : A) : bool :=
  (negb (after a b) && negb (after b a))%bool.
End Sort.

(** ** [+x.toFixed(2)]

    [toFixed(2)] prints the integer [n] nearest to [x * 100] (ties to the
    larger magnitude) with two decimals, or the plain string form of [x] when
    [|x| >= 1e21]; unary plus reads the text back as the nearest binary64. *)

Definition scaled_round (m : positive) (e : Z) : Z :=
  if Z.leb 0 e then Z.pos m * 100 * 2 ^ e
  else (2 * (Z.pos m * 100) + 2 ^ (- e)) / (2 * 2 ^ (- e)).

Definition plus_toFixed2 (x : float) : float :=
  match Prim2SF x with
  | S754_nan => PrimFloat.nan
  | S754_infinity _ => x
  | S754_zero _ => 0%float
  | S754_finite s m e =>
      if PrimFloat.leb 1e21 (PrimFloat.abs x) then x
      else match scaled_round m e with
           | Z.pos n =>
               SF2Prim (SFdiv prec emax (S754_finite s n 0)
                                        (S754_finite false 100 0))
           | _ => if s then (-0)%float else 0%float
           end
  end.

(** ** Records the engine builds *)

Record SellerStat : Type := mkStat {
  stat_id : value;
  stat_name : string;
  revenue : float;
  profit : float;
  sales_count : float;
  products_sold : list (string * float)
}.

Record TopProduct : Type := mkTop {
  sku : string;
  quantity : float
}.

Record ReportEntry : Type := mkEntry {
  seller_id : string;
  name : string;
  entry_revenue : float;
  entry_profit : float;
  entry_sales_count : float;
  top_products : list TopProduct;
  bonus : float
}.

(** The strategies are JavaScript functions supplied by the caller: they
    may return any value or throw, and they do not write to their
    arguments. *)
Definition revenue_fn : Type := value -> value -> result value.
Definition bonus_fn : Type := Z -> Z -> value -> result value.

(** A property of [options] that is expected to hold a function. *)
Inductive field (F : Type) : Type :=
| FUndefined
| FNotFunction
| FFunction (f : F).
Arguments FUndefined {F}.
Arguments FNotFunction {F}.
Arguments FFunction {F} f.

(** The [options] argument: [null] or [undefined]; a value whose [typeof]
    is not ["object"]; or an object, seen through the two properties the
    function destructures. *)
Inductive options_value : Type :=
| OptNullish
| OptNotObject
| OptObject (calculateRevenue : field revenue_fn)
            (calculateBonus : field bonus_fn).

Section Runtime.

(** The two conversions between numbers and text belong to the JavaScript
    runtime, not to the program: Number::toString and StringToNumber. *)
Variable NumberToString : float -> string.
Variable StringToNumber : string -> float.

(** ToString; array elements that are [null] or [undefined] print as the
    empty string and elements are joined with a comma. *)
Fixpoint ToString (v : value) : string :=
  match v with
  | VUndefined => "undefined"
  | VNull => "null"
  | VBool true => "true"
  | VBool false => "false"
  | VNum x => NumberToString x
  | VStr s => s
  | VObj _ => "[object Object]"
  | VArr elems =>
      let elem (e : value) : string :=
        match e with
        | VUndefined | VNull => ""
        | _ => ToString e
        end in
      (fix join (l : list value) : string :=
         match l with
         | [] => ""
         | [e] => elem e
         | e :: l' => elem e ++ "," ++ join l'
         end) elems
  end.

(** ToNumber, that is [Number(v)]; objects and arrays go through their
    string form. *)
Definition Number (v : value) : float :=
  match v with
  | VUndefined => PrimFloat.nan
  | VNull => 0%float
  | VBool true => 1%float
  | VBool false => 0%float
  | VNum x => x
  | VStr s => StringToNumber s
  | VArr _ | VObj _ => StringToNumber (ToString v)
  end.

(** ** [calculateSimpleRevenue] *)

Definition calculateSimpleRevenue (purchase _product : value) : result value :=
  discount <- get purchase "discount" ;;
  sale_price <- get purchase "sale_price" ;;
  quantity <- get purchase "quantity" ;;
  let discount := default discount (VNum 0) in
  let sale_price := default sale_price (VNum 0) in
  let quantity := default quantity (VNum 0) in
  let discountFactor := (1 - (Number discount / 100))%float in
  Ok (VNum (Number sale_price * Number quantity * discountFactor)%float).

(** ** [calculateBonusByProfit]

    [index] and [total] are an array position and an array length. *)

Definition calculateBonusByProfit (index total : Z) (seller : value)
  : result value :=
  p <- get seller "profit" ;;
  let profit := Math_max [0%float; Number (nullish p (VNum 0))] in
  if Z.eqb index 0 then Ok (VNum (profit * 0.15)%float)
  else if (Z.eqb index 1 || Z.eqb index 2)%bool then Ok (VNum (profit * 0.10)%float)
  else if Z.eqb index (total - 1) then Ok (VNum 0)
  else Ok (VNum (profit * 0.05)%float).

(** ** [analyzeSalesData] *)

(** The check of [data]: what is returned is the three arrays. *)
Definition check_data (data : value)
  : result (list value * list value * list value) :=
  if negb (truthy data) then Throw (JsError "Некорректные входные данные")
  else
    sellers <- get data "sellers" ;;
    products <- get data "products" ;;
    purchase_records <- get data "purchase_records" ;;
    match sellers, products, purchase_records with
    | VArr ss, VArr ps, VArr rs =>
        if (Nat.eqb (length ss) 0 || Nat.eqb (length ps) 0
            || Nat.eqb (length rs) 0)%bool
        then Throw (JsError "Некорректные входные данные")
        else Ok (ss, ps, rs)
    | _, _, _ => Throw (JsError "Некорректные входные данные")
    end.

(** The three checks of [options]. *)
Definition check_options (options : options_value)
  : result (revenue_fn * bonus_fn) :=
  match options with
  | OptNullish | OptNotObject => Throw (JsError "Опции должны быть объектом")
  | OptObject calculateRevenue calculateBonus =>
      match calculateRevenue, calculateBonus with
      | FUndefined, _ | _, FUndefined =>
          Throw (JsError "Переменные в опциях не определены")
      | FFunction f, FFunction g => Ok (f, g)
      | _, _ => Throw (JsError "Переменные в опциях должны быть функциями")
      end
  end.

(** The callback of [data.sellers.map]. *)
Definition new_stat (seller : value) : result SellerStat :=
  id <- get seller "id" ;;
  first_name <- get seller "first_name" ;;
  last_name <- get seller "last_name" ;;
  Ok {| stat_id := id;
        stat_name := ToString first_name ++ " " ++ ToString last_name;
        revenue := 0; profit := 0; sales_count := 0; products_sold := [] |}.

(** [sellerIndex]: the [reduce] writes [acc[s.id] = s] from left to right, so
    a later seller with the same key replaces an earlier one. The map holds
    the position of the aliased record in [sellerStats]. *)
Fixpoint index_sellers (i : nat) (stats : list SellerStat)
    (acc : gmap string nat) : gmap string nat :=
  match stats with
  | [] => acc
  | s :: rest => index_sellers (S i) rest (<[ToString (stat_id s) := i]> acc)
  end.

(** [productIndex]: the [map] callback reads [p.sku]; [Object.fromEntries]
    keeps the last entry of a key. *)
Definition product_entry (p : value) : result (value * value) :=
  k <- get p "sku" ;; Ok (k, p).

Definition index_products (entries : list (value * value)) : gmap string value :=
  fold_left (fun acc e => <[ToString (fst e) := snd e]> acc) entries ∅.

(** One line item, applied to the record of the seller of the receipt. *)
Definition process_item (calculateRevenue : revenue_fn)
    (productIndex : gmap string value) (seller : SellerStat) (item : value)
  : result SellerStat :=
  item_sku <- get item "sku" ;;
  match productIndex !! ToString item_sku with
  | None => Ok seller
  | Some product =>
      if negb (truthy product) then Ok seller
      else
        item_quantity <- get item "quantity" ;;
        let qty := Number (nullish item_quantity (VNum 0)) in
        purchase_price <- get product "purchase_price" ;;
        let cost := (Number purchase_price * qty)%float in
        r <- calculateRevenue item product ;;
        let revenue_ :=
          if is_zero_or_nan (Number r) then 0%float else Number r in
        let profit_ := (revenue_ - cost)%float in
        let key := ToString item_sku in
        let sold := products_sold seller in
        let sold :=
          if match obj_get key sold with
             | Some q => is_zero_or_nan q
             | None => true
             end
          then obj_set key 0%float sold else sold in
        let sold :=
          obj_set key (from_option (fun q => q) PrimFloat.nan (obj_get key sold)
                       + qty)%float sold in
        Ok {| stat_id := stat_id seller; stat_name := stat_name seller;
              revenue := revenue seller;
              profit := (profit seller + profit_)%float;
              sales_count := sales_count seller;
              products_sold := sold |}
  end.

(** One receipt. Only the record found through [sellerIndex] is written, so
    it is threaded through the items and stored back at its position. *)
Definition process_record (calculateRevenue : revenue_fn)
    (sellerIndex : gmap string nat) (productIndex : gmap string value)
    (stats : list SellerStat) (record : value) : result (list SellerStat) :=
  record_seller_id <- get record "seller_id" ;;
  match sellerIndex !! ToString record_seller_id with
  | None => Ok stats
  | Some i =>
      match stats !! i with
      | None => Ok stats
      | Some seller =>
          total_amount <- get record "total_amount" ;;
          let checkRevenue := Number (nullish total_amount (VNum 0)) in
          let seller :=
            {| stat_id := stat_id seller; stat_name := stat_name seller;
               revenue := (revenue seller + checkRevenue)%float;
               profit := profit seller;
               sales_count := (sales_count seller + 1)%float;
               products_sold := products_sold seller |} in
          items <- get record "items" ;;
          match items with
          | VArr its =>
              seller' <- foldM (process_item calculateRevenue productIndex)
                               its seller ;;
              Ok (<[i := seller']> stats)
          | _ => Throw JsTypeError
          end
      end
  end.

(** The comparator of the seller sort; [profit] always holds a number, so
    [?? 0] returns it. *)
Definition by_profit (a b : SellerStat) : float := (profit b - profit a)%float.

Definition by_quantity (a b : TopProduct) : float :=
  (quantity b - quantity a)%float.

(** The record as the bonus strategy sees it. *)
Definition stat_value (seller : SellerStat) : value :=
  VObj [("id", stat_id seller);
        ("name", VStr (stat_name seller));
        ("revenue", VNum (revenue seller));
        ("profit", VNum (profit seller));
        ("sales_count", VNum (sales_count seller));
        ("products_sold",
          VObj (map (fun kq => (fst kq, VNum (snd kq))) (products_sold seller)))].

Definition top_products_of (seller : SellerStat) : list TopProduct :=
  take 10 (js_sort by_quantity
             (map (fun kq => mkTop (fst kq) (snd kq)) (products_sold seller))).

(** [sellerStats.forEach((seller, index) => ...)], from position [index]. *)
Fixpoint assign_bonuses (calculateBonus : bonus_fn) (total index : Z)
    (stats : list SellerStat)
  : result (list (SellerStat * value * list TopProduct)) :=
  match stats with
  | [] => Ok []
  | seller :: rest =>
      b <- calculateBonus index total (stat_value seller) ;;
      tl <- assign_bonuses calculateBonus total (index + 1) rest ;;
      Ok ((seller, b, top_products_of seller) :: tl)
  end.

Definition to2 (n : value) : float :=
  plus_toFixed2 (Number (nullish n (VNum 0))).

Definition report_entry (r : SellerStat * value * list TopProduct)
  : ReportEntry :=
  let '(seller, b, top) := r in
  {| seller_id := ToString (stat_id seller);
     name := stat_name seller;
     entry_revenue := to2 (VNum (revenue seller));
     entry_profit := to2 (VNum (profit seller));
     entry_sales_count := sales_count seller;
     top_products := top;
     bonus := to2 b |}.

(** The statistics after the receipts have been folded in. *)
Definition collect (calculateRevenue : revenue_fn)
    (sellers products purchase_records : list value)
  : result (list SellerStat) :=
  sellerStats <- mapM new_stat sellers ;;
  let sellerIndex := index_sellers 0 sellerStats ∅ in
  entries <- mapM product_entry products ;;
  let productIndex := index_products entries in
  foldM (process_record calculateRevenue sellerIndex productIndex)
        purchase_records sellerStats.

Definition analyzeSalesData (data : value) (options : options_value)
  : result (list ReportEntry) :=
  d <- check_data data ;;
  o <- check_options options ;;
  let '(sellers, products, purchase_records) := d in
  let '(calculateRevenue, calculateBonus) := o in
  sellerStats <- collect calculateRevenue sellers products purchase_records ;;
  let sellerStats := js_sort by_profit sellerStats in
  ranked <- assign_bonuses calculateBonus (Z.of_nat (length sellerStats)) 0
                           sellerStats ;;
  Ok (map report_entry ranked).

End Runtime.

(** ** A runtime instance for running the model

    Number::toString and StringToNumber restricted to what the examples
    need: integers are printed and read in decimal; every other number prints
    as ["NaN"] and every other text reads as NaN. *)

Definition integer_NumberToString (x : float) : string :=
  match Prim2SF x with
  | S754_zero _ => "0"
  | S754_finite s m e =>
      if Z.leb 0 e
      then (if s then "-" else "") ++ pretty (Z.to_N (Z.pos m * 2 ^ e))
      else "NaN"
  | _ => "NaN"
  end.

Definition integer_StringToNumber (s : string) : float :=
  match s with
  | EmptyString => 0%float
  | _ => match digits_value s 0%N with
         | Some n => SF2Prim (binary_normalize prec emax (Z.of_N n) 0 false)
         | None => PrimFloat.nan
         end
  end.

Abbreviation run_analyzeSalesData :=
  (analyzeSalesData integer_NumberToString integer_StringToNumber).
Abbreviation run_calculateBonusByProfit :=
  (calculateBonusByProfit integer_NumberToString integer_StringToNumber).
Abbreviation run_calculateSimpleRevenue :=
  (calculateSimpleRevenue integer_NumberToString integer_StringToNumber).

(** A property read that cannot throw: [undefined] where [get] throws. *)
Definition property (o : value) (k : string) : value :=
  match get o k with
  | Ok v => v
  | Throw _ => VUndefined
  end.

(** ** Vocabulary of the statements *)


Section Vocabulary.
Variable NumberToString : float -> string.
Variable StringToNumber : string -> float.

(** The property key under which a seller is indexed, and the key a
    receipt is looked up with. *)
Definition seller_key (seller : value) : string :=
  ToString NumberToString (property seller "id").

Definition stat_key (s : SellerStat) : string :=
  ToString NumberToString (stat_id s).

Definition record_key (record : value) : option string :=
  match get record "seller_id" with
  | Ok k => Some (ToString NumberToString k)
  | Throw _ => None
  end.

(** The position of the seller record a receipt is added to, if any. *)
Definition resolve (sellerIndex : gmap string nat) (record : value) : option nat :=
  match record_key record with
  | Some k => sellerIndex !! k
  | None => None
  end.

(** [Number(record.total_amount ?? 0)] *)
Definition record_amount (record : value) : float :=
  Number NumberToString StringToNumber
    (nullish (property record "total_amount") (VNum 0)).

(** The receipts that are added to the seller record at position [j]. *)
Definition receipts_of (sellerIndex : gmap string nat) (j : nat)
    (records : list value) : list value :=
  filter (fun r => resolve sellerIndex r = Some j) records.

End Vocabulary.

(** ** Vocabulary of the proofs *)

(** Binary64 values as the Standard Library specifies them: a value that is
    not negative (NaN included). *)
Definition sign_false (f : spec_float) : Prop :=
  match f with
  | S754_zero s | S754_infinity s | S754_finite s _ _ => s = false
  | S754_nan => True
  end.

(** The order of the values that are not NaN is the lexicographic order
    of these keys. *)
Definition sf_key (x : spec_float) : Z * (Z * Z) :=
  match x with
  | S754_zero _ | S754_nan => (0, (0, 0))
  | S754_infinity s => (if s then -2 else 2, (0, 0))
  | S754_finite s m e => if s then (-1, (- e, - Z.pos m)) else (1, (e, Z.pos m))
  end.

Definition lex_lt (a b : Z * (Z * Z)) : Prop :=
  fst a < fst b \/
  (fst a = fst b /\
   (fst (snd a) < fst (snd b) \/
    (fst (snd a) = fst (snd b) /\ snd (snd a) < snd (snd b)))).

Definition not_nan (x : spec_float) : Prop :=
  match x with S754_nan => False | _ => True end.

Definition signed_nonzero (s : bool) (r : spec_float) : Prop :=
  match r with
  | S754_finite s' _ _ | S754_infinity s' => s' = s
  | _ => False
  end.

(** A value that is neither [null] nor [undefined]. *)
Definition non_nullish (v : value) : bool :=
  match v with
  | VUndefined | VNull => false
  | _ => true
  end.

(** The words of the specification: a collection that is present, a
    sequence, and not empty. *)
Definition nonempty_array (v : value) : bool :=
  match v with
  | VArr (_ :: _) => true
  | _ => false
  end.

(** (a): the data object is missing, or one of the three collections is
    absent, not a sequence, or empty. *)
Definition invalid_input (data : value) : Prop :=
  truthy data = false \/
  nonempty_array (property data "sellers") = false \/
  nonempty_array (property data "products") = false \/
  nonempty_array (property data "purchase_records") = false.

Definition callable {F : Type} (f : field F) : bool :=
  match f with
  | FFunction _ => true
  | _ => false
  end.





(** A comparator of the form [(a, b) => key(b) - key(a)]. *)
Section Descending.
Context {A : Type} (key : A -> float).

Definition descending (a b : A) : float := (key b - key a)%float.

Definition number_key (a : A) : Prop := PrimFloat.is_nan (key a) = false.

End Descending.

Definition number_profit (s : SellerStat) : Prop :=
  PrimFloat.is_nan (profit s) = false.





(** The members of a list that a function sends to position [j]. *)
Section Grouping.
Context {A : Type} (g : A -> option nat).


End Grouping.

(** ** Vocabulary of the statements about lines, indexes and rounding *)

(** The number of elements of a list, as the JavaScript number a counter
    holds. *)
Definition number_of_nat (n : nat) : float :=
  PrimFloat.of_uint63 (Uint63.of_Z (Z.of_nat n)).

(** A whole number: a zero, or a finite value [m * 2^e] in which [2^(-e)]
    divides [m] when [e] is negative. *)
Definition is_whole (x : float) : bool :=
  match Prim2SF x with
  | S754_zero _ => true
  | S754_finite _ m e => (Z.leb 0 e || Z.eqb (Z.pos m mod 2 ^ (- e)) 0)%bool
  | _ => false
  end.

(** [x || 0] on numbers. *)
Definition or_zero (x : float) : float :=
  if is_zero_or_nan x then 0%float else x.


Section Lines.
Variable NumberToString : float -> string.
Variable StringToNumber : string -> float.

(** The line items of a receipt. *)
Definition items_of (record : value) : list value :=
  match property record "items" with
  | VArr its => its
  | _ => []
  end.


Definition item_key (item : value) : string :=
  ToString NumberToString (property item "sku").

(** [productIndex[item.sku]] when it is truthy: the product a line item is
    charged to. *)
Definition item_product (productIndex : gmap string value) (item : value)
  : option value :=
  match productIndex !! item_key item with
  | Some p => if truthy p then Some p else None
  | None => None
  end.

(** [Number(item.quantity ?? 0)] *)
Definition item_quantity (item : value) : float :=
  Number NumberToString StringToNumber
    (nullish (property item "quantity") (VNum 0)).

(** [Number(product.purchase_price) * qty] *)
Definition line_cost (item product : value) : float :=
  (Number NumberToString StringToNumber (property product "purchase_price")
   * item_quantity item)%float.

(** [(Number(calculateRevenue(item, product)) || 0) - cost] *)
Definition line_profit (f : revenue_fn) (line : value * value) : result float :=
  r <- f (fst line) (snd line) ;;
  Ok (or_zero (Number NumberToString StringToNumber r)
      - line_cost (fst line) (snd line))%float.

(** The line items of some receipts that have a product, each with its
    product, in the order in which they are processed. *)
Definition charged (productIndex : gmap string value) (items : list value)
  : list (value * value) :=
  omap (fun item => match item_product productIndex item with
                    | Some p => Some (item, p)
                    | None => None
                    end) items.

Definition charged_lines (productIndex : gmap string value)
    (records : list value) : list (value * value) :=
  flat_map (fun r => charged productIndex (items_of r)) records.


(** [`${seller.first_name} ${seller.last_name}`] *)
Definition seller_name (seller : value) : string :=
  ToString NumberToString (property seller "first_name") ++ " "
  ++ ToString NumberToString (property seller "last_name").

End Lines.

(** The two writes of a line item to [products_sold]. *)
Definition sold_update (k : string) (qty : float) (sold : list (string * float))
  : list (string * float) :=
  let sold :=
    if match obj_get k sold with
       | Some q => is_zero_or_nan q
       | None => true
       end
    then obj_set k 0%float sold else sold in
  obj_set k (from_option (fun q => q) PrimFloat.nan (obj_get k sold) + qty)%float
          sold.

Section Indexes.
Variable NumberToString : float -> string.

(** The seller record [data.sellers.map] builds from a seller. *)
Definition initial_stat (seller : value) : SellerStat :=
  {| stat_id := property seller "id";
     stat_name := seller_name NumberToString seller;
     revenue := 0; profit := 0; sales_count := 0; products_sold := [] |}.

(** [sellerIndex] and [productIndex] as they are built from the two input
    arrays. *)
Definition seller_index (sellers : list value) : gmap string nat :=
  index_sellers NumberToString 0 (map initial_stat sellers) ∅.

Definition product_index (products : list value) : gmap string value :=
  index_products NumberToString (map (fun p => (property p "sku", p)) products).

End Indexes.

Section PurchaseFields.
Variable NumberToString : float -> string.
Variable StringToNumber : string -> float.

(** A property of a line item as [calculateSimpleRevenue] uses it: the
    destructuring default 0 when it is [undefined], then the coercion to a
    number of the arithmetic operators. *)
Definition field_or_zero (purchase : value) (k : string) : float :=
  Number NumberToString StringToNumber (default (property purchase k) (VNum 0)).

End PurchaseFields.

(** ** The same function over a store of objects

    To account for writes and aliasing, [analyzeSalesData] is embedded a
    second time with objects held in a store and values that refer to them.
    Every property write of the source is a [put] (or [sort_in_place]) on a
    value read at run time; nothing in the monad tells input objects from
    the objects the function allocates. The conversions ToString and
    ToNumber read the store and are parameters, and so are the strategies,
    which read the store and return a value. Temporaries that are never
    stored in an object (the [[sku, p]] pairs, the arrays between [map],
    [sort] and [slice]) are not allocated. *)

Module Heap.

Abbreviation loc := nat.

Inductive hval : Type :=
| HUndefined
| HNull
| HBool (b : bool)
| HNum (x : float)
| HStr (s : string)
| HRef (l : loc).

Inductive hobj : Type :=
| HObj (props : list (string * hval))
| HArr (elems : list hval).

Abbreviation store := (list hobj).

(** Computations that read and write the store and may throw; the store
    is returned in both cases. *)
Definition M (A : Type) : Type := store -> result A * store.

Definition ret {A : Type} (a : A) : M A := fun s => (Ok a, s).
Definition raise {A : Type} (e : error) : M A := fun s => (Throw e, s).
Definition mbind {A B : Type} (m : M A) (k : A -> M B) : M B :=
  fun s => match m s with
           | (Ok a, s') => k a s'
           | (Throw e, s') => (Throw e, s')
           end.

Notation "x <~ m ;; k" := (mbind m (fun x => k))
  (at level 100, m at next level, right associativity).
Notation "m ;;; k" := (mbind m (fun _ => k))
  (at level 100, right associativity).

Fixpoint mapM {A B : Type} (f : A -> M B) (l : list A) : M (list B) :=
  match l with
  | [] => ret []
  | a :: l' => b <~ f a ;; bs <~ mapM f l' ;; ret (b :: bs)
  end.

Fixpoint forM {A : Type} (f : A -> M unit) (l : list A) : M unit :=
  match l with
  | [] => ret tt
  | a :: l' => f a ;;; forM f l'
  end.

Fixpoint forM_from {A : Type} (f : Z -> A -> M unit) (index : Z) (l : list A)
  : M unit :=
  match l with
  | [] => ret tt
  | a :: l' => f index a ;;; forM_from f (index + 1) l'
  end.

(** A new object; its reference is the next free location. *)
Definition alloc (o : hobj) : M hval :=
  fun s => (Ok (HRef (length s)), (s ++ [o])%list).

(** The own property [k] of a value in store [s], without exceptions. *)
Definition lookup_prop (s : store) (o : hval) (k : string) : hval :=
  match o with
  | HRef l =>
      match s !! l with
      | Some (HObj props) => from_option (fun v => v) HUndefined (obj_get k props)
      | _ => HUndefined
      end
  | _ => HUndefined
  end.

(** [o.k] and [o[k]] *)
Definition get (o : hval) (k : string) : M hval :=
  fun s => match o with
           | HUndefined | HNull => (Throw JsTypeError, s)
           | _ => (Ok (lookup_prop s o k), s)
           end.

(** [o.k = v] and [o[k] = v]; a write to a primitive is ignored. *)
Definition put (o : hval) (k : string) (v : hval) : M unit :=
  fun s => match o with
           | HUndefined | HNull => (Throw JsTypeError, s)
           | HRef l =>
               match s !! l with
               | Some (HObj props) => (Ok tt, <[l := HObj (obj_set k v props)]> s)
               | _ => (Ok tt, s)
               end
           | _ => (Ok tt, s)
           end.

(** [Array.isArray(v)], with the elements when it holds. *)
Definition elements (v : hval) : M (option (list hval)) :=
  fun s => (Ok match v with
               | HRef l => match s !! l with
                           | Some (HArr es) => Some es
                           | _ => None
                           end
               | _ => None
               end, s).

(** [Object.entries(o)] of a plain object. *)
Definition own_entries (v : hval) : M (list (string * hval)) :=
  fun s => (Ok match v with
               | HRef l => match s !! l with
                           | Some (HObj props) => props
                           | _ => []
                           end
               | _ => []
               end, s).

(** [a.sort(cmp)]: the array is sorted in place; the comparator reads the
    store. *)
Definition sort_in_place (a : hval) (cmp : store -> hval -> hval -> float)
  : M unit :=
  fun s => match a with
           | HRef l =>
               match s !! l with
               | Some (HArr es) => (Ok tt, <[l := HArr (js_sort (cmp s) es)]> s)
               | _ => (Ok tt, s)
               end
           | _ => (Ok tt, s)
           end.

Definition truthy (v : hval) : bool :=
  match v with
  | HUndefined | HNull => false
  | HBool b => b
  | HNum x => negb (is_zero_or_nan x)
  | HStr s => negb (String.eqb s "")
  | HRef _ => true
  end.

Definition nullish (a b : hval) : hval :=
  match a with
  | HUndefined | HNull => b
  | _ => a
  end.

(** The number held by a property that the function itself initialised
    with a number. *)
Definition num (v : hval) : float :=
  match v with
  | HNum x => x
  | _ => PrimFloat.nan
  end.

Definition revenue_fn : Type := hval -> hval -> store -> result hval.
Definition bonus_fn : Type := Z -> Z -> hval -> store -> result hval.

Inductive options_value : Type :=
| OptNullish
| OptNotObject
| OptObject (calculateRevenue : field revenue_fn)
            (calculateBonus : field bonus_fn).

(** A call of a strategy: it reads the store and leaves it as it is. *)
Definition call (r : store -> result hval) : M hval := fun s => (r s, s).

Section Engine.

(** ToString and ToNumber of a value in a store. *)
Variable ToString : store -> hval -> string.
Variable ToNumber : store -> hval -> float.

Definition to_string (v : hval) : M string := fun s => (Ok (ToString s v), s).
Definition to_number (v : hval) : M float := fun s => (Ok (ToNumber s v), s).

Definition check_data (data : hval)
  : M (list hval * list hval * list hval) :=
  if negb (truthy data) then raise (JsError "Некорректные входные данные")
  else
    sellers <~ get data "sellers" ;;
    products <~ get data "products" ;;
    purchase_records <~ get data "purchase_records" ;;
    ss <~ elements sellers ;;
    ps <~ elements products ;;
    rs <~ elements purchase_records ;;
    match ss, ps, rs with
    | Some ss, Some ps, Some rs =>
        if (Nat.eqb (length ss) 0 || Nat.eqb (length ps) 0
            || Nat.eqb (length rs) 0)%bool
        then raise (JsError "Некорректные входные данные")
        else ret (ss, ps, rs)
    | _, _, _ => raise (JsError "Некорректные входные данные")
    end.

Definition check_options (options : options_value)
  : M (revenue_fn * bonus_fn) :=
  match options with
  | OptNullish | OptNotObject => raise (JsError "Опции должны быть объектом")
  | OptObject calculateRevenue calculateBonus =>
      match calculateRevenue, calculateBonus with
      | FUndefined, _ | _, FUndefined =>
          raise (JsError "Переменные в опциях не определены")
      | FFunction f, FFunction g => ret (f, g)
      | _, _ => raise (JsError "Переменные в опциях должны быть функциями")
      end
  end.

(** The callback of [data.sellers.map]: two new objects. *)
Definition new_stat (seller : hval) : M hval :=
  id <~ get seller "id" ;;
  first_name <~ get seller "first_name" ;;
  last_name <~ get seller "last_name" ;;
  first <~ to_string first_name ;;
  last <~ to_string last_name ;;
  sold <~ alloc (HObj []) ;;
  alloc (HObj [("id", id);
               ("name", HStr (first ++ " " ++ last));
               ("revenue", HNum 0);
               ("profit", HNum 0);
               ("sales_count", HNum 0);
               ("products_sold", sold)]).

(** The callback of the [reduce]: [acc[s.id] = s]. *)
Definition index_seller (acc s : hval) : M unit :=
  id <~ get s "id" ;;
  k <~ to_string id ;;
  put acc k s.

Definition index_product (productIndex p : hval) : M unit :=
  sku <~ get p "sku" ;;
  k <~ to_string sku ;;
  put productIndex k p.

Definition process_item (calculateRevenue : revenue_fn)
    (productIndex seller item : hval) : M unit :=
  item_sku <~ get item "sku" ;;
  key <~ to_string item_sku ;;
  product <~ get productIndex key ;;
  if negb (truthy product) then ret tt
  else
    item_quantity <~ get item "quantity" ;;
    qty <~ to_number (nullish item_quantity (HNum 0)) ;;
    purchase_price <~ get product "purchase_price" ;;
    price <~ to_number purchase_price ;;
    let cost := (price * qty)%float in
    r <~ call (calculateRevenue item product) ;;
    rn <~ to_number r ;;
    let revenue_ := if is_zero_or_nan rn then 0%float else rn in
    let profit_ := (revenue_ - cost)%float in
    old_profit <~ get seller "profit" ;;
    put seller "profit" (HNum (num old_profit + profit_)) ;;;
    sold <~ get seller "products_sold" ;;
    cur <~ get sold key ;;
    (if negb (truthy cur) then put sold key (HNum 0) else ret tt) ;;;
    sold <~ get seller "products_sold" ;;
    cur <~ get sold key ;;
    put sold key (HNum (num cur + qty)).

Definition process_record (calculateRevenue : revenue_fn)
    (sellerIndex productIndex record : hval) : M unit :=
  record_seller_id <~ get record "seller_id" ;;
  key <~ to_string record_seller_id ;;
  seller <~ get sellerIndex key ;;
  if negb (truthy seller) then ret tt
  else
    old_count <~ get seller "sales_count" ;;
    put seller "sales_count" (HNum (num old_count + 1)) ;;;
    total_amount <~ get record "total_amount" ;;
    checkRevenue <~ to_number (nullish total_amount (HNum 0)) ;;
    old_revenue <~ get seller "revenue" ;;
    put seller "revenue" (HNum (num old_revenue + checkRevenue)) ;;;
    items <~ get record "items" ;;
    its <~ elements items ;;
    match its with
    | Some its => forM (process_item calculateRevenue productIndex seller) its
    | None => raise JsTypeError
    end.

Definition by_profit (s : store) (a b : hval) : float :=
  (num (nullish (lookup_prop s b "profit") (HNum 0))
   - num (nullish (lookup_prop s a "profit") (HNum 0)))%float.

Definition by_quantity (a b : string * hval) : float :=
  (num (snd b) - num (snd a))%float.

(** The callback of the second [forEach]. *)
Definition assign_bonus (calculateBonus : bonus_fn) (total index : Z)
    (seller : hval) : M unit :=
  b <~ call (calculateBonus index total seller) ;;
  put seller "bonus" b ;;;
  sold <~ get seller "products_sold" ;;
  entries <~ own_entries sold ;;
  pairs <~ mapM (fun kq => alloc (HObj [("sku", HStr (fst kq));
                                        ("quantity", snd kq)]))
                (take 10 (js_sort by_quantity entries)) ;;
  top <~ alloc (HArr pairs) ;;
  put seller "top_products" top.

Definition to2 (n : hval) : M hval :=
  x <~ to_number (nullish n (HNum 0)) ;; ret (HNum (plus_toFixed2 x)).

(** The callback of the final [map]. *)
Definition report_entry (seller : hval) : M hval :=
  id <~ get seller "id" ;;
  seller_id <~ to_string id ;;
  name <~ get seller "name" ;;
  revenue <~ get seller "revenue" ;;
  revenue <~ to2 revenue ;;
  profit <~ get seller "profit" ;;
  profit <~ to2 profit ;;
  sales_count <~ get seller "sales_count" ;;
  top_products <~ get seller "top_products" ;;
  bonus <~ get seller "bonus" ;;
  bonus <~ to2 bonus ;;
  alloc (HObj [("seller_id", HStr seller_id); ("name", name);
               ("revenue", revenue); ("profit", profit);
               ("sales_count", sales_count); ("top_products", top_products);
               ("bonus", bonus)]).

Definition analyzeSalesData (data : hval) (options : options_value) : M hval :=
  d <~ check_data data ;;
  o <~ check_options options ;;
  let '(sellers, products, purchase_records) := d in
  let '(calculateRevenue, calculateBonus) := o in
  stats <~ mapM new_stat sellers ;;
  sellerStats <~ alloc (HArr stats) ;;
  sellerIndex <~ alloc (HObj []) ;;
  forM (index_seller sellerIndex) stats ;;;
  productIndex <~ alloc (HObj []) ;;
  forM (index_product productIndex) products ;;;
  forM (process_record calculateRevenue sellerIndex productIndex)
       purchase_records ;;;
  sort_in_place sellerStats by_profit ;;;
  sorted <~ elements sellerStats ;;
  let sorted := from_option (fun l => l) [] sorted in
  forM_from (assign_bonus calculateBonus (Z.of_nat (length sorted))) 0 sorted ;;;
  entries <~ mapM report_entry sorted ;;
  alloc (HArr entries).

(** The two reference strategies, reading their arguments in the store. *)
Definition calculateSimpleRevenue : revenue_fn :=
  fun purchase _product s =>
    match purchase with
    | HUndefined | HNull => Throw JsTypeError
    | _ =>
        let or_zero v := match v with HUndefined => HNum 0 | _ => v end in
        let discount := or_zero (lookup_prop s purchase "discount") in
        let sale_price := or_zero (lookup_prop s purchase "sale_price") in
        let quantity := or_zero (lookup_prop s purchase "quantity") in
        let discountFactor := (1 - (ToNumber s discount / 100))%float in
        Ok (HNum (ToNumber s sale_price * ToNumber s quantity
                  * discountFactor)%float)
    end.

Definition calculateBonusByProfit : bonus_fn :=
  fun index total seller s =>
    match seller with
    | HUndefined | HNull => Throw JsTypeError
    | _ =>
        let profit :=
          Math_max [0%float;
                    ToNumber s (nullish (lookup_prop s seller "profit")
                                        (HNum 0))] in
        if Z.eqb index 0 then Ok (HNum (profit * 0.15)%float)
        else if (Z.eqb index 1 || Z.eqb index 2)%bool
             then Ok (HNum (profit * 0.10)%float)
        else if Z.eqb index (total - 1) then Ok (HNum 0)
        else Ok (HNum (profit * 0.05)%float)
    end.

End Engine.

(** Reading a report back from the store. *)
Definition text (v : hval) : string :=
  match v with
  | HStr x => x
  | _ => ""
  end.

Definition array_of (s : store) (v : hval) : list hval :=
  match v with
  | HRef l => match s !! l with
              | Some (HArr es) => es
              | _ => []
              end
  | _ => []
  end.

Definition read_entry (s : store) (v : hval) : ReportEntry :=
  {| seller_id := text (lookup_prop s v "seller_id");
     name := text (lookup_prop s v "name");
     entry_revenue := num (lookup_prop s v "revenue");
     entry_profit := num (lookup_prop s v "profit");
     entry_sales_count := num (lookup_prop s v "sales_count");
     top_products :=
       map (fun t => mkTop (text (lookup_prop s t "sku"))
                           (num (lookup_prop s t "quantity")))
           (array_of s (lookup_prop s v "top_products"));
     bonus := num (lookup_prop s v "bonus") |}.

Definition read_report (outcome : result hval * store)
  : result (list ReportEntry) :=
  match fst outcome with
  | Ok v => Ok (map (read_entry (snd outcome)) (array_of (snd outcome) v))
  | Throw e => Throw e
  end.

(** The scenario of the specification laid out in a store, and conversions
    that suffice for it. *)
Definition scenario_store : store :=
  [ HObj [("id", HStr "s1"); ("first_name", HStr "Ann"); ("last_name", HStr "Lee")];
    HObj [("id", HStr "s2"); ("first_name", HStr "Bob"); ("last_name", HStr "Ray")];
    HArr [HRef 0%nat; HRef 1%nat];
    HObj [("sku", HStr "A"); ("purchase_price", HNum 5)];
    HArr [HRef 3%nat];
    HObj [("sku", HStr "A"); ("quantity", HNum 2); ("sale_price", HNum 20);
          ("discount", HNum 0)];
    HArr [HRef 5%nat];
    HObj [("seller_id", HStr "s1"); ("total_amount", HNum 100);
          ("items", HRef 6%nat)];
    HArr [HRef 7%nat];
    HObj [("sellers", HRef 2%nat); ("products", HRef 4%nat);
          ("purchase_records", HRef 8%nat)] ].

Definition scenario_ref : hval := HRef 9%nat.

Definition plain_ToString (s : store) (v : hval) : string :=
  match v with
  | HStr x => x
  | HNum x => integer_NumberToString x
  | HUndefined => "undefined"
  | HNull => "null"
  | HBool true => "true"
  | HBool false => "false"
  | HRef _ => "[object Object]"
  end.

Definition plain_ToNumber (s : store) (v : hval) : float :=
  match v with
  | HNum x => x
  | HNull | HBool false => 0%float
  | HBool true => 1%float
  | HStr x => integer_StringToNumber x
  | HUndefined | HRef _ => PrimFloat.nan
  end.

Definition scenario_options : options_value :=
  OptObject (FFunction (calculateSimpleRevenue plain_ToNumber))
            (FFunction (calculateBonusByProfit plain_ToNumber)).

(** A value of the first embedding laid out in a store, children before
    parents. *)
Fixpoint load (v : value) (s : store) : hval * store :=
  match v with
  | VUndefined => (HUndefined, s)
  | VNull => (HNull, s)
  | VBool b => (HBool b, s)
  | VNum x => (HNum x, s)
  | VStr x => (HStr x, s)
  | VArr elems =>
      let '(hs, s1) :=
        (fix go (l : list value) (s : store) : list hval * store :=
           match l with
           | [] => ([], s)
           | e :: l' =>
               let '(h, s1) := load e s in
               let '(hs, s2) := go l' s1 in
               (h :: hs, s2)
           end) elems s in
      (HRef (length s1), (s1 ++ [HArr hs])%list)
  | VObj props =>
      let '(hs, s1) :=
        (fix go (l : list (string * value)) (s : store)
           : list (string * hval) * store :=
           match l with
           | [] => ([], s)
           | (k, e) :: l' =>
               let '(h, s1) := load e s in
               let '(hs, s2) := go l' s1 in
               ((k, h) :: hs, s2)
           end) props s in
      (HRef (length s1), (s1 ++ [HObj hs])%list)
  end.

(** The outcome of the store-level call on a loaded input, read back. *)
Definition run_loaded (data : value) : result (list ReportEntry) :=
  let '(ref, s) := load data [] in
  read_report (analyzeSalesData plain_ToString plain_ToNumber ref
                 scenario_options s).

(** A typing of the store: every location has a kind. *)
Inductive kind : Type :=
| KInput    (* an object of the caller *)
| KStat     (* a seller record of [sellerStats] *)
| KSold     (* the [products_sold] dictionary of a seller record *)
| KIndex    (* [sellerIndex] *)
| KStats    (* the array [sellerStats] *)
| KReport   (* the returned array *)
| KFresh.   (* any other object the function allocates *)

Abbreviation typing := (list kind).

Definition has_kind (T : typing) (v : hval) (K : kind) : Prop :=
  exists l, v = HRef l /\ T !! l = Some K.

(** What the typing promises about an object of each kind. *)
Definition obj_ok (T : typing) (K : kind) (o : hobj) : Prop :=
  match K with
  | KStat => exists props sold,
      o = HObj props /\ obj_get "products_sold" props = Some sold /\
      has_kind T sold KSold
  | KIndex => exists props,
      o = HObj props /\ Forall (fun kv => has_kind T (snd kv) KStat) props
  | KStats => exists es,
      o = HArr es /\ Forall (fun v => has_kind T v KStat) es
  | KReport => exists es, o = HArr es
  | _ => True
  end.

Definition typed (T : typing) (s : store) : Prop :=
  length T = length s /\
  forall l K o, T !! l = Some K -> s !! l = Some o -> obj_ok T K o.

(** [triple T m Q]: from a store typed by [T], [m] ends in a store typed by
    an extension of [T], has not changed any [KInput] location, and a
    returned value satisfies [Q]. *)
Definition triple {A : Type} (T : typing) (m : M A)
    (Q : typing -> A -> Prop) : Prop :=
  forall s, typed T s ->
    exists T', typed (T ++ T')%list (snd (m s)) /\
               (forall l, T !! l = Some KInput -> snd (m s) !! l = s !! l) /\
               (forall a, fst (m s) = Ok a -> Q (T ++ T')%list a).

End Heap.

(** ** What a value of the store leads to

    The objects of a store that a value leads to: the object it refers
    to, and every object that one of its properties or elements leads to.
    A second typing of the store records, for every object the function
    allocates, which values it may hold; it is used to bound what the
    returned report leads to. *)

Definition children (o : Heap.hobj) : list Heap.hval :=
  match o with
  | Heap.HObj props => map snd props
  | Heap.HArr es => es
  end.

Inductive reachable (s : Heap.store) : Heap.hval -> Heap.loc -> Prop :=
| reach_here (l : Heap.loc) : reachable s (Heap.HRef l) l
| reach_step (l : Heap.loc) (o : Heap.hobj) (v : Heap.hval) (l' : Heap.loc) :
    s !! l = Some o -> In v (children o) -> reachable s v l' ->
    reachable s (Heap.HRef l) l'.

Inductive shape : Type :=
| SInput     (* an object of the caller *)
| SStat      (* a seller record of [sellerStats] *)
| SSold      (* the [products_sold] dictionary of a seller record *)
| SIndex     (* [sellerIndex] *)
| SStats     (* the array [sellerStats] *)
| SProducts  (* [productIndex] *)
| SPair      (* a [{ sku, quantity }] object *)
| STop       (* a [top_products] array *)
| SEntry     (* an entry of the report *)
| SReport.   (* the returned array *)

Definition has_shape (T : list shape) (v : Heap.hval) (K : shape) : Prop :=
  exists l, v = Heap.HRef l /\ T !! l = Some K.

(** A value that refers to no object. *)
Definition primitive (v : Heap.hval) : Prop :=
  match v with
  | Heap.HRef _ => False
  | _ => True
  end.

(** What a seller record holds under the keys that reach the report as
    they are, and under [products_sold]. *)
Definition stat_field (T : list shape) (kv : string * Heap.hval) : Prop :=
  if String.eqb (fst kv) "products_sold" then has_shape T (snd kv) SSold
  else if (String.eqb (fst kv) "name" || String.eqb (fst kv) "sales_count")%bool
       then primitive (snd kv)
  else if String.eqb (fst kv) "top_products" then has_shape T (snd kv) STop
  else True.

Definition shape_ok (T : list shape) (K : shape) (o : Heap.hobj) : Prop :=
  match K with
  | SInput | SProducts => True
  | SStat => exists props,
      o = Heap.HObj props /\ is_Some (obj_get "products_sold" props) /\
      Forall (stat_field T) props
  | SSold | SPair => exists props,
      o = Heap.HObj props /\ Forall (fun kv => primitive (snd kv)) props
  | SIndex => exists props,
      o = Heap.HObj props /\ Forall (fun kv => has_shape T (snd kv) SStat) props
  | SStats => exists es,
      o = Heap.HArr es /\ Forall (fun v => has_shape T v SStat) es
  | STop => exists es,
      o = Heap.HArr es /\ Forall (fun v => has_shape T v SPair) es
  | SEntry => exists props,
      o = Heap.HObj props /\
      Forall (fun kv => primitive (snd kv) \/ has_shape T (snd kv) STop) props
  | SReport => exists es,
      o = Heap.HArr es /\ Forall (fun v => has_shape T v SEntry) es
  end.

Definition shaped (T : list shape) (s : Heap.store) : Prop :=
  length T = length s /\
  forall l K o, T !! l = Some K -> s !! l = Some o -> shape_ok T K o.

(** [builds T m Q]: from a store shaped by [T], [m] ends in a store shaped
    by an extension of [T], and a returned value satisfies [Q]. *)
Definition builds {A : Type} (T : list shape) (m : Heap.M A)
    (Q : list shape -> A -> Prop) : Prop :=
  forall s, shaped T s ->
    exists T', shaped (T ++ T')%list (snd (m s)) /\
               (forall a, fst (m s) = Ok a -> Q (T ++ T')%list a).

(** The shapes of the objects of a report. *)
Definition of_report (K : shape) : bool :=
  match K with
  | SReport | SEntry | STop | SPair => true
  | _ => false
  end.

(** ** Inputs used to run the model *)

Definition reference_options : options_value :=
  OptObject
    (FFunction (calculateSimpleRevenue integer_NumberToString integer_StringToNumber))
    (FFunction (calculateBonusByProfit integer_NumberToString integer_StringToNumber)).

Definition seller_with_profit_30 : value := VObj [("profit", VNum 30)].

Definition seller_s1 : value :=
  VObj [("id", VStr "s1"); ("first_name", VStr "Ann"); ("last_name", VStr "Lee")].
Definition seller_s2 : value :=
  VObj [("id", VStr "s2"); ("first_name", VStr "Bob"); ("last_name", VStr "Ray")].
Definition product_A : value :=
  VObj [("sku", VStr "A"); ("purchase_price", VNum 5)].
Definition item_A : value :=
  VObj [("sku", VStr "A"); ("quantity", VNum 2); ("sale_price", VNum 20);
        ("discount", VNum 0)].

(** The scenario of the specification: two sellers, one product, one
    receipt of seller s1. *)
Definition scenario_data : value :=
  VObj [("sellers", VArr [seller_s1; seller_s2]);
        ("products", VArr [product_A]);
        ("purchase_records",
          VArr [VObj [("seller_id", VStr "s1"); ("total_amount", VNum 100);
                      ("items", VArr [item_A])]])].

(** The same input, the receipt having no [items] property. *)
Definition data_without_items : value :=
  VObj [("sellers", VArr [seller_s1; seller_s2]);
        ("products", VArr [product_A]);
        ("purchase_records",
          VArr [VObj [("seller_id", VStr "s1"); ("total_amount", VNum 100)]])].

(** One seller, one receipt, and a product that has no [purchase_price]. *)
Definition data_without_price : value :=
  VObj [("sellers", VArr [seller_s1]);
        ("products", VArr [VObj [("sku", VStr "A")]]);
        ("purchase_records",
          VArr [VObj [("seller_id", VStr "s1"); ("total_amount", VNum 100);
                      ("items", VArr [item_A])]])].

(** A receipt of a seller that is not in the input, and a line item of a
    product that is not. *)
Definition item_Z : value :=
  VObj [("sku", VStr "Z"); ("quantity", VNum 7); ("sale_price", VNum 9)].

(** Four receipts: two of seller s1, one of seller s2, one of a seller that
    is not in the input. *)
Definition receipt (seller amount : value) : value :=
  VObj [("seller_id", seller); ("total_amount", amount);
        ("items", VArr [item_A; item_Z])].

Definition four_receipts : list value :=
  [receipt (VStr "s1") (VNum 100); receipt (VStr "s9") (VNum 50);
   receipt (VStr "s2") (VNum 60); receipt (VStr "s1") (VNum 0.5)].


(** Three sellers; s3 sells nothing. *)
Definition seller_s3 : value :=
  VObj [("id", VStr "s3"); ("first_name", VStr "Cy"); ("last_name", VStr "Orr")].

Definition ranking_data : value :=
  VObj [("sellers", VArr [seller_s3; seller_s2; seller_s1]);
        ("products", VArr [product_A]);
        ("purchase_records", VArr four_receipts)].

(** Three sellers with one receipt each; the product sold by s2 has no
    [purchase_price]. *)
Definition product_N : value := VObj [("sku", VStr "N")].
Definition item_N : value :=
  VObj [("sku", VStr "N"); ("quantity", VNum 1); ("sale_price", VNum 10)].
Definition item_A4 : value :=
  VObj [("sku", VStr "A"); ("quantity", VNum 4); ("sale_price", VNum 20)].

Definition data_with_NaN_profit : value :=
  VObj [("sellers", VArr [seller_s1; seller_s2; seller_s3]);
        ("products", VArr [product_A; product_N]);
        ("purchase_records",
          VArr [VObj [("seller_id", VStr "s1"); ("total_amount", VNum 40);
                      ("items", VArr [item_A])];
                VObj [("seller_id", VStr "s2"); ("total_amount", VNum 10);
                      ("items", VArr [item_N])];
                VObj [("seller_id", VStr "s3"); ("total_amount", VNum 80);
                      ("items", VArr [item_A4])]])].

(** One seller and one receipt that sells product "2" and then product
    "1", three of each. *)
Definition data_with_numeric_skus : value :=
  VObj [("sellers", VArr [seller_s1]);
        ("products",
          VArr [VObj [("sku", VStr "2"); ("purchase_price", VNum 1)];
                VObj [("sku", VStr "1"); ("purchase_price", VNum 1)]]);
        ("purchase_records",
          VArr [VObj [("seller_id", VStr "s1"); ("total_amount", VNum 12);
                      ("items",
                        VArr [VObj [("sku", VStr "2"); ("quantity", VNum 3);
                                    ("sale_price", VNum 2)];
                              VObj [("sku", VStr "1"); ("quantity", VNum 3);
                                    ("sale_price", VNum 2)]])]])].

(** A second seller with the identifier of s1, and strategies that throw
    or return a constant. *)
Definition seller_s1_again : value :=
  VObj [("id", VStr "s1"); ("first_name", VStr "Al"); ("last_name", VStr "Lee")].

Definition flat_revenue : revenue_fn := fun _ _ => Ok (VNum 1).

(** * Properties *)

(** ** The scenario of the specification

    Seller s1 sells two units of product A (cost 5 each) at 20: revenue 100
    from the receipt, profit 40 - 10 = 30, bonus 30 * 0.15 = 4.5. Seller s2
    sells nothing. *)
Example scenario_report :
  run_analyzeSalesData scenario_data reference_options
  = Ok [ {| seller_id := "s1"; name := "Ann Lee";
            entry_revenue := 100; entry_profit := 30; entry_sales_count := 1;
            top_products := [ {| sku := "A"; quantity := 2 |} ];
            bonus := 4.5 |};
         {| seller_id := "s2"; name := "Bob Ray";
            entry_revenue := 0; entry_profit := 0; entry_sales_count := 0;
            top_products := []; bonus := 0 |} ].
Proof. vm_compute. reflexivity. Qed.

(** ** Facts about binary64 values *)

Lemma is_nan_Prim2SF (x : float) :
  PrimFloat.is_nan x =
  match Prim2SF x with S754_nan => true | _ => false end.
Proof.
  unfold PrimFloat.is_nan. rewrite FloatAxioms.eqb_spec. unfold SFeqb, SFcompare.
  destruct (Prim2SF x) as [s|s| |s m e]; try destruct s; try reflexivity;
    rewrite ?Z.compare_refl, ?Pos.compare_cont_refl; reflexivity.
Qed.

Lemma ltb_zero_sign (x : float) :
  PrimFloat.ltb x 0 = false <-> sign_false (Prim2SF x) \/ exists s, Prim2SF x = S754_zero s.
Proof.
  rewrite FloatAxioms.ltb_spec. change (Prim2SF 0) with (S754_zero false).
  unfold SFltb, SFcompare, sign_false.
  destruct (Prim2SF x) as [s|s| |s m e]; try destruct s; simpl;
    split; intros H; try reflexivity; try discriminate; eauto;
    destruct H as [H|[s H]]; discriminate.
Qed.

Lemma negative_not_positive (x : float) :
  PrimFloat.ltb x 0 = true ->
  PrimFloat.ltb 0 x = false /\ PrimFloat.is_nan x = false.
Proof.
  rewrite is_nan_Prim2SF, !FloatAxioms.ltb_spec. change (Prim2SF 0) with (S754_zero false).
  unfold SFltb, SFcompare.
  destruct (Prim2SF x) as [s|s| |s m e]; try destruct s; simpl;
    intros H; try discriminate; split; reflexivity.
Qed.

Lemma Math_max_zero (x : float) :
  Math_max [0%float; x] =
  if PrimFloat.is_nan x then PrimFloat.nan
  else if PrimFloat.ltb 0 x then x else 0%float.
Proof.
  unfold Math_max. cbn [existsb fold_left].
  change (PrimFloat.is_nan 0) with false.
  change (max_step PrimFloat.neg_infinity 0) with 0%float.
  rewrite orb_false_l, orb_false_r.
  destruct (PrimFloat.is_nan x); [reflexivity|].
  unfold max_step. change (PrimFloat.get_sign 0) with false.
  rewrite andb_false_r. cbn [andb].
  destruct (PrimFloat.ltb 0 x); reflexivity.
Qed.

Lemma Math_max_zero_sign (x : float) :
  sign_false (Prim2SF (Math_max [0%float; x])).
Proof.
  rewrite Math_max_zero. destruct (PrimFloat.is_nan x); [exact I|].
  destruct (PrimFloat.ltb 0 x) eqn:E; [|reflexivity].
  rewrite FloatAxioms.ltb_spec in E. change (Prim2SF 0) with (S754_zero false) in E.
  unfold SFltb, SFcompare in E. unfold sign_false.
  destruct (Prim2SF x) as [s|s| |s m e]; try destruct s;
    simpl in E; try discriminate; reflexivity.
Qed.

Lemma binary_round_aux_sign (s : bool) (m e : Z) (l : location) :
  s = false -> sign_false (binary_round_aux prec emax s m e l).
Proof.
  intros ->. unfold binary_round_aux.
  destruct (shr_fexp prec emax m e l) as [mrs' e'].
  destruct (shr_fexp prec emax _ e' loc_Exact) as [mrs'' e''].
  destruct (shr_m mrs''); [reflexivity| |exact I].
  destruct (Z.leb e'' (emax - prec)); reflexivity.
Qed.

Lemma mul_sign_false (x c : float) :
  sign_false (Prim2SF x) -> sign_false (Prim2SF c) ->
  sign_false (Prim2SF (x * c)%float).
Proof.
  rewrite FloatAxioms.mul_spec. unfold SF64mul, SFmul, sign_false.
  destruct (Prim2SF x) as [s|s| |s m e], (Prim2SF c) as [t|t| |t n f];
    intros Hx Hc; subst; try exact I; try reflexivity.
  apply binary_round_aux_sign. reflexivity.
Qed.

Lemma SFltb_lex (x y : spec_float) :
  not_nan x -> not_nan y -> (SFltb x y = true <-> lex_lt (sf_key x) (sf_key y)).
Proof.
  unfold SFltb, SFcompare, lex_lt, sf_key.
  destruct x as [s|s| |s m e], y as [t|t| |t n f]; intros Hx Hy;
    try contradiction; try destruct s; try destruct t; cbn [fst snd];
    try (split; [discriminate | lia]);
    try (split; [lia | reflexivity]);
    try (split; [intros _|reflexivity]; lia).
  all: change (Pos.compare_cont Eq m n) with (Pos.compare m n);
    destruct (Z.compare_spec e f); destruct (Pos.compare_spec m n); cbn;
    split; try discriminate; try reflexivity; try lia.
Qed.

Lemma SFltb_nan_l (y : spec_float) : SFltb S754_nan y = false.
Proof. reflexivity. Qed.

Lemma SFltb_nan_r (x : spec_float) : SFltb x S754_nan = false.
Proof. destruct x; reflexivity. Qed.

Lemma lex_lt_asym (a b : Z * (Z * Z)) : lex_lt a b -> ~ lex_lt b a.
Proof.
  destruct a as [a1 [a2 a3]], b as [b1 [b2 b3]]. unfold lex_lt. cbn [fst snd]. lia.
Qed.

Lemma lex_lt_not_trans (a b c : Z * (Z * Z)) :
  ~ lex_lt a b -> ~ lex_lt b c -> ~ lex_lt a c.
Proof.
  destruct a as [a1 [a2 a3]], b as [b1 [b2 b3]], c as [c1 [c2 c3]].
  unfold lex_lt. cbn [fst snd]. lia.
Qed.

Lemma SFltb_false_lex (x y : spec_float) :
  not_nan x -> not_nan y -> (SFltb x y = false <-> ~ lex_lt (sf_key x) (sf_key y)).
Proof.
  intros Hx Hy. rewrite <- (SFltb_lex x y Hx Hy).
  destruct (SFltb x y); split; congruence.
Qed.

Lemma SFltb_asym (x y : spec_float) : SFltb x y = true -> SFltb y x = false.
Proof.
  intros H.
  destruct x as [s|s| |s m e]; try (rewrite SFltb_nan_l in H; discriminate);
  destruct y as [t|t| |t n f]; try (rewrite SFltb_nan_r in H; discriminate).
  all: apply SFltb_false_lex; try exact I;
    apply lex_lt_asym, SFltb_lex; try exact I; exact H.
Qed.

Lemma SFltb_not_trans (x y z : spec_float) :
  not_nan y -> SFltb x y = false -> SFltb y z = false -> SFltb x z = false.
Proof.
  intros Hy Hxy Hyz.
  destruct x as [s|s| |s m e]; try reflexivity;
  destruct z as [u|u| |u p g]; try (apply SFltb_nan_r).
  all: apply SFltb_false_lex; try exact I;
    apply (lex_lt_not_trans _ (sf_key y));
    apply SFltb_false_lex; try exact I; assumption.
Qed.

(** *** Digits, shifts and rounding: a nonzero result keeps its sign *)
Lemma digits2_pos_bounds (m : positive) :
  2 ^ (Z.pos (digits2_pos m) - 1) <= Z.pos m < 2 ^ Z.pos (digits2_pos m).
Proof.
  induction m as [m IH|m IH|]; cbn [digits2_pos].
  - rewrite Pos2Z.inj_succ. replace (Z.succ (Z.pos (digits2_pos m)) - 1)
      with (Z.succ (Z.pos (digits2_pos m) - 1)) by lia.
    rewrite !Z.pow_succ_r by lia. lia.
  - rewrite Pos2Z.inj_succ. replace (Z.succ (Z.pos (digits2_pos m)) - 1)
      with (Z.succ (Z.pos (digits2_pos m) - 1)) by lia.
    rewrite !Z.pow_succ_r by lia. lia.
  - cbn. lia.
Qed.

Lemma iter_xO (m d : positive) : Z.pos (Pos.iter xO m d) = Z.pos m * 2 ^ Z.pos d.
Proof.
  induction d as [|d IH] using Pos.peano_ind.
  - cbn. lia.
  - rewrite Pos.iter_succ, Pos2Z.inj_succ, Z.pow_succ_r by lia.
    rewrite Pos2Z.inj_xO, IH. lia.
Qed.

Lemma shl_align_fst (m : positive) (e ez : Z) :
  ez <= e -> Z.pos (fst (shl_align m e ez)) = Z.pos m * 2 ^ (e - ez).
Proof.
  intros H. unfold shl_align.
  destruct (ez - e) as [|d|d] eqn:E; cbn [fst].
  - replace (e - ez) with 0 by lia. lia.
  - lia.
  - rewrite iter_xO. f_equal. f_equal. lia.
Qed.

Lemma shr_1_m (mrs : shr_record) :
  0 <= shr_m mrs -> shr_m (shr_1 mrs) = shr_m mrs / 2.
Proof.
  destruct mrs as [m r s]. intros H. unfold shr_1, shr_m in *.
  destruct m as [|[p|p|]|p]; try lia; try reflexivity.
  - apply Z.div_unique with 1; lia.
  - apply Z.div_unique with 0; lia.
Qed.

Lemma pow2_xI (p : positive) : 2 ^ Z.pos p~1 = 2 * 2 ^ Z.pos p * 2 ^ Z.pos p.
Proof.
  replace (Z.pos p~1) with (1 + Z.pos p + Z.pos p) by lia.
  rewrite !Z.pow_add_r by lia. reflexivity.
Qed.

Lemma pow2_xO (p : positive) : 2 ^ Z.pos p~0 = 2 ^ Z.pos p * 2 ^ Z.pos p.
Proof.
  replace (Z.pos p~0) with (Z.pos p + Z.pos p) by lia.
  rewrite !Z.pow_add_r by lia. reflexivity.
Qed.

Lemma iter_shr_1_m (p : positive) (mrs : shr_record) :
  0 <= shr_m mrs -> shr_m (SpecFloat.iter_pos shr_1 p mrs) = shr_m mrs / 2 ^ Z.pos p.
Proof.
  revert mrs. induction p as [p IH|p IH|]; intros mrs H; cbn [SpecFloat.iter_pos].
  - assert (P : 0 < 2 ^ Z.pos p) by (apply Z.pow_pos_nonneg; lia).
    assert (H1 : 0 <= shr_m (shr_1 mrs))
      by (rewrite shr_1_m by exact H; apply Z.div_pos; lia).
    assert (H2 : 0 <= shr_m (SpecFloat.iter_pos shr_1 p (shr_1 mrs)))
      by (rewrite IH by exact H1; apply Z.div_pos; lia).
    rewrite IH by exact H2. rewrite IH by exact H1. rewrite shr_1_m by exact H.
    rewrite pow2_xI, !Z.div_div by lia. f_equal. ring.
  - assert (P : 0 < 2 ^ Z.pos p) by (apply Z.pow_pos_nonneg; lia).
    assert (H2 : 0 <= shr_m (SpecFloat.iter_pos shr_1 p mrs))
      by (rewrite IH by exact H; apply Z.div_pos; lia).
    rewrite IH by exact H2. rewrite IH by exact H.
    rewrite pow2_xO, !Z.div_div by lia. reflexivity.
  - rewrite shr_1_m by exact H. reflexivity.
Qed.

Lemma shr_record_of_loc_m (m : Z) (l : location) :
  shr_m (shr_record_of_loc m l) = m.
Proof. destruct l as [|[]]; reflexivity. Qed.

Lemma shr_fexp_pos (m : positive) (e : Z) (l : location) :
  -1074 <= e ->
  0 < shr_m (fst (shr_fexp prec emax (Z.pos m) e l)) /\
  -1074 <= snd (shr_fexp prec emax (Z.pos m) e l).
Proof.
  intros He. unfold shr_fexp, shr, fexp, SpecFloat.emin, prec, emax, Zdigits2.
  pose proof (digits2_pos_bounds m) as [Hlo _].
  set (d := Z.pos (digits2_pos m)) in *.
  destruct (Z.max (d + e - 53) (3 - 1024 - 53) - e) as [|p|p] eqn:En;
    cbn [fst snd]; rewrite ?shr_record_of_loc_m; try lia.
  rewrite iter_shr_1_m by (rewrite shr_record_of_loc_m; lia).
  rewrite shr_record_of_loc_m. split; [|lia].
  apply Z.div_str_pos. split; [apply Z.pow_pos_nonneg; lia|].
  etransitivity; [|exact Hlo]. apply Z.pow_le_mono_r; lia.
Qed.

Lemma round_nearest_even_pos (m : Z) (l : location) :
  0 < m -> 0 < round_nearest_even m l.
Proof.
  intros H. unfold round_nearest_even.
  destruct l as [|[]]; try destruct (Z.even m); lia.
Qed.

Lemma binary_round_aux_nonzero (s : bool) (m : positive) (e : Z) (l : location) :
  -1074 <= e -> signed_nonzero s (binary_round_aux prec emax s (Z.pos m) e l).
Proof.
  intros He. unfold binary_round_aux.
  pose proof (shr_fexp_pos m e l He) as [H1 H2].
  destruct (shr_fexp prec emax (Z.pos m) e l) as [mrs' e']. cbn [fst snd] in H1, H2.
  pose proof (round_nearest_even_pos _ (loc_of_shr_record mrs') H1) as H3.
  destruct (round_nearest_even (shr_m mrs') (loc_of_shr_record mrs')) as [|m2|m2];
    try lia.
  pose proof (shr_fexp_pos m2 e' loc_Exact H2) as [H4 H5].
  destruct (shr_fexp prec emax (Z.pos m2) e' loc_Exact) as [mrs'' e''].
  cbn [fst snd] in H4, H5.
  destruct (shr_m mrs'') as [|m3|m3]; try lia.
  destruct (Z.leb e'' (emax - prec)); reflexivity.
Qed.

Lemma binary_round_nonzero (s : bool) (m : positive) (e : Z) :
  -1074 <= e -> signed_nonzero s (binary_round prec emax s m e).
Proof.
  intros He. unfold binary_round.
  destruct (shl_align m e _) as [mz ez] eqn:E.
  apply binary_round_aux_nonzero.
  unfold shl_align, fexp, SpecFloat.emin, prec, emax in E.
  destruct (Z.max _ _ - e) eqn:En; injection E as <- <-; lia.
Qed.

Lemma canonical_bounds (m : positive) (e : Z) :
  bounded prec emax m e = true ->
  -1074 <= e /\ Z.pos m < 9007199254740992 /\
  (-1074 < e -> 4503599627370496 <= Z.pos m).
Proof.
  unfold bounded, canonical_mantissa, fexp, SpecFloat.emin, prec, emax.
  intros H. apply andb_true_iff in H as [H _]. apply Z.eqb_eq in H.
  pose proof (digits2_pos_bounds m) as [Hlo Hhi].
  set (d := Z.pos (digits2_pos m)) in *.
  assert (D : d <= 53) by lia.
  split; [lia|]. split.
  - eapply Z.lt_le_trans; [exact Hhi|].
    change 9007199254740992 with (2 ^ 53). apply Z.pow_le_mono_r; lia.
  - intros He. assert (d = 53) by lia.
    replace (d - 1) with 52 in Hlo by lia. exact Hlo.
Qed.

Lemma aligned_diff_sign (sx sy : bool) (mx my : positive) (ex ey : Z) :
  bounded prec emax mx ex = true -> bounded prec emax my ey = true ->
  0 < cond_Zopp sx (Z.pos mx * 2 ^ (ex - Z.min ex ey))
      - cond_Zopp sy (Z.pos my * 2 ^ (ey - Z.min ex ey)) <->
  lex_lt (sf_key (S754_finite sy my ey)) (sf_key (S754_finite sx mx ex)).
Proof.
  intros Bx By.
  destruct (canonical_bounds _ _ Bx) as (Ex & Ux & Lx).
  destruct (canonical_bounds _ _ By) as (Ey & Uy & Ly).
  unfold lex_lt, sf_key, cond_Zopp.
  destruct (Z.lt_total ex ey) as [H|[H|H]].
  - rewrite Z.min_l by lia. replace (ex - ex) with 0 by lia.
    assert (P : 2 <= 2 ^ (ey - ex))
      by (change 2 with (2 ^ 1) at 1; apply Z.pow_le_mono_r; lia).
    assert (Q : 2 * Z.pos my <= Z.pos my * 2 ^ (ey - ex)) by nia.
    set (My := Z.pos my * 2 ^ (ey - ex)) in *.
    destruct sx, sy; cbn [fst snd]; lia.
  - subst ey. rewrite Z.min_l by lia. replace (ex - ex) with 0 by lia.
    destruct sx, sy; cbn [fst snd]; lia.
  - rewrite Z.min_r by lia. replace (ey - ey) with 0 by lia.
    assert (P : 2 <= 2 ^ (ex - ey))
      by (change 2 with (2 ^ 1) at 1; apply Z.pow_le_mono_r; lia).
    assert (Q : 2 * Z.pos mx <= Z.pos mx * 2 ^ (ex - ey)) by nia.
    set (Mx := Z.pos mx * 2 ^ (ex - ey)) in *.
    destruct sx, sy; cbn [fst snd]; lia.
Qed.

Lemma binary_normalize_positive (D ez : Z) :
  -1074 <= ez ->
  (SFltb (S754_zero false) (binary_normalize prec emax D ez false) = true
   <-> 0 < D).
Proof.
  intros He. unfold binary_normalize.
  destruct D as [|p|p].
  - cbn. split; [discriminate | lia].
  - pose proof (binary_round_nonzero false p ez He) as H.
    destruct (binary_round prec emax false p ez) as [s|s| |s m e];
      cbn in H; try contradiction; subst s; cbn; split; auto; lia.
  - pose proof (binary_round_nonzero true p ez He) as H.
    destruct (binary_round prec emax true p ez) as [s|s| |s m e];
      cbn in H; try contradiction; subst s; cbn; split; try discriminate; lia.
Qed.

Lemma SFsub_positive (x y : spec_float) :
  valid_binary x = true -> valid_binary y = true -> not_nan x -> not_nan y ->
  SFltb (S754_zero false) (SFsub prec emax x y) = SFltb y x.
Proof.
  intros Vx Vy Nx Ny.
  destruct x as [sx|sx| |sx mx ex]; try contradiction;
  destruct y as [sy|sy| |sy my ey]; try contradiction;
    try (destruct sx, sy; reflexivity); try (destruct sx; reflexivity);
    try (destruct sy; reflexivity).
  cbn [valid_binary SpecFloat.valid_binary] in Vx, Vy.
  destruct (canonical_bounds _ _ Vx) as (Ex & _).
  destruct (canonical_bounds _ _ Vy) as (Ey & _).
  unfold SFsub.
  rewrite !shl_align_fst by lia.
  pose proof (aligned_diff_sign sx sy mx my ex ey Vx Vy) as S.
  pose proof (binary_normalize_positive
                (cond_Zopp sx (Z.pos mx * 2 ^ (ex - Z.min ex ey))
                 - cond_Zopp sy (Z.pos my * 2 ^ (ey - Z.min ex ey)))
                (Z.min ex ey) ltac:(lia)) as B.
  pose proof (SFltb_lex (S754_finite sy my ey) (S754_finite sx mx ex) I I) as L.
  destruct (SFltb (S754_zero false) _), (SFltb (S754_finite sy my ey) _);
    try reflexivity; exfalso; intuition congruence.
Qed.

(** *** The comparator [b - a] agrees with [a < b] *)
Lemma is_nan_false_iff (x : float) :
  PrimFloat.is_nan x = false <-> not_nan (Prim2SF x).
Proof.
  unfold PrimFloat.is_nan. rewrite FloatAxioms.eqb_spec. unfold SFeqb, SFcompare.
  destruct (Prim2SF x) as [s|s| |s m e]; try destruct s; cbn;
    rewrite ?Z.compare_refl, ?Pos.compare_cont_refl; cbn; intuition congruence.
Qed.

Lemma sub_positive (a b : float) :
  PrimFloat.is_nan a = false -> PrimFloat.is_nan b = false ->
  PrimFloat.ltb 0 (b - a) = PrimFloat.ltb a b.
Proof.
  intros Na Nb. rewrite !FloatAxioms.ltb_spec, FloatAxioms.sub_spec.
  change (Prim2SF 0) with (S754_zero false).
  apply SFsub_positive; try apply FloatAxioms.Prim2SF_valid;
    apply is_nan_false_iff; assumption.
Qed.

Lemma ltb_asym (a b : float) : PrimFloat.ltb a b = true -> PrimFloat.ltb b a = false.
Proof. rewrite !FloatAxioms.ltb_spec. apply SFltb_asym. Qed.

Lemma ltb_not_trans (a b c : float) :
  PrimFloat.is_nan b = false ->
  PrimFloat.ltb a b = false -> PrimFloat.ltb b c = false -> PrimFloat.ltb a c = false.
Proof.
  rewrite !FloatAxioms.ltb_spec. intros N. apply SFltb_not_trans.
  apply is_nan_false_iff. exact N.
Qed.

Lemma SFeqb_lex (x y : spec_float) :
  not_nan x -> not_nan y -> (SFeqb x y = true <-> sf_key x = sf_key y).
Proof.
  unfold SFeqb, SFcompare, sf_key.
  destruct x as [s|s| |s m e], y as [t|t| |t n f]; intros Hx Hy;
    try contradiction; try destruct s; try destruct t;
    try (split; [discriminate | intros H; discriminate H]);
    try (split; reflexivity).
  all: change (Pos.compare_cont Eq m n) with (Pos.compare m n);
    destruct (Z.compare_spec e f); destruct (Pos.compare_spec m n); cbn;
    split; intros E; try discriminate E; try reflexivity;
    try (injection E; lia); try (subst; reflexivity).
Qed.

Lemma lex_eq (a b : Z * (Z * Z)) : a = b <-> ~ lex_lt a b /\ ~ lex_lt b a.
Proof.
  destruct a as [a1 [a2 a3]], b as [b1 [b2 b3]]. unfold lex_lt. cbn [fst snd].
  split.
  - intros E. injection E as -> -> ->. lia.
  - intros [H1 H2]. assert (a1 = b1) by lia. assert (a2 = b2) by lia.
    assert (a3 = b3) by lia. congruence.
Qed.

Lemma eqb_ltb (a b : float) :
  PrimFloat.is_nan a = false -> PrimFloat.is_nan b = false ->
  PrimFloat.eqb a b = (negb (PrimFloat.ltb a b) && negb (PrimFloat.ltb b a))%bool.
Proof.
  intros Na Nb. apply is_nan_false_iff in Na, Nb.
  rewrite FloatAxioms.eqb_spec, !FloatAxioms.ltb_spec.
  pose proof (SFeqb_lex _ _ Na Nb) as E.
  pose proof (SFltb_lex _ _ Na Nb) as L1.
  pose proof (SFltb_lex _ _ Nb Na) as L2.
  rewrite lex_eq in E.
  destruct (SFeqb _ _), (SFltb (Prim2SF a) _), (SFltb (Prim2SF b) _); cbn;
    try reflexivity; exfalso; intuition congruence.
Qed.

(** Two numbers with different bit patterns are different values. *)
Lemma float_neq (x y : float) : PrimFloat.Leibniz.eqb x y = false -> x <> y.
Proof.
  intros H E. apply FloatAxioms.Leibniz.eqb_spec in E. congruence.
Qed.

(** ** The bonus strategy *)

Section BonusFacts.
Variable NumberToString : float -> string.
Variable StringToNumber : string -> float.

Let bonus := calculateBonusByProfit NumberToString StringToNumber.
Let base (p : value) : float :=
  Math_max [0%float; Number NumberToString StringToNumber (nullish p (VNum 0))].

(** C1 (as the code has it). For a seller whose [profit] property reads [p],
    with [base] the profit coerced to a number and clamped below at 0: the
    bonus is 15% of [base] at index 0; 10% at index 1 and at index 2, also
    when that index is the last one; 0 at the last index [total - 1] when it
    is none of 0, 1, 2; 5% at every other index. A negative profit gives
    bonus 0 at every index, and no bonus is ever below zero. *)
Theorem calculateBonusByProfit_table (index total : Z) (seller p : value) :
  get seller "profit" = Ok p ->
  (index = 0 -> bonus index total seller = Ok (VNum (base p * 0.15)%float)) /\
  (index = 1 \/ index = 2 ->
     bonus index total seller = Ok (VNum (base p * 0.10)%float)) /\
  (index <> 0 -> index <> 1 -> index <> 2 -> index = total - 1 ->
     bonus index total seller = Ok (VNum 0)) /\
  (index <> 0 -> index <> 1 -> index <> 2 -> index <> total - 1 ->
     bonus index total seller = Ok (VNum (base p * 0.05)%float)) /\
  (forall x, p = VNum x -> PrimFloat.ltb x 0 = true ->
     base p = 0%float /\ bonus index total seller = Ok (VNum 0)) /\
  (forall r, bonus index total seller = Ok (VNum r) ->
     PrimFloat.ltb r 0 = false).
Proof.
  intros Hp. unfold bonus, calculateBonusByProfit. rewrite Hp. cbn [bind].
  fold (base p).
  refine (conj _ (conj _ (conj _ (conj _ (conj _ _))))).
  - intros ->. reflexivity.
  - intros [-> | ->]; reflexivity.
  - intros H0 H1 H2 Hl.
    apply Z.eqb_neq in H0, H1, H2. apply Z.eqb_eq in Hl.
    rewrite H0, H1, H2, Hl. reflexivity.
  - intros H0 H1 H2 Hl.
    apply Z.eqb_neq in H0, H1, H2, Hl.
    rewrite H0, H1, H2, Hl. reflexivity.
  - intros x -> H. unfold base. cbn [nullish Number]. rewrite Math_max_zero.
    destruct (negative_not_positive x H) as [-> ->].
    split; [reflexivity|].
    destruct (Z.eqb index 0); [reflexivity|].
    destruct (Z.eqb index 1 || Z.eqb index 2)%bool; [reflexivity|].
    destruct (Z.eqb index (total - 1)); reflexivity.
  - intros r Hr.
    assert (S : sign_false (Prim2SF r)).
    { destruct (Z.eqb index 0);
        [|destruct (Z.eqb index 1 || Z.eqb index 2)%bool;
          [|destruct (Z.eqb index (total - 1))]];
        injection Hr as <-;
        try (apply mul_sign_false; [apply Math_max_zero_sign|reflexivity]).
      reflexivity. }
    apply ltb_zero_sign. left. exact S.
Qed.

End BonusFacts.

Lemma calculateBonusByProfit_table_witness :
  get seller_with_profit_30 "profit" = Ok (VNum 30) /\
  run_calculateBonusByProfit 1 2 seller_with_profit_30
  = Ok (VNum (Math_max [0%float; 30%float] * 0.10)%float).
Proof.
  split; [reflexivity|].
  apply (calculateBonusByProfit_table integer_NumberToString
           integer_StringToNumber 1 2 seller_with_profit_30 (VNum 30)
           eq_refl).
  left. reflexivity.
Defined.

(** C1 (as stated) fails: the seller at index 1 of 2 is the last one, and the
    bonus is 10% of the profit, not 0. *)
Lemma calculateBonusByProfit_last_of_two :
  1 = 2 - 1 /\
  run_calculateBonusByProfit 1 2 seller_with_profit_30 = Ok (VNum 3) /\
  run_calculateBonusByProfit 1 2 seller_with_profit_30 <> Ok (VNum 0).
Proof.
  split; [reflexivity|]. split; [reflexivity|].
  intros H.
  apply (f_equal (fun r => match r with Ok (VNum x) => x | _ => 0%float end)) in H.
  revert H. apply float_neq. reflexivity.
Qed.

(** ** Exceptions: when iteration goes through *)


Lemma mapM_length {A B : Type} (f : A -> result B) (l : list A) (bs : list B) :
  mapM f l = Ok bs -> length bs = length l.
Proof.
  revert bs. induction l as [|a l IH]; cbn; intros bs H.
  - injection H as <-. reflexivity.
  - destruct (f a) as [b|]; cbn in H; [|discriminate].
    destruct (mapM f l) as [bs'|]; cbn in H; [|discriminate].
    injection H as <-. cbn. f_equal. apply IH. reflexivity.
Qed.



Lemma bind_Ok {A B : Type} (r : result A) (k : A -> result B) (b : B) :
  bind r k = Ok b -> exists a, r = Ok a /\ k a = Ok b.
Proof. destruct r as [a|e]; cbn; [eauto | discriminate]. Qed.


Lemma foldM_invariant {A S : Type} (Inv : S -> Prop) (step : S -> A -> result S)
    (l : list A) (s s' : S) :
  (forall s a s', step s a = Ok s' -> Inv s -> Inv s') ->
  foldM step l s = Ok s' -> Inv s -> Inv s'.
Proof.
  intros Hstep. revert s. induction l as [|a l IH]; cbn; intros s H Hs.
  - injection H as <-. exact Hs.
  - destruct (step s a) as [s1|] eqn:E; cbn in H; [|discriminate].
    eapply IH; [exact H | eapply Hstep; eassumption].
Qed.

(** ** Input validation *)

Lemma get_non_nullish (o : value) (k : string) :
  non_nullish o = true -> exists v, get o k = Ok v.
Proof. destruct o; cbn; intros H; try discriminate; eauto. Qed.

Lemma truthy_non_nullish (v : value) : truthy v = true -> non_nullish v = true.
Proof. destruct v; cbn; intros H; try discriminate; reflexivity. Qed.

Lemma check_data_Throw (data : value) :
  invalid_input data <->
  check_data data = Throw (JsError "Некорректные входные данные").
Proof.
  unfold invalid_input, check_data, property.
  destruct (truthy data) eqn:T; cbn [negb].
  2:{ split; [reflexivity | intros _; left; reflexivity]. }
  pose proof (truthy_non_nullish data T) as N.
  destruct (get_non_nullish data "sellers" N) as [ss ->].
  destruct (get_non_nullish data "products" N) as [ps ->].
  destruct (get_non_nullish data "purchase_records" N) as [rs ->].
  cbn [bind].
  destruct ss as [| | | | |[|s ss]|], ps as [| | | | |[|p ps]|],
           rs as [| | | | |[|r rs]|]; cbn;
    try (split; [reflexivity | intros _; auto]).
  split; [|intros H; discriminate H].
  intros [H|[H|[H|H]]]; discriminate H.
Qed.

Lemma check_data_Ok (data : value) :
  ~ invalid_input data ->
  exists sellers products purchase_records,
    check_data data = Ok (sellers, products, purchase_records) /\
    property data "sellers" = VArr sellers /\
    property data "products" = VArr products /\
    property data "purchase_records" = VArr purchase_records.
Proof.
  intros H. unfold invalid_input in H. unfold check_data, property in *.
  destruct (truthy data) eqn:T; [|exfalso; apply H; left; reflexivity].
  cbn [negb].
  pose proof (truthy_non_nullish data T) as N.
  destruct (get_non_nullish data "sellers" N) as [ss Es].
  destruct (get_non_nullish data "products" N) as [ps Ep].
  destruct (get_non_nullish data "purchase_records" N) as [rs Er].
  rewrite Es, Ep, Er in *. cbn [bind].
  destruct ss as [| | | | |[|s ss]|], ps as [| | | | |[|p ps]|],
           rs as [| | | | |[|r rs]|]; cbn in H |- *;
    try (exfalso; apply H; auto; fail).
  eauto 10.
Qed.



Section EngineFacts.
Variable NumberToString : float -> string.
Variable StringToNumber : string -> float.








End EngineFacts.

Section ErrorFacts.
Variable NumberToString : float -> string.
Variable StringToNumber : string -> float.




End ErrorFacts.

Lemma scenario_data_valid : ~ invalid_input scenario_data.
Proof. intros [H|[H|[H|H]]]; discriminate H. Qed.




(** ** Numeric coercions *)

(** C2 fails on the code. [Number(product.purchase_price)] has no default:
    for a product without [purchase_price] the cost is NaN, and so are the
    accumulated profit, the reported profit and the bonus, on an input that
    passes validation. *)
Theorem analyzeSalesData_profit_NaN :
  ~ invalid_input data_without_price /\
  exists e,
    run_analyzeSalesData data_without_price reference_options = Ok [e] /\
    PrimFloat.is_nan (entry_profit e) = true /\
    PrimFloat.is_nan (bonus e) = true /\
    entry_revenue e = 100%float.
Proof.
  split; [intros [H|[H|[H|H]]]; discriminate H|].
  eexists. split; [vm_compute; reflexivity|].
  split; [|split]; reflexivity.
Qed.

(** ** The two indexes *)

Section IndexFacts.
Variable NumberToString : float -> string.
Variable StringToNumber : string -> float.



Lemma new_stat_id (seller : value) (s : SellerStat) :
  new_stat NumberToString seller = Ok s ->
  stat_id s = property seller "id" /\
  revenue s = 0%float /\ profit s = 0%float /\ sales_count s = 0%float /\
  products_sold s = [].
Proof.
  unfold new_stat, property.
  destruct (get seller "id") as [a|]; cbn; [|discriminate].
  destruct (get seller "first_name") as [b|]; cbn; [|discriminate].
  destruct (get seller "last_name") as [c|]; cbn; [|discriminate].
  intros H. injection H as <-. cbn. auto.
Qed.





Lemma fold_records_length (f : revenue_fn) (sellerIndex : gmap string nat)
    (productIndex : gmap string value) (records : list value)
    (stats stats' : list SellerStat) :
  foldM (process_record NumberToString StringToNumber f sellerIndex productIndex)
        records stats = Ok stats' ->
  length stats' = length stats.
Proof.
  intros H.
  eapply (foldM_invariant (fun s => length s = length stats));
    [|exact H|reflexivity].
  intros s a s' E Hs. unfold process_record in E.
  destruct (get a "seller_id") as [k|]; cbn [bind] in E; [|discriminate].
  destruct (_ !! ToString NumberToString k) as [i|];
    [|injection E as <-; exact Hs].
  destruct (s !! i) as [x|]; [|injection E as <-; exact Hs].
  destruct (get a "total_amount") as [t|]; cbn [bind] in E; [|discriminate].
  destruct (get a "items") as [its|]; cbn [bind] in E; [|discriminate].
  destruct its; try discriminate E.
  apply bind_Ok in E as (x' & _ & E).
  injection E as <-. rewrite length_insert. exact Hs.
Qed.

End IndexFacts.

(** ** Lookups that miss *)

Section SkipFacts.
Variable NumberToString : float -> string.
Variable StringToNumber : string -> float.
Variable calculateRevenue : revenue_fn.

Let to_number := Number NumberToString StringToNumber.
Let item_step := process_item NumberToString StringToNumber calculateRevenue.
Let record_step := process_record NumberToString StringToNumber calculateRevenue.

(** A line item writes only [profit] and [products_sold]. *)
Lemma process_item_frame (productIndex : gmap string value)
    (seller seller' : SellerStat) (item : value) :
  item_step productIndex seller item = Ok seller' ->
  stat_id seller' = stat_id seller /\ stat_name seller' = stat_name seller /\
  revenue seller' = revenue seller /\ sales_count seller' = sales_count seller.
Proof.
  unfold item_step, process_item.
  destruct (get item "sku") as [k|]; cbn [bind]; [|discriminate].
  destruct (productIndex !! _) as [product|];
    [|intros H; injection H as <-; auto].
  destruct (truthy product); cbn [negb];
    [|intros H; injection H as <-; auto].
  destruct (get item "quantity") as [q|]; cbn [bind]; [|discriminate].
  destruct (get product "purchase_price") as [pp|]; cbn [bind]; [|discriminate].
  destruct (calculateRevenue item product) as [r|]; cbn [bind]; [|discriminate].
  intros H. injection H as <-. cbn. auto.
Qed.

Lemma process_items_frame (productIndex : gmap string value)
    (items : list value) (seller seller' : SellerStat) :
  foldM (item_step productIndex) items seller = Ok seller' ->
  stat_id seller' = stat_id seller /\ stat_name seller' = stat_name seller /\
  revenue seller' = revenue seller /\ sales_count seller' = sales_count seller.
Proof.
  intros H.
  apply (foldM_invariant
           (fun s => stat_id s = stat_id seller /\ stat_name s = stat_name seller /\
                     revenue s = revenue seller /\
                     sales_count s = sales_count seller)
           (item_step productIndex) items seller seller'); auto.
  intros s a s' E (H1 & H2 & H3 & H4).
  apply process_item_frame in E as (E1 & E2 & E3 & E4).
  repeat split; congruence.
Qed.




End SkipFacts.

Section LeniencyFacts.
Variable NumberToString : float -> string.
Variable StringToNumber : string -> float.
Variable calculateRevenue : revenue_fn.

Let to_number := Number NumberToString StringToNumber.
Let item_step := process_item NumberToString StringToNumber calculateRevenue.
Let record_step := process_record NumberToString StringToNumber calculateRevenue.


End LeniencyFacts.


(** ** The stable sort *)

Local Open Scope list_scope.

Section SortFacts.
Context {A : Type} (cmp : A -> A -> float).

Lemma insert_sorted_split (x : A) (l : list A) :
  exists l1 l2,
    insert_sorted cmp x l = l1 ++ x :: l2 /\ l = l1 ++ l2 /\
    Forall (fun y => after cmp x y = true) l1 /\
    (forall y, head l2 = Some y -> after cmp x y = false).
Proof.
  induction l as [|y l (l1 & l2 & E & El & F & H)]; cbn [insert_sorted].
  - exists [], []. repeat split; [constructor | intros y Hy; discriminate Hy].
  - destruct (after cmp x y) eqn:Ey.
    + exists (y :: l1), l2.
      split; [rewrite E; reflexivity|]. split; [rewrite El; reflexivity|].
      split; [constructor; assumption | exact H].
    + exists [], (y :: l). repeat split; [constructor|].
      intros y' Hy. injection Hy as <-. exact Ey.
Qed.

Lemma insert_sorted_Permutation (x : A) (l : list A) :
  Permutation (insert_sorted cmp x l) (x :: l).
Proof.
  destruct (insert_sorted_split x l) as (l1 & l2 & -> & -> & _).
  symmetry. apply Permutation_middle.
Qed.

Lemma js_sort_Permutation (l : list A) : Permutation (js_sort cmp l) l.
Proof.
  induction l as [|x l IH]; cbn; [constructor|].
  etransitivity; [apply insert_sorted_Permutation|]. constructor. exact IH.
Qed.

Lemma js_sort_length (l : list A) : length (js_sort cmp l) = length l.
Proof. apply Permutation_length, js_sort_Permutation. Qed.

(** The comparator is consistent on the values satisfying [dom]. *)
Variable dom : A -> Prop.
Hypothesis after_asym :
  forall a b, dom a -> dom b -> after cmp a b = true -> after cmp b a = false.
Hypothesis not_after_trans :
  forall a b c, dom a -> dom b -> dom c ->
    after cmp a b = false -> after cmp b c = false -> after cmp a c = false.

Lemma js_sort_dom (l : list A) : Forall dom l -> Forall dom (js_sort cmp l).
Proof.
  intros H. eapply Permutation_Forall; [symmetry; apply js_sort_Permutation|].
  exact H.
Qed.

Lemma insert_sorted_StronglySorted (x : A) (l : list A) :
  dom x -> Forall dom l ->
  StronglySorted (fun a b => after cmp a b = false) l ->
  StronglySorted (fun a b => after cmp a b = false) (insert_sorted cmp x l).
Proof.
  intros Dx Dl S. induction S as [|y l S IH Hy]; cbn [insert_sorted].
  - repeat constructor.
  - inversion Dl as [|? ? Dy Dl']; subst.
    destruct (after cmp x y) eqn:Ey.
    + constructor; [apply IH, Dl'|].
      eapply Permutation_Forall; [symmetry; apply insert_sorted_Permutation|].
      constructor; [apply after_asym; assumption | exact Hy].
    + constructor; [constructor; assumption|].
      constructor; [exact Ey|].
      rewrite List.Forall_forall in Hy, Dl' |- *. intros z Hz.
      apply (not_after_trans x y z); auto.
Qed.

Lemma js_sort_StronglySorted (l : list A) :
  Forall dom l ->
  StronglySorted (fun a b => after cmp a b = false) (js_sort cmp l).
Proof.
  induction 1 as [|x l Dx Dl IH]; cbn; [constructor|].
  apply insert_sorted_StronglySorted; [exact Dx | apply js_sort_dom, Dl | exact IH].
Qed.

Lemma js_sort_stable (q : A) (l : list A) :
  dom q -> Forall dom l ->
  filter (fun y => tie cmp q y = true) (js_sort cmp l)
  = filter (fun y => tie cmp q y = true) l.
Proof.
  intros Dq. induction 1 as [|x l Dx Dl IH]; cbn [js_sort foldr]; [reflexivity|].
  fold (js_sort cmp l).
  destruct (insert_sorted_split x (js_sort cmp l)) as (l1 & l2 & -> & E & F & _).
  rewrite filter_cons, <- IH, E, !filter_app, filter_cons.
  destruct (decide (tie cmp q x = true)) as [T|T]; [|reflexivity].
  assert (N : filter (fun y => tie cmp q y = true) l1 = []).
  { assert (D1 : Forall dom l1).
    { pose proof (js_sort_dom l Dl) as D. rewrite E in D.
      apply Forall_app in D. tauto. }
    clear E. induction l1 as [|z l1 IH1]; [reflexivity|].
    inversion F; subst. inversion D1; subst.
    rewrite filter_cons. destruct (decide (tie cmp q z = true)) as [Tz|Tz]; [|auto].
    exfalso. unfold tie in T, Tz.
    apply andb_true_iff in T as [T1 T2], Tz as [Tz1 Tz2].
    apply negb_true_iff in T1, T2, Tz1, Tz2.
    assert (X : after cmp x z = false)
      by (apply (not_after_trans x q z); assumption).
    congruence. }
  rewrite N. reflexivity.
Qed.

End SortFacts.

(** ** The shape of a successful call *)

Lemma assign_bonuses_inv (g : bonus_fn) (total index : Z)
    (stats : list SellerStat)
    (ranked : list (SellerStat * value * list TopProduct)) :
  assign_bonuses g total index stats = Ok ranked ->
  length ranked = length stats /\
  map (fun r => fst (fst r)) ranked = stats /\
  forall i s, stats !! i = Some s ->
    exists b, g (index + Z.of_nat i) total (stat_value s) = Ok b /\
              ranked !! i = Some (s, b, top_products_of s).
Proof.
  revert index ranked. induction stats as [|s stats IH]; cbn; intros index ranked H.
  - injection H as <-. repeat split. intros i s H. discriminate H.
  - apply bind_Ok in H as (b & Eb & H). apply bind_Ok in H as (tl & Et & H).
    injection H as <-. destruct (IH _ _ Et) as (L & M & N). cbn.
    split; [congruence|]. split; [congruence|].
    intros [|i] s' Hi; cbn in Hi.
    + injection Hi as <-. exists b. rewrite Z.add_0_r. split; [exact Eb | reflexivity].
    + destruct (N i s' Hi) as (b' & E' & R'). exists b'.
      split; [|exact R'].
      replace (index + Z.of_nat (S i)) with (index + 1 + Z.of_nat i) by lia.
      exact E'.
Qed.

Section ReportFacts.
Variable NumberToString : float -> string.
Variable StringToNumber : string -> float.

(** The stages a call has gone through when it returns a report. *)
Lemma analyzeSalesData_Ok_inv (data : value) (options : options_value)
    (report : list ReportEntry) :
  analyzeSalesData NumberToString StringToNumber data options = Ok report ->
  exists sellers products purchase_records f g stats0 entries stats ranked,
    check_data data = Ok (sellers, products, purchase_records) /\
    options = OptObject (FFunction f) (FFunction g) /\
    mapM (new_stat NumberToString) sellers = Ok stats0 /\
    mapM product_entry products = Ok entries /\
    foldM (process_record NumberToString StringToNumber f
             (index_sellers NumberToString 0 stats0 ∅)
             (index_products NumberToString entries))
          purchase_records stats0 = Ok stats /\
    assign_bonuses g (Z.of_nat (length sellers)) 0 (js_sort by_profit stats)
    = Ok ranked /\
    report = map (report_entry NumberToString StringToNumber) ranked /\
    length stats0 = length sellers /\ length stats = length sellers.
Proof.
  unfold analyzeSalesData. intros H.
  apply bind_Ok in H as ([[ss ps] rs] & Ed & H).
  apply bind_Ok in H as ([f g] & Eo & H).
  apply bind_Ok in H as (stats & Ec & H).
  apply bind_Ok in H as (ranked & Er & H). injection H as <-.
  unfold collect in Ec.
  apply bind_Ok in Ec as (stats0 & E0 & Ec).
  apply bind_Ok in Ec as (entries & E1 & Ec).
  assert (L0 : length stats0 = length ss) by (eapply mapM_length; eassumption).
  assert (L : length stats = length stats0)
    by (eapply fold_records_length; exact Ec).
  rewrite js_sort_length, L, L0 in Er.
  exists ss, ps, rs, f, g, stats0, entries, stats, ranked.
  repeat split; try assumption; try congruence.
  unfold check_options in Eo.
  destruct options as [| |[| |f'] [| |g']]; try discriminate Eo.
  injection Eo as -> ->. reflexivity.
Qed.

End ReportFacts.

(** ** What the fold does at each position *)

Section FoldFacts.
Variable NumberToString : float -> string.
Variable StringToNumber : string -> float.
Variable calculateRevenue : revenue_fn.
Variable sellerIndex : gmap string nat.
Variable productIndex : gmap string value.

Let record_step :=
  process_record NumberToString StringToNumber calculateRevenue
                 sellerIndex productIndex.
Let resolve_ := resolve NumberToString sellerIndex.
Let amount := record_amount NumberToString StringToNumber.

Lemma process_record_at (stats stats' : list SellerStat) (record : value) :
  record_step stats record = Ok stats' ->
  forall j s, stats !! j = Some s ->
    exists s',
      stats' !! j = Some s' /\
      stat_id s' = stat_id s /\ stat_name s' = stat_name s /\
      (resolve_ record = Some j ->
         revenue s' = (revenue s + amount record)%float /\
         sales_count s' = (sales_count s + 1)%float) /\
      (resolve_ record <> Some j -> s' = s).
Proof.
  intros H j s Hj.
  unfold record_step, process_record in H.
  unfold resolve_, resolve, record_key, amount, record_amount, property.
  destruct (get record "seller_id") as [k|]; cbn [bind] in H; [|discriminate].
  destruct (sellerIndex !! ToString NumberToString k) as [i|] eqn:L.
  2:{ injection H as <-. exists s. repeat split; auto; congruence. }
  destruct (stats !! i) as [x|] eqn:Hi.
  2:{ injection H as <-. exists s. repeat split; auto; congruence. }
  destruct (get record "total_amount") as [t|]; cbn [bind] in H; [|discriminate].
  destruct (get record "items") as [its|]; cbn [bind] in H; [|discriminate].
  destruct its as [| | | | |its|]; try discriminate H.
  destruct (foldM _ its _) as [x'|] eqn:F; cbn [bind] in H; [|discriminate].
  injection H as <-.
  apply process_items_frame in F as (F1 & F2 & F3 & F4). cbn in F1, F2, F3, F4.
  destruct (decide (i = j)) as [->|N].
  - exists x'. rewrite list_lookup_insert_eq by (eapply lookup_lt_Some; eauto).
    assert (x = s) by congruence. subst x.
    repeat split; auto; congruence.
  - exists s. rewrite list_lookup_insert_ne by exact N.
    repeat split; auto; congruence.
Qed.

Lemma fold_records_at (records : list value) (stats stats' : list SellerStat) :
  foldM record_step records stats = Ok stats' ->
  forall j s, stats !! j = Some s ->
    exists s',
      stats' !! j = Some s' /\
      stat_id s' = stat_id s /\ stat_name s' = stat_name s /\
      revenue s'
      = fold_left PrimFloat.add
          (map amount (filter (fun r => resolve_ r = Some j) records))
          (revenue s) /\
      sales_count s'
      = fold_left (fun c _ => (c + 1)%float)
          (filter (fun r => resolve_ r = Some j) records) (sales_count s) /\
      (Forall (fun r => resolve_ r <> Some j) records -> s' = s).
Proof.
  revert stats. induction records as [|r records IH]; cbn [foldM]; intros stats H j s Hj.
  - injection H as <-. exists s. repeat split; auto.
  - apply bind_Ok in H as (stats1 & E1 & H).
    destruct (process_record_at _ _ _ E1 j s Hj) as (s1 & H1 & I1 & N1 & Y & N).
    destruct (IH _ H j s1 H1) as (s' & H' & I' & N' & R' & C' & U').
    exists s'. split; [exact H'|]. split; [congruence|]. split; [congruence|].
    rewrite filter_cons.
    destruct (decide (resolve_ r = Some j)) as [D|D].
    + destruct (Y D) as [Yr Yc]. cbn [map fold_left]. rewrite <- Yr, <- Yc.
      repeat split; auto.
      intros F. inversion F; subst. contradiction.
    + rewrite (N D) in *. repeat split; auto.
      intros F. inversion F; subst. auto.
Qed.

End FoldFacts.

(** ** Grouping a list by position *)

Section Grouping.
Context {A : Type} (g : A -> option nat).




End Grouping.

(** ** Revenue accounting *)

Section RevenueFacts.
Variable NumberToString : float -> string.
Variable StringToNumber : string -> float.



End RevenueFacts.


(** ** One entry per seller *)


Section EntryFacts.
Variable NumberToString : float -> string.
Variable StringToNumber : string -> float.

Lemma fold_records_ids (f : revenue_fn) (sellerIndex : gmap string nat)
    (productIndex : gmap string value) (records : list value)
    (stats stats' : list SellerStat) :
  foldM (process_record NumberToString StringToNumber f sellerIndex productIndex)
        records stats = Ok stats' ->
  map stat_id stats' = map stat_id stats.
Proof.
  intros H. apply list_eq. intros j. rewrite !list_lookup_fmap.
  destruct (stats !! j) as [s|] eqn:Hj.
  - destruct (fold_records_at _ _ _ _ _ _ _ _ H j s Hj) as (s' & -> & E & _).
    cbn. rewrite E. reflexivity.
  - apply lookup_ge_None in Hj.
    rewrite (proj2 (lookup_ge_None stats' j)); [reflexivity|].
    rewrite (fold_records_length _ _ _ _ _ _ _ _ H). exact Hj.
Qed.

End EntryFacts.

Section OneEntryPerSeller.
Variable NumberToString : float -> string.
Variable StringToNumber : string -> float.


End OneEntryPerSeller.


(** ** Determinism *)


Section Determinism.
Variable NumberToString : float -> string.
Variable StringToNumber : string -> float.





End Determinism.



(** ** The ranking *)

(** A comparator of the form [(a, b) => key(b) - key(a)] orders the values
    whose key is not NaN by descending key. *)
Section Descending.
Context {A : Type} (key : A -> float).

Lemma after_descending (a b : A) :
  number_key key a -> number_key key b ->
  after (descending key) a b = PrimFloat.ltb (key a) (key b).
Proof. intros Ha Hb. unfold after, descending. apply sub_positive; assumption. Qed.

Lemma descending_asym (a b : A) :
  number_key key a -> number_key key b ->
  after (descending key) a b = true -> after (descending key) b a = false.
Proof.
  intros Ha Hb. rewrite !after_descending by assumption. apply ltb_asym.
Qed.

Lemma descending_not_trans (a b c : A) :
  number_key key a -> number_key key b -> number_key key c ->
  after (descending key) a b = false -> after (descending key) b c = false ->
  after (descending key) a c = false.
Proof.
  intros Ha Hb Hc. rewrite !after_descending by assumption.
  apply ltb_not_trans. exact Hb.
Qed.

Lemma tie_descending (q s : A) :
  number_key key q -> number_key key s ->
  tie (descending key) q s = PrimFloat.eqb (key q) (key s).
Proof.
  intros Hq Hs. unfold tie. rewrite !after_descending by assumption.
  symmetry. apply eqb_ltb; assumption.
Qed.

End Descending.

Lemma after_by_profit (a b : SellerStat) :
  number_profit a -> number_profit b ->
  after by_profit a b = PrimFloat.ltb (profit a) (profit b).
Proof. exact (after_descending profit a b). Qed.

Lemma by_profit_asym (a b : SellerStat) :
  number_profit a -> number_profit b ->
  after by_profit a b = true -> after by_profit b a = false.
Proof. exact (descending_asym profit a b). Qed.

Lemma by_profit_not_trans (a b c : SellerStat) :
  number_profit a -> number_profit b -> number_profit c ->
  after by_profit a b = false -> after by_profit b c = false ->
  after by_profit a c = false.
Proof. exact (descending_not_trans profit a b c). Qed.

Lemma tie_by_profit (q s : SellerStat) :
  number_profit q -> number_profit s ->
  tie by_profit q s = PrimFloat.eqb (profit q) (profit s).
Proof. exact (tie_descending profit q s). Qed.





Lemma StronglySorted_lookup {A : Type} (R : A -> A -> Prop) (l : list A)
    (i j : nat) (a b : A) :
  StronglySorted R l -> (i < j)%nat -> l !! i = Some a -> l !! j = Some b -> R a b.
Proof.
  intros S. revert i j. induction S as [|x l S IH F]; intros i j Hij Hi Hj.
  - discriminate Hi.
  - destruct j as [|j]; [lia|]. cbn in Hj. destruct i as [|i]; cbn in Hi.
    + injection Hi as <-. rewrite List.Forall_forall in F. apply F.
      apply list_elem_of_In. eapply list_elem_of_lookup_2. exact Hj.
    + apply (IH i j); [lia | assumption | assumption].
Qed.

Lemma filter_ext_Forall {A : Type} (P Q : A -> Prop)
    `{!forall x, Decision (P x)} `{!forall x, Decision (Q x)} (l : list A) :
  Forall (fun x => P x <-> Q x) l -> filter P l = filter Q l.
Proof.
  induction 1 as [|x l Hx _ IH]; [reflexivity|].
  rewrite !filter_cons, IH.
  destruct (decide (P x)), (decide (Q x)); tauto.
Qed.

Section Ranking.
Variable NumberToString : float -> string.
Variable StringToNumber : string -> float.

(** C6 (as the code has it). The entries of a returned report follow the
    seller records sorted by [by_profit]; the records before the sort are in
    the order of [data.sellers]. When no accumulated profit is NaN, no
    entry is followed by an entry of greater accumulated profit, and the
    sellers of equal accumulated profit are in the order they have in
    [data.sellers]. *)
Theorem report_sorted_by_profit (data : value) (options : options_value)
    (report : list ReportEntry) :
  analyzeSalesData NumberToString StringToNumber data options = Ok report ->
  exists sellers products purchase_records f g stats ranked,
    check_data data = Ok (sellers, products, purchase_records) /\
    options = OptObject (FFunction f) (FFunction g) /\
    collect NumberToString StringToNumber f sellers products purchase_records
    = Ok stats /\
    map stat_id stats = map (fun s => property s "id") sellers /\
    report = map (report_entry NumberToString StringToNumber) ranked /\
    let sorted := map (fun r => fst (fst r)) ranked in
    Permutation sorted stats /\
    (Forall number_profit stats ->
     (forall i j a b,
        (i < j)%nat -> sorted !! i = Some a -> sorted !! j = Some b ->
        PrimFloat.ltb (profit a) (profit b) = false) /\
     (forall q, number_profit q ->
        filter (fun s => PrimFloat.eqb (profit q) (profit s) = true) sorted
        = filter (fun s => PrimFloat.eqb (profit q) (profit s) = true) stats)).
Proof.
  intros H.
  destruct (analyzeSalesData_Ok_inv _ _ _ _ _ H)
    as (ss & ps & rs & f & g & stats0 & entries & stats & ranked
        & Ed & -> & E0 & E1 & Ef & Er & -> & L0 & L).
  destruct (assign_bonuses_inv _ _ _ _ _ Er) as (Lr & Mr & Nr).
  exists ss, ps, rs, f, g, stats, ranked.
  split; [exact Ed|]. split; [reflexivity|].
  split; [unfold collect; rewrite E0; cbn [bind]; rewrite E1; exact Ef|].
  split.
  { rewrite (fold_records_ids _ _ _ _ _ _ _ _ Ef).
    clear -E0. revert stats0 E0. induction ss as [|x xs IH]; cbn; intros stats0 E0.
    - injection E0 as <-. reflexivity.
    - apply bind_Ok in E0 as (s & Es & E0).
      apply bind_Ok in E0 as (tl & Et & E0). injection E0 as <-.
      cbn. f_equal; [apply new_stat_id in Es; tauto | apply IH, Et]. }
  split; [reflexivity|]. cbn zeta. rewrite Mr.
  split; [apply js_sort_Permutation|].
  intros Hn. split.
  - intros i j a b Hij Hi Hj.
    pose proof (js_sort_StronglySorted by_profit number_profit
                  by_profit_asym by_profit_not_trans stats Hn) as S.
    pose proof (js_sort_dom by_profit number_profit stats Hn) as D.
    rewrite List.Forall_forall in D.
    rewrite <- after_by_profit.
    + exact (StronglySorted_lookup _ _ i j a b S Hij Hi Hj).
    + apply D, list_elem_of_In. eapply list_elem_of_lookup_2. exact Hi.
    + apply D, list_elem_of_In. eapply list_elem_of_lookup_2. exact Hj.
  - intros q Hq.
    pose proof (js_sort_dom by_profit number_profit stats Hn) as D.
    rewrite (filter_ext_Forall _ (fun s => tie by_profit q s = true)
               (js_sort by_profit stats)).
    + rewrite (filter_ext_Forall _ (fun s => tie by_profit q s = true) stats).
      * apply (js_sort_stable by_profit number_profit by_profit_not_trans
                 q stats Hq Hn).
      * eapply Forall_impl; [exact Hn|]. intros s Hs. cbn.
        rewrite tie_by_profit by assumption. reflexivity.
    + eapply Forall_impl; [exact D|]. intros s Hs. cbn.
      rewrite tie_by_profit by assumption. reflexivity.
Qed.

End Ranking.

Lemma Ok_inj {A : Type} (a b : A) : Ok a = Ok b -> a = b.
Proof.
  intros H.
  exact (f_equal (fun r => match r with Ok x => x | Throw _ => a end) H).
Qed.

Lemma report_sorted_by_profit_witness :
  exists report ranked,
    run_analyzeSalesData ranking_data reference_options = Ok report /\
    report = map (report_entry integer_NumberToString integer_StringToNumber)
                 ranked /\
    forall i j a b,
      (i < j)%nat ->
      map (fun r => fst (fst r)) ranked !! i = Some a ->
      map (fun r => fst (fst r)) ranked !! j = Some b ->
      PrimFloat.ltb (profit a) (profit b) = false.
Proof.
  destruct (run_analyzeSalesData ranking_data reference_options)
    as [report|err] eqn:E; [|vm_compute in E; discriminate E].
  destruct (report_sorted_by_profit integer_NumberToString
              integer_StringToNumber ranking_data reference_options report E)
    as (ss & ps & rs & f & g & stats & ranked & Ed & Eo & Ec & _ & Er & _ & Hs).
  exists report, ranked. split; [reflexivity|]. split; [exact Er|].
  apply Hs.
  vm_compute in Ed. apply Ok_inj in Ed.
  pose proof (f_equal (fun t => fst (fst t)) Ed) as E1.
  pose proof (f_equal (fun t => snd (fst t)) Ed) as E2.
  pose proof (f_equal snd Ed) as E3.
  cbn [fst snd] in E1, E2, E3. subst ss ps rs.
  apply (f_equal (fun o => match o with
                           | OptObject (FFunction x) _ => x
                           | _ => f
                           end)) in Eo.
  cbn in Eo. subst f.
  vm_compute in Ec. apply Ok_inj in Ec. subst stats.
  repeat constructor.
Defined.

(** C6 (as stated) fails when an accumulated profit is NaN: the comparator
    [b.profit - a.profit] is then NaN against every other seller, nothing is
    moved, and the seller with profit 30 is listed before the seller with
    profit 60. *)
Lemma report_not_sorted_with_NaN_profit :
  exists e1 e2 e3,
    run_analyzeSalesData data_with_NaN_profit reference_options
    = Ok [e1; e2; e3] /\
    seller_id e1 = "s1" /\ entry_profit e1 = 30%float /\
    PrimFloat.is_nan (entry_profit e2) = true /\
    seller_id e3 = "s3" /\ entry_profit e3 = 60%float /\
    PrimFloat.ltb (entry_profit e1) (entry_profit e3) = true.
Proof.
  do 3 eexists. split; [vm_compute; reflexivity|].
  repeat split; reflexivity.
Qed.

(** ** The products sold and the top ten *)

Section DictionaryFacts.
Context {A : Type}.
Implicit Types (l : list (string * A)) (k : string) (v : A).







End DictionaryFacts.




Section TopProductsFacts.
Variable NumberToString : float -> string.
Variable StringToNumber : string -> float.





End TopProductsFacts.

Section TopProducts.
Variable NumberToString : float -> string.
Variable StringToNumber : string -> float.


End TopProducts.



(** * Further properties

    Properties of the three functions beside the ones above. *)

(** ** Rounding of representable values *)

Lemma digits2_pos_unique (x : positive) (d : Z) :
  2 ^ (d - 1) <= Z.pos x < 2 ^ d -> Z.pos (digits2_pos x) = d.
Proof.
  intros [Hlo Hhi]. pose proof (digits2_pos_bounds x) as [Blo Bhi].
  set (d' := Z.pos (digits2_pos x)) in *.
  assert (D : 0 < d).
  { destruct (Z.le_gt_cases d 0) as [N|N]; [|exact N]. exfalso.
    destruct (Z.eq_dec d 0) as [->|Z]; [cbn in Hhi; lia|].
    rewrite Z.pow_neg_r in Hhi by lia. lia. }
  destruct (Z.lt_total d' d) as [L|[E|L]]; [|exact E|]; exfalso.
  - assert (2 ^ d' <= 2 ^ (d - 1)) by (apply Z.pow_le_mono_r; lia). lia.
  - assert (2 ^ d <= 2 ^ (d' - 1)) by (apply Z.pow_le_mono_r; lia). lia.
Qed.

Lemma digits2_pos_shift (M m : positive) (k : Z) :
  0 <= k -> Z.pos M = Z.pos m * 2 ^ k ->
  Z.pos (digits2_pos M) = Z.pos (digits2_pos m) + k.
Proof.
  intros Hk E. apply digits2_pos_unique.
  pose proof (digits2_pos_bounds m) as [Blo Bhi].
  set (d := Z.pos (digits2_pos m)) in *.
  assert (P : 0 < 2 ^ k) by (apply Z.pow_pos_nonneg; lia).
  replace (d + k - 1) with ((d - 1) + k) by lia.
  rewrite !Z.pow_add_r by lia. rewrite E. nia.
Qed.

Lemma shr_1_double (m : Z) :
  0 <= m ->
  shr_1 (Build_shr_record (2 * m) false false) = Build_shr_record m false false.
Proof. destruct m as [|p|p]; intros H; try lia; reflexivity. Qed.

Lemma iter_shr_1_exact (p : positive) (m : Z) :
  0 <= m ->
  SpecFloat.iter_pos shr_1 p (Build_shr_record (m * 2 ^ Z.pos p) false false)
  = Build_shr_record m false false.
Proof.
  revert m. induction p as [p IH|p IH|]; intros m H; cbn [SpecFloat.iter_pos].
  - assert (P : 0 < 2 ^ Z.pos p) by (apply Z.pow_pos_nonneg; lia).
    rewrite pow2_xI.
    replace (m * (2 * 2 ^ Z.pos p * 2 ^ Z.pos p))
      with (2 * (m * 2 ^ Z.pos p * 2 ^ Z.pos p)) by ring.
    rewrite shr_1_double by nia. rewrite IH by nia. apply IH. exact H.
  - assert (P : 0 < 2 ^ Z.pos p) by (apply Z.pow_pos_nonneg; lia).
    rewrite pow2_xO. rewrite Z.mul_assoc. rewrite IH by nia. apply IH. exact H.
  - replace (m * 2 ^ 1) with (2 * m) by lia. apply shr_1_double. exact H.
Qed.

Lemma canonical_fexp (m : positive) (e : Z) :
  bounded prec emax m e = true ->
  fexp prec emax (Z.pos (digits2_pos m) + e) = e /\ e <= emax - prec.
Proof.
  unfold bounded, canonical_mantissa. intros H.
  apply andb_true_iff in H as [H1 H2].
  apply Z.eqb_eq in H1. apply Z.leb_le in H2. split; assumption.
Qed.

(** A value that is representable is left as it is by rounding. *)
Lemma binary_round_aux_exact (s : bool) (M m : positive) (E e : Z) :
  bounded prec emax m e = true ->
  E <= e -> Z.pos M = Z.pos m * 2 ^ (e - E) ->
  binary_round_aux prec emax s (Z.pos M) E loc_Exact = S754_finite s m e.
Proof.
  intros B HE HM. destruct (canonical_fexp m e B) as [C L].
  assert (S1 : shr_fexp prec emax (Z.pos M) E loc_Exact
               = (Build_shr_record (Z.pos m) false false, e)).
  { unfold shr_fexp, Zdigits2.
    rewrite (digits2_pos_shift M m (e - E)) by (lia || exact HM).
    replace (Z.pos (digits2_pos m) + (e - E) + E)
      with (Z.pos (digits2_pos m) + e) by lia.
    rewrite C. cbn [shr_record_of_loc]. unfold shr.
    destruct (e - E) as [|p|p] eqn:D; try lia.
    - rewrite HM. f_equal; [f_equal|]; lia.
    - rewrite HM, iter_shr_1_exact by lia. f_equal. lia. }
  assert (S2 : shr_fexp prec emax (Z.pos m) e loc_Exact
               = (Build_shr_record (Z.pos m) false false, e)).
  { unfold shr_fexp, Zdigits2. rewrite C, Z.sub_diag. reflexivity. }
  unfold binary_round_aux. rewrite S1. cbn [shr_m loc_of_shr_record round_nearest_even].
  rewrite S2. cbn [shr_m]. apply Z.leb_le in L. rewrite L. reflexivity.
Qed.

Lemma binary_round_exact (s : bool) (M m : positive) (E e : Z) :
  bounded prec emax m e = true ->
  Z.pos M * 2 ^ (E - Z.min E e) = Z.pos m * 2 ^ (e - Z.min E e) ->
  binary_round prec emax s M E = S754_finite s m e.
Proof.
  intros B H. destruct (canonical_fexp m e B) as [C L].
  unfold binary_round.
  destruct (Z.le_gt_cases E e) as [Le|Gt].
  - rewrite Z.min_l in H by lia. rewrite Z.sub_diag, Z.mul_1_r in H.
    rewrite (digits2_pos_shift M m (e - E)) by (lia || exact H).
    replace (Z.pos (digits2_pos m) + (e - E) + E)
      with (Z.pos (digits2_pos m) + e) by lia.
    rewrite C. unfold shl_align.
    destruct (e - E) as [|p|p] eqn:D; try lia;
      apply binary_round_aux_exact; try assumption; rewrite ?D; lia.
  - rewrite Z.min_r in H by lia. rewrite Z.sub_diag, Z.mul_1_r in H.
    assert (DM : Z.pos (digits2_pos m) = Z.pos (digits2_pos M) + (E - e))
      by (apply digits2_pos_shift; lia).
    replace (Z.pos (digits2_pos M) + E) with (Z.pos (digits2_pos m) + e) by lia.
    rewrite C. unfold shl_align.
    destruct (e - E) as [|p|p] eqn:D; try lia.
    apply binary_round_aux_exact; try assumption; [lia|].
    rewrite iter_xO, Z.sub_diag, Z.mul_1_r.
    replace (Z.pos p) with (E - e) by lia. lia.
Qed.

Lemma mul_one (x : float) : (x * 1)%float = x.
Proof.
  apply FloatAxioms.Prim2SF_inj. rewrite FloatAxioms.mul_spec.
  pose proof (FloatAxioms.Prim2SF_valid x) as V.
  change (Prim2SF 1) with (S754_finite false 4503599627370496 (-52)).
  unfold SF64mul, SFmul.
  destruct (Prim2SF x) as [s|s| |s m e]; try (destruct s; reflexivity);
    try reflexivity.
  rewrite xorb_false_r. cbn [valid_binary] in V.
  apply binary_round_aux_exact; [exact V|lia|].
  replace (e - (e + -52)) with 52 by lia. reflexivity.
Qed.

(** ** Counting in binary64 *)

Lemma pow2_cancel (a b k : Z) : 0 <= k -> a * 2 ^ k = b * 2 ^ k -> a = b.
Proof.
  intros Hk H. assert (P : 0 < 2 ^ k) by (apply Z.pow_pos_nonneg; lia). nia.
Qed.

(** The binary64 form of a whole number up to 2^53. *)
Lemma int_canonical (k : positive) :
  Z.pos k <= 2 ^ 53 ->
  exists m e, bounded prec emax m e = true /\ -52 <= e /\
              Z.pos m * 2 ^ (e + 52) = Z.pos k * 2 ^ 52.
Proof.
  intros H. destruct (Z.eq_dec (Z.pos k) (2 ^ 53)) as [E|N].
  - exists 4503599627370496%positive, 1. rewrite E.
    split; [reflexivity|]. split; [lia|reflexivity].
  - pose proof (digits2_pos_bounds k) as [Blo Bhi].
    set (d := Z.pos (digits2_pos k)) in *.
    assert (D1 : 1 <= d) by (unfold d; lia).
    assert (D : d <= 53).
    { destruct (Z.le_gt_cases d 53) as [L|G]; [exact L|exfalso].
      assert (2 ^ 53 <= 2 ^ (d - 1)) by (apply Z.pow_le_mono_r; lia). lia. }
    assert (P : 0 < 2 ^ (53 - d)) by (apply Z.pow_pos_nonneg; lia).
    assert (M : Z.pos (Z.to_pos (Z.pos k * 2 ^ (53 - d)))
                = Z.pos k * 2 ^ (53 - d)) by (apply Z2Pos.id; nia).
    exists (Z.to_pos (Z.pos k * 2 ^ (53 - d))), (d - 53).
    split; [|split; [lia|]].
    + unfold bounded, canonical_mantissa.
      rewrite (digits2_pos_shift _ k (53 - d)) by (lia || exact M).
      fold d. unfold fexp, SpecFloat.emin, prec, emax.
      apply andb_true_iff. split; [apply Z.eqb_eq|apply Z.leb_le]; lia.
    + rewrite M, <- Z.mul_assoc, <- Z.pow_add_r by lia.
      f_equal. f_equal. lia.
Qed.

Lemma binary_normalize_int (P m : positive) (k e : Z) :
  bounded prec emax m e = true -> -52 <= e ->
  Z.pos m * 2 ^ (e + 52) = k * 2 ^ 52 ->
  Z.pos P = k * 2 ^ 52 ->
  binary_round prec emax false P (-52) = S754_finite false m e.
Proof.
  intros B He Hm HP. apply binary_round_exact; [exact B|].
  rewrite Z.min_l by lia. rewrite Z.sub_diag, Z.mul_1_r.
  replace (e - -52) with (e + 52) by lia. lia.
Qed.

Lemma Prim2SF_number_of_nat (n : nat) :
  Z.of_nat n < 2 ^ 63 ->
  Prim2SF (number_of_nat n) = binary_normalize prec emax (Z.of_nat n) 0 false.
Proof.
  intros H. unfold number_of_nat.
  rewrite FloatAxioms.of_uint63_spec, Uint63.of_Z_spec.
  rewrite Z.mod_small; [reflexivity|].
  split; [lia|]. exact H.
Qed.

Lemma binary_normalize_nat (k : positive) :
  Z.pos k <= 2 ^ 53 ->
  exists m e, bounded prec emax m e = true /\ -52 <= e /\
              Z.pos m * 2 ^ (e + 52) = Z.pos k * 2 ^ 52 /\
              binary_normalize prec emax (Z.pos k) 0 false = S754_finite false m e.
Proof.
  intros H. destruct (int_canonical k H) as (m & e & B & He & Hm).
  exists m, e. repeat (split; [assumption|]).
  cbn [binary_normalize]. apply binary_round_exact; [exact B|].
  destruct (Z.le_gt_cases 0 e) as [L|G].
  - rewrite Z.min_l by lia. rewrite Z.sub_diag, Z.mul_1_r, Z.sub_0_r.
    apply (pow2_cancel _ _ 52); [lia|].
    rewrite <- Hm, <- Z.mul_assoc, <- Z.pow_add_r by lia. reflexivity.
  - rewrite Z.min_r by lia. rewrite Z.sub_diag, Z.mul_1_r.
    apply (pow2_cancel _ _ (e + 52)); [lia|].
    rewrite Hm, <- Z.mul_assoc, <- Z.pow_add_r by lia.
    f_equal. f_equal. lia.
Qed.

Lemma number_of_nat_succ (n : nat) :
  Z.of_nat n < 2 ^ 53 -> (number_of_nat n + 1)%float = number_of_nat (S n).
Proof.
  intros H. apply FloatAxioms.Prim2SF_inj.
  rewrite FloatAxioms.add_spec, !Prim2SF_number_of_nat by lia.
  change (Prim2SF 1) with (S754_finite false 4503599627370496 (-52)).
  destruct (binary_normalize_nat (Pos.of_succ_nat n)) as (m' & e' & B' & He' & Hm' & N').
  { rewrite Zpos_P_of_succ_nat. lia. }
  rewrite Zpos_P_of_succ_nat, <- Nat2Z.inj_succ in N'. rewrite N'.
  rewrite Zpos_P_of_succ_nat in Hm'.
  destruct n as [|n].
  - cbn [Z.of_nat binary_normalize]. cbn in Hm'. cbn in N'. rewrite <- N'. reflexivity.
  - destruct (binary_normalize_nat (Pos.of_succ_nat n)) as (m & e & B & He & Hm & N).
    { rewrite Zpos_P_of_succ_nat. lia. }
    rewrite Zpos_P_of_succ_nat, <- Nat2Z.inj_succ in N. rewrite N.
    rewrite Zpos_P_of_succ_nat, <- Nat2Z.inj_succ in Hm.
    unfold SF64add, SFadd.
    rewrite Z.min_r by lia. rewrite !shl_align_fst by lia.
    cbn [cond_Zopp]. replace (e - -52) with (e + 52) by lia.
    rewrite Hm. replace (-52 - -52) with 0 by lia.
    assert (P : Z.of_nat (S n) * 2 ^ 52 + 4503599627370496 * 2 ^ 0
                = Z.succ (Z.of_nat (S n)) * 2 ^ 52)
      by (change (2 ^ 0) with 1; change (2 ^ 52) with 4503599627370496; lia).
    rewrite P.
    destruct (Z.succ (Z.of_nat (S n)) * 2 ^ 52) as [|Q|Q] eqn:EQ; try lia.
    cbn [binary_normalize].
    apply (binary_normalize_int Q m' (Z.succ (Z.of_nat (S n))) e'); auto.
    congruence.
Qed.

Lemma count_from (A : Type) (l : list A) (a : nat) :
  Z.of_nat (a + length l) <= 2 ^ 53 ->
  fold_left (fun c _ => (c + 1)%float) l (number_of_nat a)
  = number_of_nat (a + length l).
Proof.
  revert a. induction l as [|x l IH]; intros a H; cbn [fold_left length].
  - rewrite Nat.add_0_r. reflexivity.
  - cbn [length] in H. rewrite number_of_nat_succ by lia.
    rewrite IH by lia. f_equal. lia.
Qed.


(** ** [+x.toFixed(2)] on whole numbers, and its sign *)

Lemma digits2_pos_le (x : positive) (k : Z) :
  Z.pos x < 2 ^ k -> Z.pos (digits2_pos x) <= k.
Proof.
  intros H. pose proof (digits2_pos_bounds x) as [Blo _].
  set (d := Z.pos (digits2_pos x)) in *.
  destruct (Z.le_gt_cases d k) as [L|G]; [exact L|exfalso].
  assert (2 ^ k <= 2 ^ (d - 1)) by (apply Z.pow_le_mono_r; lia). lia.
Qed.

Lemma fexp_mono (a b : Z) : a <= b -> fexp prec emax a <= fexp prec emax b.
Proof. unfold fexp. lia. Qed.

(** The quotient by 100 of a hundred times a representable value is that
    value. *)
Lemma SFdiv_100_exact (s : bool) (n m : positive) (e X : Z) :
  bounded prec emax m e = true ->
  Z.pos n = 100 * X ->
  X * 2 ^ (Z.max 0 (- e)) = Z.pos m * 2 ^ (Z.max 0 e) ->
  SFdiv prec emax (S754_finite s n 0) (S754_finite false 100 0)
  = S754_finite s m e.
Proof.
  intros B Hn HX. destruct (canonical_fexp m e B) as [C L].
  assert (X0 : 0 < X) by lia.
  destruct X as [|x|x]; try lia.
  (* the digits of X *)
  assert (DX : Z.pos (digits2_pos x) = Z.pos (digits2_pos m) + e).
  { destruct (Z.le_gt_cases 0 e) as [P|N].
    - rewrite Z.max_l, Z.max_r in HX by lia. rewrite Z.pow_0_r, Z.mul_1_r in HX.
      apply digits2_pos_shift; [exact P|exact HX].
    - rewrite Z.max_r, Z.max_l in HX by lia. rewrite Z.pow_0_r, Z.mul_1_r in HX.
      symmetry in HX. apply digits2_pos_shift in HX; lia. }
  assert (D1 : Z.pos (digits2_pos n) <= Z.pos (digits2_pos x) + 7).
  { apply digits2_pos_le. pose proof (digits2_pos_bounds x) as [_ Bhi].
    rewrite Z.pow_add_r by lia. change (2 ^ 7) with 128. lia. }
  unfold SFdiv, SFdiv_core_binary, Zdigits2.
  change (Z.pos (digits2_pos 100)) with 7.
  set (e' := Z.min (fexp prec emax (Z.pos (digits2_pos n) + 0 - (7 + 0))) (0 - 0)).
  assert (E1 : e' <= 0) by (unfold e'; lia).
  assert (E2 : e' <= e).
  { unfold e'. etransitivity; [apply Z.le_min_l|].
    rewrite <- C. apply fexp_mono. lia. }
  assert (Q : match 0 - 0 - e' with
              | 0 => Z.pos n
              | Z.pos _ => Z.shiftl (Z.pos n) (0 - 0 - e')
              | Z.neg _ => 0
              end = Z.pos x * 2 ^ (- e') * 100).
  { destruct (0 - 0 - e') as [|p|p] eqn:S; try lia.
    - replace (- e') with 0 by lia. lia.
    - rewrite Z.shiftl_mul_pow2 by lia. rewrite <- S.
      replace (0 - 0 - e') with (- e') by lia. lia. }
  rewrite Q.
  assert (P : 0 < Z.pos x * 2 ^ (- e'))
    by (apply Z.mul_pos_pos; [lia|apply Z.pow_pos_nonneg; lia]).
  destruct (Z.div_eucl (Z.pos x * 2 ^ (- e') * 100) 100) as [q r] eqn:DE.
  assert (Hq : q = Z.pos x * 2 ^ (- e')).
  { transitivity ((Z.pos x * 2 ^ (- e') * 100) / 100).
    - unfold Z.div. rewrite DE. reflexivity.
    - apply Z.div_mul. lia. }
  assert (Hr : r = 0).
  { transitivity ((Z.pos x * 2 ^ (- e') * 100) mod 100).
    - unfold Z.modulo. rewrite DE. reflexivity.
    - apply Z.mod_mul. lia. }
  subst q r. rewrite xorb_false_r.
  change (new_location 100 0) with loc_Exact.
  destruct (Z.pos x * 2 ^ (- e')) as [|M|M] eqn:EM; try lia.
  apply binary_round_aux_exact; [exact B|exact E2|].
  rewrite <- EM.
  destruct (Z.le_gt_cases 0 e) as [Pe|Ne].
  - rewrite Z.max_l, Z.max_r in HX by lia. rewrite Z.pow_0_r, Z.mul_1_r in HX.
    rewrite HX, <- Z.mul_assoc, <- Z.pow_add_r by lia. reflexivity.
  - rewrite Z.max_r, Z.max_l in HX by lia. rewrite Z.pow_0_r, Z.mul_1_r in HX.
    rewrite <- HX, <- Z.mul_assoc, <- Z.pow_add_r by lia.
    replace (- e + (e - e')) with (- e') by lia. reflexivity.
Qed.

Lemma scaled_round_whole (m : positive) (e : Z) :
  (Z.leb 0 e || Z.eqb (Z.pos m mod 2 ^ (- e)) 0)%bool = true ->
  exists X, scaled_round m e = 100 * X /\
            X * 2 ^ (Z.max 0 (- e)) = Z.pos m * 2 ^ (Z.max 0 e).
Proof.
  intros H. unfold scaled_round.
  destruct (Z.leb_spec 0 e) as [P|N].
  - exists (Z.pos m * 2 ^ e). rewrite Z.max_l, Z.max_r by lia.
    split; [ring|]. rewrite Z.pow_0_r. ring.
  - cbn [orb] in H. apply Z.eqb_eq in H.
    assert (P2 : 0 < 2 ^ (- e)) by (apply Z.pow_pos_nonneg; lia).
    apply Z.mod_divide in H; [|lia]. destruct H as [X H].
    exists X. rewrite Z.max_r, Z.max_l by lia. rewrite Z.pow_0_r, Z.mul_1_r.
    split; [|lia].
    rewrite H.
    replace (2 * (X * 2 ^ (- e) * 100) + 2 ^ (- e))
      with (2 ^ (-e) + (100 * X) * (2 * 2 ^ (- e))) by ring.
    rewrite Z.div_add by lia. rewrite Z.div_small; lia.
Qed.

(** Whole amounts are not changed by the rounding to two decimals;
    [-0] becomes [0]. *)
Lemma plus_toFixed2_whole (x : float) :
  is_whole x = true ->
  plus_toFixed2 x = x \/ (x = (-0)%float /\ plus_toFixed2 x = 0%float).
Proof.
  unfold is_whole, plus_toFixed2. intros H.
  pose proof (FloatAxioms.Prim2SF_valid x) as V.
  destruct (Prim2SF x) as [s|s| |s m e] eqn:Hx; try discriminate.
  - destruct s.
    + right. split; [|reflexivity].
      apply FloatAxioms.Prim2SF_inj. rewrite Hx. reflexivity.
    + left. apply FloatAxioms.Prim2SF_inj. rewrite Hx. reflexivity.
  - left. destruct (PrimFloat.leb 1e21 (abs x)); [reflexivity|].
    destruct (scaled_round_whole m e H) as (X & -> & HX).
    cbn [valid_binary] in V.
    assert (X0 : 0 < X).
    { assert (0 < Z.pos m * 2 ^ Z.max 0 e)
        by (apply Z.mul_pos_pos; [lia|apply Z.pow_pos_nonneg; lia]).
      assert (0 < 2 ^ Z.max 0 (- e)) by (apply Z.pow_pos_nonneg; lia). nia. }
    destruct (100 * X) as [|n|n] eqn:EN; try lia.
    rewrite (SFdiv_100_exact s n m e X V) by lia.
    rewrite <- Hx. apply FloatAxioms.SF2Prim_Prim2SF.
Qed.

Lemma binary_round_sign (m : positive) (e : Z) :
  sign_false (binary_round prec emax false m e).
Proof.
  unfold binary_round. destruct (shl_align m e _) as [mz ez].
  apply binary_round_aux_sign. reflexivity.
Qed.

Lemma SF2Prim_sign_false (x : spec_float) :
  sign_false x -> sign_false (Prim2SF (SF2Prim x)).
Proof.
  destruct x as [s|s| |s m e]; cbn [sign_false]; intros H; subst;
    try reflexivity; try exact I.
  cbn [SF2Prim]. rewrite FloatLemmas.Z_ldexp_spec.
  rewrite FloatAxioms.of_uint63_spec.
  pose proof (Uint63.to_Z_bounded (Uint63.of_Z (Z.pos m))) as Bd.
  destruct (Uint63.to_Z _) as [|p|p]; [reflexivity| |lia].
  cbn [binary_normalize].
  pose proof (binary_round_sign p 0) as S.
  destruct (binary_round prec emax false p 0) as [t|t| |t n f];
    cbn [sign_false] in S; subst; cbn [SFldexp sign_false]; try reflexivity.
  apply binary_round_sign.
Qed.

(** Rounding to two decimals does not make a number negative. *)
Lemma plus_toFixed2_sign (x : float) :
  sign_false (Prim2SF x) -> sign_false (Prim2SF (plus_toFixed2 x)).
Proof.
  unfold plus_toFixed2. intros H.
  destruct (Prim2SF x) as [s|s| |s m e] eqn:Hx.
  - reflexivity.
  - rewrite Hx. exact H.
  - exact I.
  - cbn [sign_false] in H. subst s.
    destruct (PrimFloat.leb 1e21 (abs x)); [rewrite Hx; reflexivity|].
    destruct (scaled_round m e); try reflexivity.
    apply SF2Prim_sign_false.
    unfold SFdiv. destruct (SFdiv_core_binary _ _ _ _ _ _) as [[mz ez] lz].
    apply binary_round_aux_sign. reflexivity.
Qed.

(** ** The discount factor [1 - discount / 100] *)

Lemma Zdigits2_le (m k : Z) : 0 <= k -> 0 <= m < 2 ^ k -> Zdigits2 m <= k.
Proof.
  intros Hk [H0 H]. destruct m as [|p|p]; cbn [Zdigits2]; try lia.
  apply digits2_pos_le. exact H.
Qed.

Lemma Zdigits2_pow (m k : Z) :
  0 <= k -> 0 <= m <= 2 ^ k -> Zdigits2 m = k + 1 -> m = 2 ^ k.
Proof.
  intros Hk [H0 H] D. destruct m as [|p|p]; cbn [Zdigits2] in D; try lia.
  pose proof (digits2_pos_bounds p) as [Blo _]. rewrite D in Blo.
  replace (k + 1 - 1) with k in Blo by lia. lia.
Qed.

Lemma shr_fexp_m (m e : Z) (l : location) :
  0 <= m ->
  shr_m (fst (shr_fexp prec emax m e l))
  = m / 2 ^ Z.max 0 (fexp prec emax (Zdigits2 m + e) - e) /\
  snd (shr_fexp prec emax m e l)
  = e + Z.max 0 (fexp prec emax (Zdigits2 m + e) - e).
Proof.
  intros H. unfold shr_fexp, shr.
  destruct (fexp prec emax (Zdigits2 m + e) - e) as [|p|p] eqn:E; cbn [fst snd].
  - rewrite shr_record_of_loc_m, Z.max_l by lia. rewrite Z.div_1_r. lia.
  - rewrite iter_shr_1_m by (rewrite shr_record_of_loc_m; exact H).
    rewrite shr_record_of_loc_m, Z.max_r by lia. split; reflexivity.
  - rewrite shr_record_of_loc_m, Z.max_l by lia. rewrite Z.div_1_r. lia.
Qed.

Lemma round_nearest_even_bounds (m : Z) (l : location) :
  m <= round_nearest_even m l <= m + 1.
Proof.
  unfold round_nearest_even. destruct l as [|[]]; try destruct (Z.even m); lia.
Qed.

(** Rounding a value below 1 gives at most 1. *)
Lemma binary_round_aux_le_one (q e' : Z) (l : location) :
  0 <= q < 2 ^ (- e') -> e' <= -53 ->
  SFltb (S754_finite false 4503599627370496 (-52))
        (binary_round_aux prec emax false q e' l) = false.
Proof.
  intros [Q0 Q] He. unfold binary_round_aux.
  destruct (shr_fexp_m q e' l Q0) as [M1 E1].
  destruct (shr_fexp prec emax q e' l) as [mrs1 e1]. cbn [fst snd] in M1, E1.
  set (n := Z.max 0 (fexp prec emax (Zdigits2 q + e') - e')) in *.
  assert (Dq : Zdigits2 q <= - e') by (apply Zdigits2_le; lia).
  assert (N0 : 0 <= n) by lia.
  assert (He1 : e1 <= -53).
  { subst e1 n. unfold fexp, SpecFloat.emin, prec, emax. lia. }
  assert (P : 0 < 2 ^ n) by (apply Z.pow_pos_nonneg; lia).
  assert (B1 : 0 <= shr_m mrs1 < 2 ^ (- e1)).
  { rewrite M1. split; [apply Z.div_pos; lia|].
    apply Z.div_lt_upper_bound; [lia|].
    rewrite <- Z.pow_add_r by lia. replace (n + - e1) with (- e') by lia.
    exact Q. }
  pose proof (round_nearest_even_bounds (shr_m mrs1) (loc_of_shr_record mrs1)) as R.
  set (m2 := round_nearest_even (shr_m mrs1) (loc_of_shr_record mrs1)) in *.
  assert (B2 : 0 <= m2 <= 2 ^ (- e1)) by lia.
  destruct (shr_fexp_m m2 e1 loc_Exact ltac:(lia)) as [M3 E3].
  destruct (shr_fexp prec emax m2 e1 loc_Exact) as [mrs3 e3].
  cbn [fst snd] in M3, E3.
  set (n2 := Z.max 0 (fexp prec emax (Zdigits2 m2 + e1) - e1)) in *.
  assert (D2 : Zdigits2 m2 <= - e1 + 1).
  { apply Zdigits2_le; [lia|]. split; [lia|].
    rewrite Z.pow_add_r by lia. change (2 ^ 1) with 2.
    assert (0 < 2 ^ (- e1)) by (apply Z.pow_pos_nonneg; lia). lia. }
  assert (He3 : e3 <= -52).
  { subst e3 n2. unfold fexp, SpecFloat.emin, prec, emax. lia. }
  destruct (shr_m mrs3) as [|m3|m3] eqn:S3; [reflexivity| |reflexivity].
  assert (L : Z.leb e3 (emax - prec) = true)
    by (apply Z.leb_le; unfold emax, prec; lia).
  rewrite L. unfold SFltb, SFcompare.
  destruct (Z.compare_spec (-52) e3) as [Heq|Hlt|Hgt]; [|lia|reflexivity].
  (* e3 = -52: the mantissa is 2^52 *)
  assert (Dm : Zdigits2 m2 = - e1 + 1).
  { subst e3 n2. unfold fexp, SpecFloat.emin, prec, emax in Heq. lia. }
  assert (Hm2 : m2 = 2 ^ (- e1)) by (apply Zdigits2_pow; lia).
  assert (Hn2 : n2 = -52 - e1) by lia.
  assert (Hm3 : Z.pos m3 = 2 ^ 52).
  { rewrite M3, Hm2, Hn2.
    replace (- e1) with (52 + (-52 - e1)) at 1 by lia.
    rewrite Z.pow_add_r by lia. apply Z.div_mul.
    apply Z.pow_nonzero; lia. }
  change (2 ^ 52) with (Z.pos 4503599627370496) in Hm3.
  injection Hm3 as ->. rewrite Pos.compare_cont_refl. reflexivity.
Qed.

Lemma binary_round_aux_negative (m e : Z) (l : location) :
  SFltb (S754_finite false 4503599627370496 (-52))
        (binary_round_aux prec emax true m e l) = false.
Proof.
  unfold binary_round_aux.
  destruct (shr_fexp prec emax m e l) as [mrs' e'].
  destruct (shr_fexp prec emax _ e' loc_Exact) as [mrs'' e''].
  destruct (shr_m mrs''); [reflexivity| |reflexivity].
  destruct (Z.leb e'' (emax - prec)); reflexivity.
Qed.

Lemma div_eucl_eq (a b : Z) : Z.div_eucl a b = (a / b, a mod b).
Proof. unfold Z.div, Z.modulo. destruct (Z.div_eucl a b). reflexivity. Qed.

(** The quotient of [m * 2^s] by [c] when [m < c * X]. *)
Lemma quotient_bound (m c s X : Z) :
  0 < m -> 0 < c -> 0 <= s -> 0 < X -> m < c * X ->
  0 <= m * 2 ^ s / c < 2 ^ s * X.
Proof.
  intros Hm Hc Hs HX H.
  assert (P : 0 < 2 ^ s) by (apply Z.pow_pos_nonneg; lia).
  split.
  - apply Z.div_pos; [|lia]. apply Z.mul_nonneg_nonneg; lia.
  - apply Z.div_lt_upper_bound; [lia|].
    replace (c * (2 ^ s * X)) with (c * X * 2 ^ s) by ring.
    apply Z.mul_lt_mono_pos_r; assumption.
Qed.

(** The quotient by 100 of a number that is not above 100 is not above 1. *)
Lemma SFdiv_100_le_one (d : spec_float) :
  valid_binary d = true ->
  SFltb (S754_finite false 7036874417766400 (-46)) d = false ->
  SFltb (S754_finite false 4503599627370496 (-52))
        (SFdiv prec emax d (S754_finite false 7036874417766400 (-46))) = false.
Proof.
  intros V H. destruct d as [s|s| |s m e]; try destruct s; try reflexivity;
    try discriminate H.
  - unfold SFdiv. destruct (SFdiv_core_binary _ _ _ _ _ _) as [[mz ez] lz].
    apply binary_round_aux_negative.
  - cbn [valid_binary] in V.
    destruct (canonical_fexp m e V) as [C L].
    destruct (canonical_bounds m e V) as (E0 & U & _).
    pose proof (digits2_pos_bounds m) as [Blo Bhi].
    set (d1 := Z.pos (digits2_pos m)) in *.
    assert (D1 : 1 <= d1) by (unfold d1; lia).
    assert (D53 : d1 + e <= 7 -> fexp prec emax (d1 + e - 7) <= -53)
      by (unfold fexp, SpecFloat.emin, prec, emax; lia).
    assert (CC : fexp prec emax (d1 + e) = e) by exact C.
    assert (De : e <= -46 -> d1 + e <= 7).
    { intros He. unfold fexp, SpecFloat.emin, prec, emax in CC. lia. }
    clear C Blo Bhi.
    (* the order of [d] and 100 *)
    assert (K : e < -46 \/ (e = -46 /\ Z.pos m <= 7036874417766400)).
    { unfold SFltb, SFcompare in H.
      destruct (Z.compare_spec (-46) e) as [Heq|Hlt|Hgt]; [|discriminate H|lia].
      right. split; [lia|].
      change (Pos.compare_cont Eq 7036874417766400 m)
        with (Pos.compare 7036874417766400 m) in H.
      destruct (Pos.compare_spec 7036874417766400 m) as [Hm|Hm|Hm];
        try discriminate H; [subst m; lia|].
      apply Pos2Z.pos_lt_pos in Hm. lia. }
    clear H.
    destruct (Z.eq_dec e (-46)) as [Ee|Ne].
    + destruct (Pos.eq_dec m 7036874417766400%positive) as [Em|Nm].
      * subst m e. vm_compute. reflexivity.
      * unfold SFdiv, SFdiv_core_binary, Zdigits2. fold d1.
        change (Z.pos (digits2_pos 7036874417766400)) with 53.
        replace (d1 + e - (53 + -46)) with (d1 + e - 7) by lia.
        specialize (D53 (De ltac:(lia))).
        set (f := fexp prec emax (d1 + e - 7)) in *.
        replace (Z.min f (e - -46)) with f by lia.
        destruct (e - -46 - f) as [|sp|sp] eqn:S; try lia.
        rewrite Z.shiftl_mul_pow2 by lia. rewrite div_eucl_eq. cbn [xorb].
        apply binary_round_aux_le_one; [|exact D53].
        replace (- f) with (Z.pos sp) by lia.
        assert (Z.pos m <> 7036874417766400) by congruence.
        pose proof (quotient_bound (Z.pos m) 7036874417766400 (Z.pos sp) 1
                      ltac:(lia) ltac:(lia) ltac:(lia) ltac:(lia) ltac:(lia))
          as QB.
        rewrite Z.mul_1_r in QB. exact QB.
    + assert (Lt : e < -46) by lia.
      unfold SFdiv, SFdiv_core_binary, Zdigits2. fold d1.
      change (Z.pos (digits2_pos 7036874417766400)) with 53.
      replace (d1 + e - (53 + -46)) with (d1 + e - 7) by lia.
      specialize (D53 (De ltac:(lia))).
      set (f := fexp prec emax (d1 + e - 7)) in *.
      assert (Hf : f <= e + 46).
      { subst f. unfold fexp, SpecFloat.emin, prec, emax.
        assert (d1 <= 53); [|lia].
        unfold fexp, SpecFloat.emin, prec, emax in CC. lia. }
      replace (Z.min f (e - -46)) with f by lia.
      destruct (e - -46 - f) as [|sp|sp] eqn:S; try lia.
      * (* no shift: the quotient of m by the mantissa of 100 is 0 *)
        rewrite div_eucl_eq. cbn [xorb].
        apply binary_round_aux_le_one; [|exact D53].
        split; [apply Z.div_pos; lia|].
        apply Z.div_lt_upper_bound; [lia|].
        assert (2 <= 2 ^ (- f)) by (apply (Z.pow_le_mono_r 2 1); lia).
        lia.
      * rewrite Z.shiftl_mul_pow2 by lia. rewrite div_eucl_eq. cbn [xorb].
        apply binary_round_aux_le_one; [|exact D53].
        replace (- f) with (Z.pos sp + (- (e + 46))) by lia.
        rewrite Z.pow_add_r by lia.
        assert (2 <= 2 ^ (- (e + 46)))
          by (apply (Z.pow_le_mono_r 2 1); lia).
        apply quotient_bound; lia.
Qed.

Lemma mul_not_negative (x y : float) :
  PrimFloat.ltb x 0 = false -> PrimFloat.ltb y 0 = false ->
  PrimFloat.ltb (x * y) 0 = false.
Proof.
  rewrite !FloatAxioms.ltb_spec, FloatAxioms.mul_spec.
  change (Prim2SF 0) with (S754_zero false). unfold SF64mul, SFmul.
  destruct (Prim2SF x) as [s|s| |s m e], (Prim2SF y) as [t|t| |t n f];
    try destruct s; try destruct t; cbn [xorb]; intros Hx Hy;
    try discriminate Hx; try discriminate Hy; try reflexivity.
  pose proof (binary_round_aux_sign false (Z.pos (m * n)) (e + f) loc_Exact
                eq_refl) as S.
  destruct (binary_round_aux _ _ _ _ _ _) as [u|u| |u k g];
    cbn [sign_false] in S; subst; reflexivity.
Qed.

(** [1 - d / 100] is not negative when [d] is not above 100. *)
Lemma discount_factor_not_negative (d : float) :
  PrimFloat.ltb 100 d = false -> PrimFloat.ltb (1 - d / 100) 0 = false.
Proof.
  intros H.
  assert (Q : PrimFloat.ltb 1 (d / 100) = false).
  { rewrite FloatAxioms.ltb_spec, FloatAxioms.div_spec.
    rewrite FloatAxioms.ltb_spec in H.
    change (Prim2SF 100) with (S754_finite false 7036874417766400 (-46)) in *.
    change (Prim2SF 1) with (S754_finite false 4503599627370496 (-52)).
    apply SFdiv_100_le_one; [apply FloatAxioms.Prim2SF_valid|exact H]. }
  set (q := (d / 100)%float) in *.
  destruct (PrimFloat.is_nan q) eqn:N.
  - rewrite FloatAxioms.ltb_spec, FloatAxioms.sub_spec.
    rewrite is_nan_Prim2SF in N.
    destruct (Prim2SF q); try discriminate N. reflexivity.
  - destruct (PrimFloat.ltb q 1) eqn:L.
    + apply ltb_asym. rewrite sub_positive by (exact N || reflexivity). exact L.
    + assert (E : PrimFloat.eqb 1 q = true)
        by (rewrite eqb_ltb by (exact N || reflexivity); rewrite Q, L; reflexivity).
      assert (q = 1%float) as ->; [|reflexivity].
      apply FloatAxioms.Prim2SF_inj.
      rewrite FloatAxioms.eqb_spec in E.
      change (Prim2SF 1) with (S754_finite false 4503599627370496 (-52)) in *.
      unfold SFeqb, SFcompare in E.
      destruct (Prim2SF q) as [s|s| |s m e]; try destruct s; try discriminate E.
      destruct (Z.compare_spec (-52) e) as [He|He|He]; try discriminate E.
      change (Pos.compare_cont Eq 4503599627370496 m)
        with (Pos.compare 4503599627370496 m) in E.
      destruct (Pos.compare_spec 4503599627370496 m) as [Hm|Hm|Hm];
        try discriminate E.
      subst. reflexivity.
Qed.

(** ** Monad lemmas *)

Lemma mapM_app {A B : Type} (f : A -> result B) (l1 l2 : list A)
    (b1 b2 : list B) :
  mapM f l1 = Ok b1 -> mapM f l2 = Ok b2 -> mapM f (l1 ++ l2) = Ok (b1 ++ b2).
Proof.
  revert b1. induction l1 as [|a l1 IH]; cbn [mapM app]; intros b1 H1 H2.
  - apply Ok_inj in H1. subst b1. exact H2.
  - apply bind_Ok in H1 as (b & Eb & H1).
    apply bind_Ok in H1 as (bs & Ebs & H1). apply Ok_inj in H1. subst b1.
    rewrite Eb. cbn [bind]. rewrite (IH bs Ebs H2). reflexivity.
Qed.

Lemma property_get (o : value) (k : string) (v : value) :
  get o k = Ok v -> property o k = v.
Proof. unfold property. intros ->. reflexivity. Qed.

Lemma get_Ok_non_nullish (o : value) (k : string) (v : value) :
  get o k = Ok v -> non_nullish o = true.
Proof. destruct o; cbn; intros H; try discriminate; reflexivity. Qed.

Lemma get_property (o : value) (k : string) :
  non_nullish o = true -> get o k = Ok (property o k).
Proof.
  intros H. destruct (get_non_nullish o k H) as [v E].
  rewrite (property_get _ _ _ E). exact E.
Qed.

(** ** The writes of a line item to [products_sold] *)

Lemma is_zero_or_nan_zero : is_zero_or_nan 0 = true.
Proof. reflexivity. Qed.











(** ** What a line item does *)

Section LineFacts.
Variable NumberToString : float -> string.
Variable StringToNumber : string -> float.
Variable calculateRevenue : revenue_fn.
Variable productIndex : gmap string value.

Let line_step (sold : list (string * float)) (l : value * value) :=
  sold_update (item_key NumberToString (fst l))
              (item_quantity NumberToString StringToNumber (fst l)) sold.
Let margin := line_profit NumberToString StringToNumber calculateRevenue.

(** What one line item does to the record of its seller. *)
Lemma process_item_effect (seller seller' : SellerStat) (item : value) :
  process_item NumberToString StringToNumber calculateRevenue productIndex
               seller item = Ok seller' ->
  non_nullish item = true /\
  match item_product NumberToString productIndex item with
  | None => seller' = seller
  | Some p =>
      exists m, margin (item, p) = Ok m /\
        profit seller' = (profit seller + m)%float /\
        products_sold seller' = line_step (products_sold seller) (item, p)
  end.
Proof.
  unfold process_item, item_product, item_key, margin, line_profit, line_step,
    line_cost, item_quantity, item_key. cbn [fst snd].
  intros H. apply bind_Ok in H as (k & Ek & H).
  split; [eapply get_Ok_non_nullish; exact Ek|].
  rewrite (property_get _ _ _ Ek).
  destruct (productIndex !! _) as [product|]; [|apply Ok_inj in H; auto].
  destruct (truthy product) eqn:T; cbn [negb] in H; [|apply Ok_inj in H; auto].
  apply bind_Ok in H as (q & Eq & H). apply bind_Ok in H as (pp & Epp & H).
  apply bind_Ok in H as (r & Er & H). apply Ok_inj in H. subst seller'.
  rewrite (property_get _ _ _ Eq), (property_get _ _ _ Epp), Er.
  cbn [bind profit products_sold]. eexists. split; [reflexivity|].
  split; reflexivity.
Qed.

Lemma process_items_effect (items : list value) (seller seller' : SellerStat) :
  foldM (process_item NumberToString StringToNumber calculateRevenue productIndex)
        items seller = Ok seller' ->
  Forall (fun item => non_nullish item = true) items /\
  exists margins,
    mapM margin (charged NumberToString productIndex items) = Ok margins /\
    profit seller' = fold_left PrimFloat.add margins (profit seller) /\
    products_sold seller'
    = fold_left line_step (charged NumberToString productIndex items)
                (products_sold seller).
Proof.
  revert seller. induction items as [|item items IH]; cbn [foldM]; intros seller H.
  - apply Ok_inj in H. subst seller'. split; [constructor|].
    exists []. repeat split; reflexivity.
  - apply bind_Ok in H as (s1 & E1 & H).
    apply process_item_effect in E1 as [N E1].
    destruct (IH _ H) as (F & ms & Hm & Hp & Hs).
    split; [constructor; assumption|].
    unfold charged. cbn [omap list_omap].
    fold (charged NumberToString productIndex items).
    destruct (item_product NumberToString productIndex item) as [p|].
    + destruct E1 as (m & Em & Ep & Es).
      exists (m :: ms). cbn [mapM fold_left]. rewrite Em, Hm. cbn [bind].
      rewrite <- Ep, <- Es. auto.
    + subst s1. exists ms. auto.
Qed.

End LineFacts.

(** ** The lines of the receipts of a seller *)

Section LinesOfReceipts.
Variable NumberToString : float -> string.
Variable StringToNumber : string -> float.
Variable calculateRevenue : revenue_fn.
Variable sellerIndex : gmap string nat.
Variable productIndex : gmap string value.

Let line_step (sold : list (string * float)) (l : value * value) :=
  sold_update (item_key NumberToString (fst l))
              (item_quantity NumberToString StringToNumber (fst l)) sold.
Let margin := line_profit NumberToString StringToNumber calculateRevenue.
Let record_step :=
  process_record NumberToString StringToNumber calculateRevenue
                 sellerIndex productIndex.
Let resolve_ := resolve NumberToString sellerIndex.

(** What a receipt does to [profit] and [products_sold]. *)
Lemma process_record_effect (stats stats' : list SellerStat) (record : value) :
  record_step stats record = Ok stats' ->
  forall j s, stats !! j = Some s ->
    exists s',
      stats' !! j = Some s' /\
      (resolve_ record = Some j ->
         exists margins,
           mapM margin (charged NumberToString productIndex (items_of record))
           = Ok margins /\
           profit s' = fold_left PrimFloat.add margins (profit s) /\
           products_sold s'
           = fold_left line_step
               (charged NumberToString productIndex (items_of record))
               (products_sold s)) /\
      (resolve_ record <> Some j -> s' = s).
Proof.
  intros H j s Hj.
  unfold record_step, process_record in H.
  unfold resolve_, resolve, record_key, items_of.
  apply bind_Ok in H as (k & Ek & H). rewrite Ek.
  destruct (sellerIndex !! ToString NumberToString k) as [i|] eqn:L.
  2:{ apply Ok_inj in H. subst stats'. exists s.
      split; [exact Hj|]. split; [discriminate|reflexivity]. }
  destruct (stats !! i) as [x|] eqn:Hi.
  2:{ apply Ok_inj in H. subst stats'. exists s.
      split; [exact Hj|]. split; [congruence|reflexivity]. }
  apply bind_Ok in H as (t & Et & H). apply bind_Ok in H as (its & Ei & H).
  destruct its as [| | | | |its|]; try discriminate H.
  apply bind_Ok in H as (x' & F & H). apply Ok_inj in H. subst stats'.
  rewrite (property_get _ _ _ Ei).
  apply process_items_effect in F as (_ & ms & Hm & Hp & Hs).
  cbn [profit products_sold] in Hp, Hs.
  destruct (decide (i = j)) as [->|N].
  - exists x'. rewrite list_lookup_insert_eq by (eapply lookup_lt_Some; eauto).
    assert (x = s) by congruence. subst x.
    split; [reflexivity|]. split; [|congruence].
    intros _. exists ms. auto.
  - exists s. rewrite list_lookup_insert_ne by exact N.
    split; [exact Hj|]. split; [congruence|reflexivity].
Qed.

Lemma fold_records_effect (records : list value) (stats stats' : list SellerStat) :
  foldM record_step records stats = Ok stats' ->
  forall j s, stats !! j = Some s ->
    exists s' margins,
      stats' !! j = Some s' /\
      mapM margin
        (charged_lines NumberToString productIndex
           (receipts_of NumberToString sellerIndex j records))
      = Ok margins /\
      profit s' = fold_left PrimFloat.add margins (profit s) /\
      products_sold s'
      = fold_left line_step
          (charged_lines NumberToString productIndex
             (receipts_of NumberToString sellerIndex j records))
          (products_sold s).
Proof.
  revert stats. induction records as [|r records IH]; cbn [foldM];
    intros stats H j s Hj.
  - apply Ok_inj in H. subst stats'. exists s, []. auto.
  - apply bind_Ok in H as (stats1 & E1 & H).
    destruct (process_record_effect _ _ _ E1 j s Hj) as (s1 & H1 & Y & N).
    destruct (IH _ H j s1 H1) as (s' & ms & H' & Hm & Hp & Hs).
    unfold receipts_of. rewrite filter_cons.
    fold (receipts_of NumberToString sellerIndex j records).
    destruct (decide (resolve NumberToString sellerIndex r = Some j)) as [D|D].
    + destruct (Y D) as (ms1 & Hm1 & Hp1 & Hs1).
      exists s', (ms1 ++ ms). split; [exact H'|].
      unfold charged_lines. cbn [flat_map].
      fold (charged_lines NumberToString productIndex
              (receipts_of NumberToString sellerIndex j records)).
      split; [apply mapM_app; assumption|].
      rewrite !fold_left_app, <- Hp1, <- Hs1. auto.
    + rewrite (N D) in *. exists s', ms. auto.
Qed.

End LinesOfReceipts.







(** ** The fold as a function of the input arrays *)

Section CollectFacts.
Variable NumberToString : float -> string.
Variable StringToNumber : string -> float.

Lemma new_stat_initial (seller : value) (s : SellerStat) :
  new_stat NumberToString seller = Ok s -> s = initial_stat NumberToString seller.
Proof.
  unfold new_stat, initial_stat, seller_name. intros H.
  apply bind_Ok in H as (i & Ei & H). apply bind_Ok in H as (a & Ea & H).
  apply bind_Ok in H as (b & Eb & H). apply Ok_inj in H. subst s.
  rewrite (property_get _ _ _ Ei), (property_get _ _ _ Ea),
    (property_get _ _ _ Eb). reflexivity.
Qed.

Lemma mapM_new_stat_initial (sellers : list value) (stats : list SellerStat) :
  mapM (new_stat NumberToString) sellers = Ok stats ->
  stats = map (initial_stat NumberToString) sellers /\
  Forall (fun s => non_nullish s = true) sellers.
Proof.
  revert stats. induction sellers as [|a l IH]; cbn [mapM map]; intros stats H.
  - apply Ok_inj in H. subst. split; [reflexivity|constructor].
  - apply bind_Ok in H as (b & Eb & H). apply bind_Ok in H as (bs & Ebs & H).
    apply Ok_inj in H. subst stats. destruct (IH _ Ebs) as [-> F].
    rewrite (new_stat_initial _ _ Eb). split; [reflexivity|].
    constructor; [|exact F].
    unfold new_stat in Eb. apply bind_Ok in Eb as (i & Ei & _).
    eapply get_Ok_non_nullish. exact Ei.
Qed.

Lemma mapM_product_entry_eq (products : list value)
    (entries : list (value * value)) :
  mapM product_entry products = Ok entries ->
  entries = map (fun p => (property p "sku", p)) products /\
  Forall (fun p => non_nullish p = true) products.
Proof.
  revert entries. induction products as [|a l IH]; cbn [mapM map]; intros entries H.
  - apply Ok_inj in H. subst. split; [reflexivity|constructor].
  - apply bind_Ok in H as (b & Eb & H). apply bind_Ok in H as (bs & Ebs & H).
    apply Ok_inj in H. subst entries. destruct (IH _ Ebs) as [-> F].
    unfold product_entry in Eb. apply bind_Ok in Eb as (k & Ek & Eb).
    apply Ok_inj in Eb. subst b. rewrite (property_get _ _ _ Ek).
    split; [reflexivity|]. constructor; [|exact F].
    eapply get_Ok_non_nullish. exact Ek.
Qed.

(** The steps of [collect], with the two indexes as functions of the
    input arrays. *)
Lemma collect_inv (f : revenue_fn) (sellers products records : list value)
    (stats : list SellerStat) :
  collect NumberToString StringToNumber f sellers products records = Ok stats ->
  foldM (process_record NumberToString StringToNumber f
           (seller_index NumberToString sellers)
           (product_index NumberToString products))
        records (map (initial_stat NumberToString) sellers) = Ok stats /\
  Forall (fun s => non_nullish s = true) sellers /\
  Forall (fun p => non_nullish p = true) products /\
  length stats = length sellers.
Proof.
  unfold collect, seller_index, product_index. intros H.
  apply bind_Ok in H as (stats0 & E0 & H).
  apply bind_Ok in H as (entries & E1 & H).
  apply mapM_new_stat_initial in E0 as [-> Fs].
  apply mapM_product_entry_eq in E1 as [-> Fp].
  split; [exact H|]. split; [exact Fs|]. split; [exact Fp|].
  erewrite fold_records_length by exact H. apply length_map.
Qed.

Lemma collect_lookup (f : revenue_fn) (sellers products records : list value)
    (stats : list SellerStat) (j : nat) (s : SellerStat) :
  collect NumberToString StringToNumber f sellers products records = Ok stats ->
  stats !! j = Some s ->
  exists seller, sellers !! j = Some seller.
Proof.
  intros H Hj. apply collect_inv in H as (_ & _ & _ & L).
  apply lookup_lt_Some in Hj. rewrite L in Hj.
  apply lookup_lt_is_Some_2 in Hj. destruct Hj as [x E]. eauto.
Qed.

End CollectFacts.

(** ** What the fold accumulates *)

Section Accumulation.
Variable NumberToString : float -> string.
Variable StringToNumber : string -> float.

(** X11. After the fold, [sales_count] of the seller record at each position
    is the number of receipts whose [seller_id] resolves to that position
    (the counter is a binary64 number: it is exact up to 2^53). *)
Theorem sales_count_is_number_of_receipts (f : revenue_fn)
    (sellers products records : list value) (stats : list SellerStat)
    (j : nat) (s : SellerStat) :
  collect NumberToString StringToNumber f sellers products records = Ok stats ->
  stats !! j = Some s ->
  let matched :=
    receipts_of NumberToString (seller_index NumberToString sellers) j records in
  Z.of_nat (length matched) <= 2 ^ 53 ->
  sales_count s = number_of_nat (length matched).
Proof.
  intros H Hj matched Hn.
  apply collect_inv in H as (H & _ & _ & L).
  assert (Hj0 : is_Some (map (initial_stat NumberToString) sellers !! j)).
  { apply lookup_lt_is_Some_2. rewrite length_map, <- L.
    eapply lookup_lt_Some. exact Hj. }
  destruct Hj0 as [s0 Hj0].
  destruct (fold_records_at _ _ _ _ _ _ _ _ H j s0 Hj0)
    as (s' & Hs' & _ & _ & _ & C & _).
  assert (s' = s) by congruence. subst s'.
  rewrite C. rewrite list_lookup_fmap in Hj0.
  destruct (sellers !! j) as [seller|]; [|discriminate].
  apply (inj Some) in Hj0. subst s0. cbn [initial_stat sales_count].
  change 0%float with (number_of_nat 0).
  rewrite count_from; [reflexivity|exact Hn].
Qed.



End Accumulation.

Lemma sales_count_is_number_of_receipts_witness :
  exists stats s,
    collect integer_NumberToString integer_StringToNumber
      run_calculateSimpleRevenue [seller_s1; seller_s2] [product_A]
      four_receipts = Ok stats /\
    stats !! 0%nat = Some s /\
    sales_count s = number_of_nat 2.
Proof.
  destruct (collect integer_NumberToString integer_StringToNumber
              run_calculateSimpleRevenue [seller_s1; seller_s2] [product_A]
              four_receipts) as [stats|e] eqn:E;
    [|vm_compute in E; discriminate E].
  destruct (stats !! 0%nat) as [s|] eqn:Hs.
  - exists stats, s. split; [reflexivity|]. split; [exact Hs|].
    apply (sales_count_is_number_of_receipts integer_NumberToString
             integer_StringToNumber run_calculateSimpleRevenue
             [seller_s1; seller_s2] [product_A] four_receipts stats 0 s E Hs).
    vm_compute. discriminate.
  - vm_compute in E. apply Ok_inj in E. subst stats. discriminate Hs.
Defined.



(** ** Lookups in the two indexes *)

Section IndexLookup.
Variable NumberToString : float -> string.


Lemma index_sellers_last (stats : list SellerStat) (i : nat)
    (acc : gmap string nat) (k : string) (j : nat) :
  index_sellers NumberToString i stats acc !! k = Some j <->
  ((i <= j)%nat /\
   (exists s, stats !! (j - i)%nat = Some s /\ stat_key NumberToString s = k) /\
   (forall j' s', (j - i < j')%nat -> stats !! j' = Some s' ->
                  stat_key NumberToString s' <> k)) \/
  (acc !! k = Some j /\ Forall (fun s => stat_key NumberToString s <> k) stats).
Proof.
  revert i acc. induction stats as [|s stats IH]; intros i acc;
    cbn [index_sellers].
  - split.
    + intros H. right. split; [exact H|constructor].
    + intros [(_ & (s & H & _) & _)|[H _]]; [discriminate|exact H].
  - rewrite IH. fold (stat_key NumberToString s). split.
    + intros [(Hle & (s' & Hs' & Hk) & Hlast)|[Hacc F]].
      * left. split; [lia|]. split.
        -- exists s'. replace (j - i)%nat with (S (j - S i)) by lia.
           split; assumption.
        -- intros j' x Hj' Hx. destruct j' as [|j']; [lia|].
           apply (Hlast j' x); [lia|exact Hx].
      * destruct (decide (stat_key NumberToString s = k)) as [E|N].
        -- rewrite E, lookup_insert_eq in Hacc. apply (inj Some) in Hacc.
           subst j. left. split; [lia|]. rewrite Nat.sub_diag. split.
           ++ exists s. split; [reflexivity|exact E].
           ++ intros j' x Hj' Hx. destruct j' as [|j']; [lia|].
              rewrite List.Forall_forall in F. apply F.
              apply list_elem_of_In. eapply list_elem_of_lookup_2. exact Hx.
        -- rewrite lookup_insert_ne in Hacc by exact N.
           right. split; [exact Hacc|]. constructor; assumption.
    + intros [(Hle & (s' & Hs' & Hk) & Hlast)|[Hacc F]].
      * destruct (decide (i = j)) as [->|Nij].
        -- right. rewrite Nat.sub_diag in Hs', Hlast. cbn in Hs'.
           apply (inj Some) in Hs'. subst s'. rewrite Hk, lookup_insert_eq.
           split; [reflexivity|].
           apply List.Forall_forall. intros x Hx. apply list_elem_of_In in Hx.
           apply list_elem_of_lookup_1 in Hx as [n Hn].
           apply (Hlast (S n) x); [lia|exact Hn].
        -- left. split; [lia|]. split.
           ++ exists s'. replace (j - i)%nat with (S (j - S i)) in Hs' by lia.
              split; assumption.
           ++ intros j' x Hj' Hx. apply (Hlast (S j') x); [lia|exact Hx].
      * inversion F as [|? ? N F']; subst. right.
        rewrite lookup_insert_ne by exact N. split; assumption.
Qed.

Lemma seller_index_lookup (sellers : list value) (k : string) (j : nat) :
  seller_index NumberToString sellers !! k = Some j <->
  (exists seller, sellers !! j = Some seller /\
                  seller_key NumberToString seller = k) /\
  (forall j' seller', (j < j')%nat -> sellers !! j' = Some seller' ->
                      seller_key NumberToString seller' <> k).
Proof.
  unfold seller_index. rewrite index_sellers_last, lookup_empty, Nat.sub_0_r.
  split.
  - intros [(_ & (s & Hs & Hk) & Hlast)|[H _]]; [|discriminate].
    rewrite list_lookup_fmap in Hs.
    destruct (sellers !! j) as [seller|] eqn:Hj; [|discriminate].
    apply (inj Some) in Hs. subst s. split; [eauto|].
    intros j' seller' Hj' Hs'.
    apply (Hlast j' (initial_stat NumberToString seller')); [exact Hj'|].
    rewrite list_lookup_fmap, Hs'. reflexivity.
  - intros [(seller & Hj & Hk) Hlast]. left. split; [lia|]. split.
    + exists (initial_stat NumberToString seller).
      rewrite list_lookup_fmap, Hj. split; [reflexivity|exact Hk].
    + intros j' s' Hj' Hs'. rewrite list_lookup_fmap in Hs'.
      destruct (sellers !! j') as [seller'|] eqn:E; [|discriminate].
      apply (inj Some) in Hs'. subst s'. apply (Hlast j' seller' Hj' E).
Qed.



End IndexLookup.

Section Shadowing.
Variable NumberToString : float -> string.
Variable StringToNumber : string -> float.

(** X10. When two sellers of [data.sellers] have the same key, every
    receipt with that key is added to the later one: the record of the
    earlier one is left as it was created, with revenue, profit and sales
    count 0 and nothing sold. *)
Theorem earlier_duplicate_seller_gets_nothing (f : revenue_fn)
    (sellers products records : list value) (stats : list SellerStat)
    (i j : nat) (a b : value) :
  collect NumberToString StringToNumber f sellers products records = Ok stats ->
  sellers !! i = Some a -> sellers !! j = Some b -> (i < j)%nat ->
  seller_key NumberToString a = seller_key NumberToString b ->
  stats !! i = Some (initial_stat NumberToString a).
Proof.
  intros H Hi Hj Lt K.
  apply collect_inv in H as (H & _ & _ & _).
  assert (Hi0 : map (initial_stat NumberToString) sellers !! i
                = Some (initial_stat NumberToString a))
    by (rewrite list_lookup_fmap, Hi; reflexivity).
  destruct (fold_records_at _ _ _ _ _ _ _ _ H i _ Hi0)
    as (s' & Hs' & _ & _ & _ & _ & U).
  rewrite Hs'. f_equal. apply U.
  apply List.Forall_forall. intros r _ R.
  unfold resolve in R. destruct (record_key NumberToString r) as [k|];
    [|discriminate].
  apply seller_index_lookup in R as [(x & Hx & Kx) Hlast].
  assert (x = a) by congruence. subst x.
  apply (Hlast j b Lt Hj). congruence.
Qed.

End Shadowing.

(** ** From the statistics to the report *)

Section ReportStages.
Variable NumberToString : float -> string.
Variable StringToNumber : string -> float.

(** The stages of a call that returns a report, with the fold as one
    stage. *)
Lemma analyzeSalesData_Ok_collect (data : value) (options : options_value)
    (report : list ReportEntry) :
  analyzeSalesData NumberToString StringToNumber data options = Ok report ->
  exists sellers products records f g stats ranked,
    check_data data = Ok (sellers, products, records) /\
    options = OptObject (FFunction f) (FFunction g) /\
    collect NumberToString StringToNumber f sellers products records = Ok stats /\
    assign_bonuses g (Z.of_nat (length sellers)) 0 (js_sort by_profit stats)
    = Ok ranked /\
    report = map (report_entry NumberToString StringToNumber) ranked /\
    length stats = length sellers.
Proof.
  unfold analyzeSalesData. intros H.
  apply bind_Ok in H as ([[ss ps] rs] & Ed & H).
  apply bind_Ok in H as ([f g] & Eo & H).
  apply bind_Ok in H as (stats & Ec & H).
  apply bind_Ok in H as (ranked & Er & H). apply Ok_inj in H. subst report.
  pose proof (collect_inv _ _ _ _ _ _ _ Ec) as (_ & _ & _ & L).
  rewrite js_sort_length, L in Er.
  exists ss, ps, rs, f, g, stats, ranked.
  repeat split; try assumption.
  unfold check_options in Eo.
  destruct options as [| |[| |f'] [| |g']]; try discriminate Eo.
  apply Ok_inj in Eo. congruence.
Qed.

Lemma check_data_property (data : value) (sellers products records : list value) :
  check_data data = Ok (sellers, products, records) ->
  property data "sellers" = VArr sellers /\
  property data "products" = VArr products /\
  property data "purchase_records" = VArr records.
Proof.
  intros E.
  assert (Vd : ~ invalid_input data).
  { intros V. apply check_data_Throw in V. congruence. }
  destruct (check_data_Ok data Vd) as (ss' & ps' & rs' & Ed' & Ps & Pp & Pr).
  rewrite E in Ed'. apply Ok_inj in Ed'.
  assert (sellers = ss' /\ products = ps' /\ records = rs') as (-> & -> & ->)
    by (repeat split; congruence).
  auto.
Qed.


Lemma calculateBonusByProfit_sign (index total : Z) (seller b : value) :
  calculateBonusByProfit NumberToString StringToNumber index total seller = Ok b ->
  exists r, b = VNum r /\ sign_false (Prim2SF r).
Proof.
  unfold calculateBonusByProfit. intros H.
  apply bind_Ok in H as (p & _ & H).
  destruct (Z.eqb index 0);
    [|destruct (Z.eqb index 1 || Z.eqb index 2)%bool;
      [|destruct (Z.eqb index (total - 1))]];
    apply Ok_inj in H; subst b; eexists; (split; [reflexivity|]);
    try (apply mul_sign_false; [apply Math_max_zero_sign|reflexivity]).
  reflexivity.
Qed.

(** X21. With [calculateBonusByProfit] as the bonus strategy, no entry of a
    returned report has a bonus below zero, whatever the data and the
    revenue strategy are. *)
Theorem reference_bonus_is_not_negative (data : value)
    (calculateRevenue : field revenue_fn) (report : list ReportEntry) :
  analyzeSalesData NumberToString StringToNumber data
    (OptObject calculateRevenue
       (FFunction (calculateBonusByProfit NumberToString StringToNumber)))
  = Ok report ->
  Forall (fun e => PrimFloat.ltb (bonus e) 0 = false) report.
Proof.
  intros H.
  destruct (analyzeSalesData_Ok_collect _ _ _ H)
    as (ss & ps & rs & f & g & stats & ranked & Ed & Eo & Ec & Er & -> & L).
  injection Eo as _ <-.
  destruct (assign_bonuses_inv _ _ _ _ _ Er) as (Lr & Mr & Nr).
  apply List.Forall_forall. intros e He. apply list_elem_of_In in He.
  apply list_elem_of_fmap in He as ([[s b] t] & -> & Hr).
  apply list_elem_of_lookup_1 in Hr as [i Hi].
  assert (Hs : js_sort by_profit stats !! i = Some s).
  { rewrite <- Mr, list_lookup_fmap, Hi. reflexivity. }
  destruct (Nr i s Hs) as (b' & Eb & Ri).
  assert (b' = b) by congruence. subst b'.
  apply calculateBonusByProfit_sign in Eb as (r & -> & S).
  cbn [report_entry bonus]. unfold to2. cbn [nullish Number].
  apply ltb_zero_sign. left. apply plus_toFixed2_sign, S.
Qed.

End ReportStages.

Lemma reference_bonus_is_not_negative_witness :
  exists report,
    run_analyzeSalesData ranking_data reference_options = Ok report /\
    Forall (fun e => PrimFloat.ltb (bonus e) 0 = false) report.
Proof.
  destruct (run_analyzeSalesData ranking_data reference_options)
    as [report|e] eqn:E; [|vm_compute in E; discriminate E].
  exists report. split; [reflexivity|].
  exact (reference_bonus_is_not_negative integer_NumberToString
           integer_StringToNumber ranking_data _ report E).
Defined.


(** ** The keys of [products_sold] *)

Section SoldKeys.
Variable NumberToString : float -> string.
Variable StringToNumber : string -> float.






End SoldKeys.

(** ** Exceptions *)

Lemma bind_Throw {A B : Type} (r : result A) (k : A -> result B) (e : error) :
  bind r k = Throw e -> r = Throw e \/ exists a, r = Ok a /\ k a = Throw e.
Proof.
  destruct r as [a|e']; cbn; intros H; [right; eauto|left].
  injection H as ->. reflexivity.
Qed.

Lemma foldM_Throw {A S : Type} (step : S -> A -> result S) (l : list A) (s : S)
    (e : error) :
  foldM step l s = Throw e -> exists s0 a, a ∈ l /\ step s0 a = Throw e.
Proof.
  revert s. induction l as [|a l IH]; cbn [foldM]; intros s H; [discriminate|].
  apply bind_Throw in H as [H|(s1 & _ & H)].
  - exists s, a. split; [apply list_elem_of_here|exact H].
  - destruct (IH _ H) as (s0 & a' & Ha & E). exists s0, a'.
    split; [apply list_elem_of_further, Ha|exact E].
Qed.

Lemma mapM_Throw {A B : Type} (f : A -> result B) (l : list A) (e : error) :
  mapM f l = Throw e -> exists a, a ∈ l /\ f a = Throw e.
Proof.
  induction l as [|a l IH]; cbn [mapM]; intros H; [discriminate|].
  apply bind_Throw in H as [H|(b & _ & H)].
  - exists a. split; [apply list_elem_of_here|exact H].
  - apply bind_Throw in H as [H|(bs & _ & H)]; [|discriminate].
    destruct (IH H) as (a' & Ha & E). exists a'.
    split; [apply list_elem_of_further, Ha|exact E].
Qed.

Lemma get_Throw (o : value) (k : string) (e : error) :
  get o k = Throw e -> e = JsTypeError /\ non_nullish o = false.
Proof. destruct o; cbn; intros H; try discriminate; split; congruence. Qed.

Section Exceptions.
Variable NumberToString : float -> string.
Variable StringToNumber : string -> float.

Lemma process_item_Throw (f : revenue_fn) (productIndex : gmap string value)
    (seller : SellerStat) (item : value) (e : error) :
  process_item NumberToString StringToNumber f productIndex seller item
  = Throw e ->
  e = JsTypeError \/ exists product, f item product = Throw e.
Proof.
  unfold process_item. intros H.
  apply bind_Throw in H as [H|(k & _ & H)];
    [left; apply (get_Throw _ _ _ H)|].
  destruct (productIndex !! _) as [product|]; [|discriminate].
  destruct (truthy product); cbn [negb] in H; [|discriminate].
  apply bind_Throw in H as [H|(q & _ & H)];
    [left; apply (get_Throw _ _ _ H)|].
  apply bind_Throw in H as [H|(pp & _ & H)];
    [left; apply (get_Throw _ _ _ H)|].
  apply bind_Throw in H as [H|(r & _ & H)]; [|discriminate].
  right. eauto.
Qed.

Lemma process_record_Throw (f : revenue_fn) (sellerIndex : gmap string nat)
    (productIndex : gmap string value) (stats : list SellerStat)
    (record : value) (e : error) :
  process_record NumberToString StringToNumber f sellerIndex productIndex
                 stats record = Throw e ->
  e = JsTypeError \/ exists item product, f item product = Throw e.
Proof.
  unfold process_record. intros H.
  apply bind_Throw in H as [H|(k & _ & H)];
    [left; apply (get_Throw _ _ _ H)|].
  destruct (sellerIndex !! _) as [i|]; [|discriminate].
  destruct (stats !! i) as [seller|]; [|discriminate].
  apply bind_Throw in H as [H|(t & _ & H)];
    [left; apply (get_Throw _ _ _ H)|].
  apply bind_Throw in H as [H|(its & _ & H)];
    [left; apply (get_Throw _ _ _ H)|].
  destruct its as [| | | | |its|]; try (left; congruence).
  apply bind_Throw in H as [H|(s' & _ & H)]; [|discriminate].
  apply foldM_Throw in H as (s0 & item & _ & H).
  apply process_item_Throw in H as [H|[product H]]; [left; exact H|].
  right. eauto.
Qed.

Lemma collect_Throw (f : revenue_fn) (sellers products records : list value)
    (e : error) :
  collect NumberToString StringToNumber f sellers products records = Throw e ->
  e = JsTypeError \/ exists item product, f item product = Throw e.
Proof.
  unfold collect. intros H.
  apply bind_Throw in H as [H|(stats0 & _ & H)].
  { apply mapM_Throw in H as (a & _ & H). left. unfold new_stat in H.
    apply bind_Throw in H as [H|(x & _ & H)]; [apply (get_Throw _ _ _ H)|].
    apply bind_Throw in H as [H|(y & _ & H)]; [apply (get_Throw _ _ _ H)|].
    apply bind_Throw in H as [H|(z & _ & H)]; [apply (get_Throw _ _ _ H)|].
    discriminate. }
  apply bind_Throw in H as [H|(entries & _ & H)].
  { apply mapM_Throw in H as (a & _ & H). left. unfold product_entry in H.
    apply bind_Throw in H as [H|(x & _ & H)]; [apply (get_Throw _ _ _ H)|].
    discriminate. }
  apply foldM_Throw in H as (s0 & r & _ & H).
  eapply process_record_Throw. exact H.
Qed.

Lemma assign_bonuses_Throw (g : bonus_fn) (total index : Z)
    (stats : list SellerStat) (e : error) :
  assign_bonuses g total index stats = Throw e ->
  exists i s, stats !! i = Some s /\
              g (index + Z.of_nat i) total (stat_value s) = Throw e /\
              forall i' s', (i' < i)%nat -> stats !! i' = Some s' ->
                exists b, g (index + Z.of_nat i') total (stat_value s') = Ok b.
Proof.
  revert index. induction stats as [|s stats IH]; cbn [assign_bonuses];
    intros index H; [discriminate|].
  apply bind_Throw in H as [H|(b & Eb & H)].
  - exists 0%nat, s. rewrite Z.add_0_r. split; [reflexivity|].
    split; [exact H|]. intros i' s' Hi'. lia.
  - apply bind_Throw in H as [H|(tl & _ & H)]; [|discriminate].
    destruct (IH _ H) as (i & s' & Hi & E & P).
    exists (S i), s'. split; [exact Hi|]. split.
    + replace (index + Z.of_nat (S i)) with (index + 1 + Z.of_nat i) by lia.
      exact E.
    + intros [|i'] x Hlt Hx.
      * cbn in Hx. apply (inj Some) in Hx. subst x. exists b.
        rewrite Z.add_0_r. exact Eb.
      * replace (index + Z.of_nat (S i')) with (index + 1 + Z.of_nat i') by lia.
        apply (P i' x); [lia|exact Hx].
Qed.

Lemma check_data_error (data : value) (e : error) :
  check_data data = Throw e -> e = JsError "Некорректные входные данные".
Proof.
  unfold check_data. destruct (truthy data) eqn:T; cbn [negb]; [|congruence].
  apply truthy_non_nullish in T.
  destruct (get_non_nullish data "sellers" T) as [a ->].
  destruct (get_non_nullish data "products" T) as [b ->].
  destruct (get_non_nullish data "purchase_records" T) as [c ->].
  cbn [bind].
  destruct a, b, c; try congruence.
  destruct (_ || _)%bool; [congruence|discriminate].
Qed.

(** X7. The exceptions of [analyzeSalesData]: the error of the check of
    [data], one of the three errors of the check of [options], a TypeError
    (from reading a property of [null] or [undefined], or from a receipt
    whose [items] is not an array), or an exception thrown by one of the
    two strategies, which is passed on as it is. The function throws
    nothing else. *)
Theorem analyzeSalesData_exceptions (data : value) (options : options_value)
    (e : error) :
  analyzeSalesData NumberToString StringToNumber data options = Throw e ->
  e = JsError "Некорректные входные данные" \/
  e = JsError "Опции должны быть объектом" \/
  e = JsError "Переменные в опциях не определены" \/
  e = JsError "Переменные в опциях должны быть функциями" \/
  e = JsTypeError \/
  exists f g,
    options = OptObject (FFunction f) (FFunction g) /\
    ((exists item product, f item product = Throw e) \/
     (exists index total seller, g index total seller = Throw e)).
Proof.
  unfold analyzeSalesData. intros H.
  apply bind_Throw in H as [H|([[ss ps] rs] & _ & H)];
    [left; apply (check_data_error _ _ H)|].
  apply bind_Throw in H as [H|([f g] & Eo & H)].
  { unfold check_options in H.
    destruct options as [| |[| |f] [| |g]]; try discriminate H;
      apply (f_equal (fun r => match r with Throw x => x | Ok _ => e end)) in H;
      subst e; tauto. }
  assert (O : options = OptObject (FFunction f) (FFunction g)).
  { unfold check_options in Eo.
    destruct options as [| |[| |f'] [| |g']]; try discriminate Eo.
    apply Ok_inj in Eo. congruence. }
  apply bind_Throw in H as [H|(stats & _ & H)].
  { apply collect_Throw in H as [H|H]; [tauto|].
    do 5 right. exists f, g. auto. }
  apply bind_Throw in H as [H|(ranked & _ & H)]; [|discriminate].
  apply assign_bonuses_Throw in H as (i & s & _ & H & _).
  do 5 right. exists f, g. split; [exact O|]. right. eauto.
Qed.

End Exceptions.

(** ** Exceptions of the bonus strategy, errors of the options, names *)


Section Propagation.
Variable NumberToString : float -> string.
Variable StringToNumber : string -> float.


(** X6. The three errors of the check of [options], for data that pass
    the check of [data]: the first when [options] is [null], [undefined] or
    not an object; otherwise the second when one of the two strategies is
    [undefined], also when the other one is not a function; otherwise the
    third when one of them is not a function. *)
Theorem analyzeSalesData_option_errors (data : value) :
  ~ invalid_input data ->
  (forall options, options = OptNullish \/ options = OptNotObject ->
     analyzeSalesData NumberToString StringToNumber data options
     = Throw (JsError "Опции должны быть объектом")) /\
  (forall r b, r = FUndefined \/ b = FUndefined ->
     analyzeSalesData NumberToString StringToNumber data (OptObject r b)
     = Throw (JsError "Переменные в опциях не определены")) /\
  (forall r b, r <> FUndefined -> b <> FUndefined ->
     callable r = false \/ callable b = false ->
     analyzeSalesData NumberToString StringToNumber data (OptObject r b)
     = Throw (JsError "Переменные в опциях должны быть функциями")).
Proof.
  intros Hd. destruct (check_data_Ok data Hd) as (ss & ps & rs & E & _).
  unfold analyzeSalesData. rewrite E. cbn [bind].
  split; [|split].
  - intros options [-> | ->]; reflexivity.
  - intros r b [-> | ->]; [reflexivity|]. destruct r; reflexivity.
  - intros r b Nr Nb [C|C]; destruct r, b; try discriminate C;
      try contradiction; reflexivity.
Qed.

Lemma fold_records_names (f : revenue_fn) (sellerIndex : gmap string nat)
    (productIndex : gmap string value) (records : list value)
    (stats stats' : list SellerStat) :
  foldM (process_record NumberToString StringToNumber f sellerIndex productIndex)
        records stats = Ok stats' ->
  map (fun s => (stat_key NumberToString s, stat_name s)) stats'
  = map (fun s => (stat_key NumberToString s, stat_name s)) stats.
Proof.
  intros H. apply list_eq. intros j. rewrite !list_lookup_fmap.
  destruct (stats !! j) as [s|] eqn:Hj.
  - destruct (fold_records_at _ _ _ _ _ _ _ _ H j s Hj)
      as (s' & Hs' & Hid & Hn & _).
    rewrite Hs'. cbn. unfold stat_key. rewrite Hid, Hn. reflexivity.
  - apply lookup_ge_None in Hj.
    rewrite (proj2 (lookup_ge_None stats' j)); [reflexivity|].
    erewrite fold_records_length by exact H. exact Hj.
Qed.

(** X18. The pairs of identifier and name of a returned report are those
    of the sellers of [data.sellers], each as often as it occurs there: the
    identifier is the string form of [seller.id] and the name is the string
    form of [first_name], a space, and the string form of [last_name]
    (a missing name part prints as ["undefined"]). *)
Theorem report_names_are_seller_names (data : value) (options : options_value)
    (report : list ReportEntry) :
  analyzeSalesData NumberToString StringToNumber data options = Ok report ->
  exists sellers,
    property data "sellers" = VArr sellers /\
    Permutation
      (map (fun e => (seller_id e, name e)) report)
      (map (fun seller => (seller_key NumberToString seller,
                           seller_name NumberToString seller)) sellers).
Proof.
  intros H.
  destruct (analyzeSalesData_Ok_collect _ _ _ _ _ H)
    as (ss & ps & rs & f & g & stats & ranked & Ed & -> & Ec & Er & -> & L).
  destruct (assign_bonuses_inv _ _ _ _ _ Er) as (Lr & Mr & Nr).
  exists ss. split; [apply (check_data_property _ _ _ _ Ed)|].
  apply collect_inv in Ec as (Ef & _ & _ & _).
  apply fold_records_names in Ef.
  assert (R : map (fun seller => (seller_key NumberToString seller,
                                  seller_name NumberToString seller)) ss
              = map (fun s => (stat_key NumberToString s, stat_name s))
                    (map (initial_stat NumberToString) ss))
    by (rewrite map_map; reflexivity).
  rewrite R, <- Ef.
  etransitivity;
    [|apply Permutation_map, (js_sort_Permutation by_profit stats)].
  rewrite <- Mr, !map_map.
  apply Permutation_refl'. apply map_ext. intros [[s b] t]. reflexivity.
Qed.

End Propagation.

(** ** [calculateSimpleRevenue] *)

Lemma is_zero_or_nan_Prim2SF (x : float) :
  is_zero_or_nan x
  = match Prim2SF x with
    | S754_zero _ | S754_nan => true
    | _ => false
    end.
Proof.
  unfold is_zero_or_nan. rewrite is_nan_Prim2SF, FloatAxioms.eqb_spec.
  change (Prim2SF 0) with (S754_zero false).
  destruct (Prim2SF x) as [s|s| |s m e]; try destruct s; reflexivity.
Qed.

Lemma mul_zero_or_nan (x y : float) :
  is_zero_or_nan x = true \/ is_zero_or_nan y = true ->
  is_zero_or_nan (x * y) = true.
Proof.
  rewrite !is_zero_or_nan_Prim2SF, FloatAxioms.mul_spec.
  unfold SF64mul, SFmul.
  destruct (Prim2SF x) as [s|s| |s m e], (Prim2SF y) as [t|t| |t n f];
    intros [H|H]; try discriminate H; reflexivity.
Qed.

Lemma eqb_zero (d : float) :
  PrimFloat.eqb d 0 = true -> d = 0%float \/ d = (-0)%float.
Proof.
  rewrite FloatAxioms.eqb_spec. change (Prim2SF 0) with (S754_zero false).
  intros H.
  destruct (Prim2SF d) as [s|s| |s m e] eqn:E; try destruct s;
    try discriminate H.
  - right. apply FloatAxioms.Prim2SF_inj. rewrite E. reflexivity.
  - left. apply FloatAxioms.Prim2SF_inj. rewrite E. reflexivity.
Qed.

Section SimpleRevenue.
Variable NumberToString : float -> string.
Variable StringToNumber : string -> float.

Let revenue_of := calculateSimpleRevenue NumberToString StringToNumber.
Let number_field := field_or_zero NumberToString StringToNumber.

Lemma calculateSimpleRevenue_value (purchase product : value) :
  non_nullish purchase = true ->
  revenue_of purchase product
  = Ok (VNum (number_field purchase "sale_price"
              * number_field purchase "quantity"
              * (1 - number_field purchase "discount" / 100))%float).
Proof.
  intros N.
  unfold revenue_of, calculateSimpleRevenue, number_field, field_or_zero.
  rewrite !(get_property purchase _ N). reflexivity.
Qed.

(** X1. [calculateSimpleRevenue] throws a TypeError exactly when the
    line item is [null] or [undefined] (the destructuring fails), and
    otherwise returns a number; the product card is not read. *)
Theorem calculateSimpleRevenue_throws_on_missing_item
    (purchase product : value) :
  (non_nullish purchase = false <->
   revenue_of purchase product = Throw JsTypeError) /\
  (non_nullish purchase = true <->
   exists x, revenue_of purchase product = Ok (VNum x)) /\
  (forall product', revenue_of purchase product' = revenue_of purchase product).
Proof.
  split; [|split].
  - destruct (non_nullish purchase) eqn:N.
    + rewrite (calculateSimpleRevenue_value _ _ N). split; discriminate.
    + split; [intros _|reflexivity].
      destruct purchase; try discriminate N; reflexivity.
  - destruct (non_nullish purchase) eqn:N.
    + rewrite (calculateSimpleRevenue_value _ _ N). split; eauto.
    + split; [discriminate|]. intros [x H].
      destruct purchase; try discriminate N; discriminate H.
  - intros product'. reflexivity.
Qed.

(** X2. Without a discount the revenue of a line item is exactly its
    price times its quantity: this holds when [discount] is absent (the
    default 0 applies) or coerces to zero. *)
Theorem calculateSimpleRevenue_without_discount (purchase product : value) :
  non_nullish purchase = true ->
  PrimFloat.eqb (number_field purchase "discount") 0 = true ->
  revenue_of purchase product
  = Ok (VNum (number_field purchase "sale_price"
              * number_field purchase "quantity")%float).
Proof.
  intros N D. rewrite (calculateSimpleRevenue_value _ _ N).
  apply eqb_zero in D as [-> | ->].
  - change (1 - 0 / 100)%float with 1%float. rewrite mul_one. reflexivity.
  - change (1 - -0 / 100)%float with 1%float. rewrite mul_one. reflexivity.
Qed.

(** X3. The revenue of a line item is zero or NaN, and never another
    number, when its price or its quantity is absent (the default 0
    applies) or coerces to zero or NaN, and when its discount is 100. *)
Theorem calculateSimpleRevenue_is_zero (purchase product : value) :
  non_nullish purchase = true ->
  is_zero_or_nan (number_field purchase "sale_price") = true \/
  is_zero_or_nan (number_field purchase "quantity") = true \/
  number_field purchase "discount" = 100%float ->
  exists r, revenue_of purchase product = Ok (VNum r) /\
            is_zero_or_nan r = true.
Proof.
  intros N H. rewrite (calculateSimpleRevenue_value _ _ N).
  eexists. split; [reflexivity|].
  destruct H as [H|[H|H]].
  - apply mul_zero_or_nan. left. apply mul_zero_or_nan. left. exact H.
  - apply mul_zero_or_nan. left. apply mul_zero_or_nan. right. exact H.
  - apply mul_zero_or_nan. right. rewrite H. reflexivity.
Qed.

End SimpleRevenue.

Lemma calculateSimpleRevenue_without_discount_witness :
  run_calculateSimpleRevenue item_Z product_A = Ok (VNum (9 * 7)%float).
Proof.
  apply (calculateSimpleRevenue_without_discount integer_NumberToString
           integer_StringToNumber item_Z product_A); reflexivity.
Defined.

Lemma calculateSimpleRevenue_is_zero_witness :
  exists r,
    run_calculateSimpleRevenue (VObj [("quantity", VNum 3)]) product_A
    = Ok (VNum r) /\ is_zero_or_nan r = true.
Proof.
  apply (calculateSimpleRevenue_is_zero integer_NumberToString
           integer_StringToNumber (VObj [("quantity", VNum 3)]) product_A);
    [reflexivity|]. left. reflexivity.
Defined.

Section SimpleRevenueSign.
Variable NumberToString : float -> string.
Variable StringToNumber : string -> float.

Let revenue_of := calculateSimpleRevenue NumberToString StringToNumber.
Let number_field := field_or_zero NumberToString StringToNumber.

(** X4. The revenue of a line item is never below zero when its price
    and its quantity are not below zero and its discount is not above
    100. *)
Theorem calculateSimpleRevenue_is_not_negative (purchase product : value) :
  non_nullish purchase = true ->
  PrimFloat.ltb (number_field purchase "sale_price") 0 = false ->
  PrimFloat.ltb (number_field purchase "quantity") 0 = false ->
  PrimFloat.ltb 100 (number_field purchase "discount") = false ->
  exists r, revenue_of purchase product = Ok (VNum r) /\
            PrimFloat.ltb r 0 = false.
Proof.
  intros N Hp Hq Hd. unfold revenue_of, number_field in *.
  rewrite (calculateSimpleRevenue_value _ _ _ _ N).
  eexists. split; [reflexivity|].
  apply mul_not_negative; [apply mul_not_negative; assumption|].
  apply discount_factor_not_negative. exact Hd.
Qed.

End SimpleRevenueSign.

Lemma calculateSimpleRevenue_is_not_negative_witness :
  exists r, run_calculateSimpleRevenue item_A product_A = Ok (VNum r) /\
            PrimFloat.ltb r 0 = false.
Proof.
  apply (calculateSimpleRevenue_is_not_negative integer_NumberToString
           integer_StringToNumber item_A product_A); reflexivity.
Defined.

(** ** Exceptions of the revenue strategy *)

Section RevenueExceptions.
Variable NumberToString : float -> string.
Variable StringToNumber : string -> float.
Variable f : revenue_fn.
Variable sellerIndex : gmap string nat.
Variable productIndex : gmap string value.

Let item_step := process_item NumberToString StringToNumber f productIndex.
Let record_step :=
  process_record NumberToString StringToNumber f sellerIndex productIndex.





End RevenueExceptions.

Section RevenueExceptionsOfACall.
Variable NumberToString : float -> string.
Variable StringToNumber : string -> float.






End RevenueExceptionsOfACall.

(** ** Rounding, edge cases of the bonus, independence of the strategy *)

Section Rounding.
Variable NumberToString : float -> string.
Variable StringToNumber : string -> float.

(** X20. [to2] leaves a whole number as it is (only [-0] becomes [0]):
    an accumulated revenue, profit or bonus that is a whole number is
    reported unchanged. *)
Theorem to2_keeps_whole_numbers (x : float) :
  is_whole x = true ->
  to2 NumberToString StringToNumber (VNum x) = x \/
  (x = (-0)%float /\ to2 NumberToString StringToNumber (VNum x) = 0%float).
Proof.
  intros H. unfold to2. cbn [nullish Number]. apply plus_toFixed2_whole, H.
Qed.

(** X5. [calculateBonusByProfit] throws a TypeError exactly when the
    seller record is [null] or [undefined], and otherwise returns a number.
    A record without [profit], or whose [profit] is [null], gets bonus 0 at
    every position. A record whose [profit] is NaN gets the bonus NaN at
    every position but a last position above 2, where it gets 0. *)
Theorem calculateBonusByProfit_edge_cases (index total : Z) (seller : value) :
  (non_nullish seller = false <->
   calculateBonusByProfit NumberToString StringToNumber index total seller
   = Throw JsTypeError) /\
  (non_nullish seller = true <->
   exists x,
     calculateBonusByProfit NumberToString StringToNumber index total seller
     = Ok (VNum x)) /\
  (non_nullish seller = true ->
   non_nullish (property seller "profit") = false ->
   calculateBonusByProfit NumberToString StringToNumber index total seller
   = Ok (VNum 0)) /\
  (forall x, property seller "profit" = VNum x -> PrimFloat.is_nan x = true ->
   calculateBonusByProfit NumberToString StringToNumber index total seller
   = Ok (VNum (if (negb (Z.eqb index 0) && negb (Z.eqb index 1)
                   && negb (Z.eqb index 2) && Z.eqb index (total - 1))%bool
               then 0%float else PrimFloat.nan))).
Proof.
  unfold calculateBonusByProfit.
  destruct (non_nullish seller) eqn:N.
  - rewrite (get_property seller "profit" N). cbn [bind].
    split; [|split; [|split]].
    + split; [discriminate|].
      destruct (Z.eqb index 0);
        [|destruct (Z.eqb index 1 || Z.eqb index 2)%bool;
          [|destruct (Z.eqb index (total - 1))]]; discriminate.
    + split; [intros _|reflexivity].
      destruct (Z.eqb index 0);
        [|destruct (Z.eqb index 1 || Z.eqb index 2)%bool;
          [|destruct (Z.eqb index (total - 1))]]; eauto.
    + intros _ P.
      assert (E : nullish (property seller "profit") (VNum 0) = VNum 0)
        by (destruct (property seller "profit"); try discriminate P; reflexivity).
      rewrite E. cbn [Number].
      destruct (Z.eqb index 0);
        [|destruct (Z.eqb index 1 || Z.eqb index 2)%bool;
          [|destruct (Z.eqb index (total - 1))]]; reflexivity.
    + intros x -> Hx. cbn [nullish Number]. rewrite Math_max_zero, Hx.
      destruct (Z.eqb index 0); [reflexivity|].
      destruct (Z.eqb index 1); [reflexivity|].
      destruct (Z.eqb index 2); [reflexivity|].
      destruct (Z.eqb index (total - 1)); reflexivity.
  - assert (E : get seller "profit" = Throw JsTypeError)
      by (destruct seller; try discriminate N; reflexivity).
    rewrite E. cbn [bind]. split; [|split; [|split]].
    + split; reflexivity.
    + split; [discriminate|]. intros [x H]. discriminate H.
    + discriminate.
    + intros x P. destruct seller; try discriminate N; discriminate P.
Qed.

End Rounding.

Lemma to2_keeps_whole_numbers_witness :
  to2 integer_NumberToString integer_StringToNumber (VNum 100) = 100%float \/
  (100%float = (-0)%float /\
   to2 integer_NumberToString integer_StringToNumber (VNum 100) = 0%float).
Proof.
  apply (to2_keeps_whole_numbers integer_NumberToString integer_StringToNumber
           100%float).
  reflexivity.
Defined.

Lemma earlier_duplicate_seller_gets_nothing_witness :
  exists stats,
    collect integer_NumberToString integer_StringToNumber
      run_calculateSimpleRevenue [seller_s1; seller_s1_again] [product_A]
      four_receipts = Ok stats /\
    stats !! 0%nat = Some (initial_stat integer_NumberToString seller_s1).
Proof.
  destruct (collect integer_NumberToString integer_StringToNumber
              run_calculateSimpleRevenue [seller_s1; seller_s1_again]
              [product_A] four_receipts) as [stats|e] eqn:E;
    [|vm_compute in E; discriminate E].
  exists stats. split; [reflexivity|].
  apply (earlier_duplicate_seller_gets_nothing integer_NumberToString
           integer_StringToNumber run_calculateSimpleRevenue
           [seller_s1; seller_s1_again] [product_A] four_receipts stats
           0 1 seller_s1 seller_s1_again E); try reflexivity. lia.
Defined.


Lemma analyzeSalesData_exceptions_witness :
  run_analyzeSalesData data_without_items reference_options = Throw JsTypeError /\
  (JsTypeError = JsError "Некорректные входные данные" \/
   JsTypeError = JsError "Опции должны быть объектом" \/
   JsTypeError = JsError "Переменные в опциях не определены" \/
   JsTypeError = JsError "Переменные в опциях должны быть функциями" \/
   JsTypeError = JsTypeError \/
   exists f g,
     reference_options = OptObject (FFunction f) (FFunction g) /\
     ((exists item product, f item product = Throw JsTypeError) \/
      (exists index total seller, g index total seller = Throw JsTypeError))).
Proof.
  assert (E : run_analyzeSalesData data_without_items reference_options
              = Throw JsTypeError) by (vm_compute; reflexivity).
  split; [exact E|].
  exact (analyzeSalesData_exceptions integer_NumberToString
           integer_StringToNumber data_without_items reference_options
           JsTypeError E).
Defined.


Lemma analyzeSalesData_option_errors_witness :
  run_analyzeSalesData scenario_data OptNullish
  = Throw (JsError "Опции должны быть объектом") /\
  run_analyzeSalesData scenario_data (OptObject FNotFunction FUndefined)
  = Throw (JsError "Переменные в опциях не определены") /\
  run_analyzeSalesData scenario_data
    (OptObject (FFunction run_calculateSimpleRevenue) FNotFunction)
  = Throw (JsError "Переменные в опциях должны быть функциями").
Proof.
  destruct (analyzeSalesData_option_errors integer_NumberToString
              integer_StringToNumber scenario_data scenario_data_valid)
    as (H1 & H2 & H3).
  split; [apply H1; left; reflexivity|].
  split; [apply H2; right; reflexivity|].
  apply H3; [discriminate|discriminate|right; reflexivity].
Defined.

Lemma report_names_are_seller_names_witness :
  exists report sellers,
    run_analyzeSalesData ranking_data reference_options = Ok report /\
    property ranking_data "sellers" = VArr sellers /\
    Permutation
      (map (fun e => (seller_id e, name e)) report)
      (map (fun seller => (seller_key integer_NumberToString seller,
                           seller_name integer_NumberToString seller)) sellers).
Proof.
  destruct (run_analyzeSalesData ranking_data reference_options)
    as [report|e] eqn:E; [|vm_compute in E; discriminate E].
  destruct (report_names_are_seller_names integer_NumberToString
              integer_StringToNumber ranking_data reference_options report E)
    as (sellers & P & H).
  exists report, sellers. auto.
Defined.



Section StrategyIndependence.
Variable NumberToString : float -> string.
Variable StringToNumber : string -> float.

(** X14. The revenue strategy bears on [profit] only: two runs of the
    fold on the same data with two revenue strategies, both returning, give
    every seller the same identifier, name, revenue, sales count and
    [products_sold]. *)
Theorem revenue_strategy_changes_profit_only (f f' : revenue_fn)
    (sellers products records : list value) (stats stats' : list SellerStat) :
  collect NumberToString StringToNumber f sellers products records = Ok stats ->
  collect NumberToString StringToNumber f' sellers products records = Ok stats' ->
  map (fun s => (stat_id s, stat_name s, revenue s, sales_count s,
                 products_sold s)) stats
  = map (fun s => (stat_id s, stat_name s, revenue s, sales_count s,
                   products_sold s)) stats'.
Proof.
  intros H H'.
  apply collect_inv in H as (H & _ & _ & L).
  apply collect_inv in H' as (H' & _ & _ & L').
  apply list_eq. intros j. rewrite !list_lookup_fmap.
  destruct (map (initial_stat NumberToString) sellers !! j) as [s0|] eqn:Hj.
  - destruct (fold_records_at _ _ _ _ _ _ _ _ H j s0 Hj)
      as (s & Hs & I1 & N1 & R1 & C1 & _).
    destruct (fold_records_at _ _ _ _ _ _ _ _ H' j s0 Hj)
      as (s' & Hs' & I2 & N2 & R2 & C2 & _).
    destruct (fold_records_effect _ _ _ _ _ _ _ _ H j s0 Hj)
      as (x & ms & Hx & _ & _ & S1).
    destruct (fold_records_effect _ _ _ _ _ _ _ _ H' j s0 Hj)
      as (x' & ms' & Hx' & _ & _ & S2).
    assert (x = s) by congruence. assert (x' = s') by congruence. subst x x'.
    rewrite Hs, Hs'. cbn. rewrite I1, I2, N1, N2, R1, R2, C1, C2, S1, S2.
    reflexivity.
  - apply lookup_ge_None in Hj. rewrite length_map in Hj.
    rewrite (proj2 (lookup_ge_None stats j)) by lia.
    rewrite (proj2 (lookup_ge_None stats' j)) by lia. reflexivity.
Qed.

End StrategyIndependence.

Lemma revenue_strategy_changes_profit_only_witness :
  exists stats stats',
    collect integer_NumberToString integer_StringToNumber
      run_calculateSimpleRevenue [seller_s1; seller_s2] [product_A]
      four_receipts = Ok stats /\
    collect integer_NumberToString integer_StringToNumber
      flat_revenue [seller_s1; seller_s2] [product_A] four_receipts
    = Ok stats' /\
    map (fun s => (stat_id s, stat_name s, revenue s, sales_count s,
                   products_sold s)) stats
    = map (fun s => (stat_id s, stat_name s, revenue s, sales_count s,
                     products_sold s)) stats'.
Proof.
  destruct (collect integer_NumberToString integer_StringToNumber
              run_calculateSimpleRevenue [seller_s1; seller_s2] [product_A]
              four_receipts) as [stats|e] eqn:E;
    [|vm_compute in E; discriminate E].
  destruct (collect integer_NumberToString integer_StringToNumber
              flat_revenue [seller_s1; seller_s2] [product_A]
              four_receipts) as [stats'|e] eqn:E';
    [|vm_compute in E'; discriminate E'].
  exists stats, stats'. split; [reflexivity|]. split; [reflexivity|].
  exact (revenue_strategy_changes_profit_only integer_NumberToString
           integer_StringToNumber run_calculateSimpleRevenue flat_revenue
           [seller_s1; seller_s2] [product_A] four_receipts stats stats' E E').
Defined.

Section Isolation.
Variable NumberToString : float -> string.
Variable StringToNumber : string -> float.


End Isolation.




(** ** The rows of the report *)

Section Rows.
Variable NumberToString : float -> string.
Variable StringToNumber : string -> float.


End Rows.


(** ** Writes

    The store-level function is checked against a typing of the store: every
    location has a kind, the locations of the caller are [KInput], and each
    object the function allocates gets the kind of its role. A write is
    typable only at a location that is not [KInput]. *)

Import Heap.

Lemma has_kind_app (T T' : typing) (v : hval) (K : kind) :
  has_kind T v K -> has_kind (T ++ T') v K.
Proof.
  intros (l & -> & H). exists l. split; [reflexivity|].
  apply lookup_app_l_Some. exact H.
Qed.




Section Triples.
Context {A : Type}.



(** A computation that leaves the store as it is. *)
Lemma triple_read (T : typing) (m : M A) (Q : typing -> A -> Prop) :
  (forall s, snd (m s) = s) ->
  (forall s a, typed T s -> fst (m s) = Ok a -> Q T a) ->
  triple T m Q.
Proof.
  intros Hm HQ s Hs. exists []. rewrite app_nil_r, Hm.
  split; [exact Hs|]. split; [reflexivity|]. intros a E. eapply HQ; eassumption.
Qed.

Lemma triple_pure (T : typing) (m : M A) :
  (forall s, snd (m s) = s) -> triple T m (fun _ _ => True).
Proof. intros H. apply triple_read; [exact H | auto]. Qed.

End Triples.

Lemma triple_bind {A B : Type} (T : typing) (m : M A) (k : A -> M B)
    (Q : typing -> A -> Prop) (R : typing -> B -> Prop) :
  triple T m Q ->
  (forall T' a, Q (T ++ T') a -> triple (T ++ T') (k a) R) ->
  triple T (mbind m k) R.
Proof.
  intros Hm Hk s Hs. destruct (Hm s Hs) as (T1 & H1 & F1 & Q1).
  unfold mbind. destruct (m s) as [[a|e] s1] eqn:E; cbn [fst snd] in *.
  - destruct (Hk T1 a (Q1 a eq_refl) s1 H1) as (T2 & H2 & F2 & Q2).
    exists (T1 ++ T2). rewrite app_assoc.
    split; [exact H2|]. split; [|exact Q2].
    intros l Hl. rewrite F2 by (apply lookup_app_l_Some; exact Hl).
    apply F1, Hl.
  - exists T1. split; [exact H1|]. split; [exact F1|].
    intros b Eb. discriminate Eb.
Qed.

(** *** The primitive operations *)


Lemma get_store (o : hval) (k : string) (s : store) : snd (get o k s) = s.
Proof. destruct o; reflexivity. Qed.

Lemma triple_get (T : typing) (o : hval) (k : string) :
  triple T (get o k) (fun _ _ => True).
Proof. apply triple_read; [apply get_store | auto]. Qed.




Lemma obj_get_set_ne {B : Type} (k k' : string) (v : B) (props : list (string * B)) :
  k <> k' -> obj_get k' (obj_set k v props) = obj_get k' props.
Proof.
  intros N. unfold obj_set. destruct (obj_get k props) eqn:G.
  - clear G. induction props as [|[k0 v0] props IH]; cbn; [reflexivity|].
    destruct (String.eqb k k0) eqn:E; cbn.
    + apply String.eqb_eq in E. subst k0.
      destruct (String.eqb k' k) eqn:E'; [|reflexivity].
      apply String.eqb_eq in E'. congruence.
    + rewrite IH. reflexivity.
  - clear G. induction props as [|[k0 v0] props IH]; cbn.
    + destruct (String.eqb k' k) eqn:E'; [|reflexivity].
      apply String.eqb_eq in E'. congruence.
    + destruct (key_before k k0); cbn.
      * destruct (String.eqb k' k) eqn:E'; [|reflexivity].
        apply String.eqb_eq in E'. congruence.
      * rewrite IH. reflexivity.
Qed.

Lemma Forall_obj_set {B : Type} (P : string * B -> Prop) (k : string) (v : B)
    (props : list (string * B)) :
  (forall k', P (k', v)) -> Forall P props -> Forall P (obj_set k v props).
Proof.
  intros Hv F. unfold obj_set. destruct (obj_get k props).
  - induction F as [|[k0 v0] props H0 F IH]; cbn; [constructor|].
    destruct (String.eqb k k0); constructor; auto.
  - induction F as [|[k0 v0] props H0 F IH]; cbn; [repeat constructor; auto|].
    destruct (key_before k k0); repeat constructor; auto.
Qed.





Lemma triple_elements (T : typing) (v : hval) :
  triple T (elements v) (fun _ _ => True).
Proof. apply triple_read; [reflexivity | auto]. Qed.



(** *** Loops *)




(** *** The function *)

Section Frame.
Variable ToString : store -> hval -> string.
Variable ToNumber : store -> hval -> float.

Ltac lift := solve [repeat first [assumption | apply has_kind_app]].

Ltac pure_step :=
  eapply triple_bind;
  [ first [ apply triple_get | apply triple_elements
          | apply triple_pure; reflexivity ]
  | intros ? ? _ ].












End Frame.

(** On the inputs of this file the two embeddings return the same outcome,
    and the store-level call leaves the ten objects of the scenario of the
    specification as they were. *)
Example heap_scenario_report :
  read_report (Heap.analyzeSalesData plain_ToString plain_ToNumber
                 scenario_ref scenario_options scenario_store)
  = run_analyzeSalesData scenario_data reference_options.
Proof. vm_compute. reflexivity. Qed.

Example heap_scenario_inputs_unchanged :
  take 10 (snd (Heap.analyzeSalesData plain_ToString plain_ToNumber
                  scenario_ref scenario_options scenario_store))
  = scenario_store.
Proof. vm_compute. reflexivity. Qed.

Example embeddings_agree_on_the_inputs :
  Forall (fun data => run_loaded data
                      = run_analyzeSalesData data reference_options)
         [scenario_data; ranking_data; data_without_items; data_without_price;
          data_with_NaN_profit; data_with_numeric_skus; VNull;
          VObj [("sellers", VArr [])]].
Proof. repeat constructor; vm_compute; reflexivity. Qed.

(** ** What the report leads to

    The store-level function is checked against the second typing of the
    store: the seller records hold primitive values under [name] and
    [sales_count] and a [top_products] array of the function's own, so
    that a report entry, which copies these, holds nothing else. *)

Lemma has_shape_app (T T' : list shape) (v : hval) (K : shape) :
  has_shape T v K -> has_shape (T ++ T') v K.
Proof.
  intros (l & -> & H). exists l. split; [reflexivity|].
  apply lookup_app_l_Some. exact H.
Qed.

Lemma stat_field_app (T T' : list shape) (kv : string * hval) :
  stat_field T kv -> stat_field (T ++ T') kv.
Proof.
  unfold stat_field.
  destruct (String.eqb (fst kv) "products_sold"); [apply has_shape_app|].
  destruct (String.eqb (fst kv) "name" || String.eqb (fst kv) "sales_count")%bool;
    [exact (fun H => H)|].
  destruct (String.eqb (fst kv) "top_products");
    [apply has_shape_app | exact (fun H => H)].
Qed.

Lemma shape_ok_app (T T' : list shape) (K : shape) (o : hobj) :
  shape_ok T K o -> shape_ok (T ++ T') K o.
Proof.
  destruct K; cbn; try exact (fun H => H).
  - intros (props & -> & G & F). exists props. split; [reflexivity|].
    split; [exact G|]. eapply Forall_impl; [exact F|].
    intros kv. apply stat_field_app.
  - intros (props & -> & F). exists props. split; [reflexivity|].
    eapply Forall_impl; [exact F|]. intros kv. apply has_shape_app.
  - intros (es & -> & F). exists es. split; [reflexivity|].
    eapply Forall_impl; [exact F|]. intros v. apply has_shape_app.
  - intros (es & -> & F). exists es. split; [reflexivity|].
    eapply Forall_impl; [exact F|]. intros v. apply has_shape_app.
  - intros (props & -> & F). exists props. split; [reflexivity|].
    eapply Forall_impl; [exact F|]. intros kv [H|H]; [left; exact H|].
    right. apply has_shape_app, H.
  - intros (es & -> & F). exists es. split; [reflexivity|].
    eapply Forall_impl; [exact F|]. intros v. apply has_shape_app.
Qed.

Lemma shaped_alloc (T : list shape) (s : store) (K : shape) (o : hobj) :
  shaped T s -> shape_ok T K o -> shaped (T ++ [K]) (s ++ [o]).
Proof.
  intros [L H] Ho. split; [rewrite !length_app, L; reflexivity|].
  intros l K' o' HK Hs.
  destruct (decide (l < length T)%nat) as [Hl|Hl].
  - rewrite lookup_app_l in HK by exact Hl.
    rewrite lookup_app_l in Hs by (rewrite <- L; exact Hl).
    apply shape_ok_app. eapply H; eassumption.
  - rewrite lookup_app_r in HK by lia. rewrite lookup_app_r in Hs by lia.
    rewrite <- L in Hs.
    destruct (l - length T)%nat as [|n]; cbn in HK, Hs; [|discriminate].
    assert (K' = K) as -> by congruence. assert (o' = o) as -> by congruence.
    apply shape_ok_app, Ho.
Qed.

Lemma shaped_update (T : list shape) (s : store) (l : loc) (K : shape)
    (o : hobj) :
  shaped T s -> T !! l = Some K -> shape_ok T K o -> shaped T (<[l := o]> s).
Proof.
  intros [L H] HK Ho. split; [rewrite length_insert; exact L|].
  intros l' K' o' HK' Hs.
  destruct (decide (l = l')) as [<-|N].
  - rewrite list_lookup_insert_eq in Hs
      by (rewrite <- L; eapply lookup_lt_Some; exact HK).
    assert (K' = K) as -> by congruence. assert (o' = o) as -> by congruence.
    exact Ho.
  - rewrite list_lookup_insert_ne in Hs by exact N. eapply H; eassumption.
Qed.

Section Builds.
Context {A : Type}.

Lemma builds_ret (T : list shape) (a : A) (Q : list shape -> A -> Prop) :
  Q T a -> builds T (ret a) Q.
Proof.
  intros H s Hs. exists []. rewrite app_nil_r. cbn.
  split; [exact Hs|]. intros a' E. apply Ok_inj in E. subst a'. exact H.
Qed.

Lemma builds_raise (T : list shape) (e : error) (Q : list shape -> A -> Prop) :
  builds T (raise e) Q.
Proof.
  intros s Hs. exists []. rewrite app_nil_r. cbn.
  split; [exact Hs|]. intros a E. discriminate E.
Qed.

Lemma builds_read (T : list shape) (m : M A) (Q : list shape -> A -> Prop) :
  (forall s, snd (m s) = s) ->
  (forall s a, shaped T s -> fst (m s) = Ok a -> Q T a) ->
  builds T m Q.
Proof.
  intros Hm HQ s Hs. exists []. rewrite app_nil_r, Hm.
  split; [exact Hs|]. intros a E. eapply HQ; eassumption.
Qed.

Lemma builds_pure (T : list shape) (m : M A) :
  (forall s, snd (m s) = s) -> builds T m (fun _ _ => True).
Proof. intros H. apply builds_read; [exact H | auto]. Qed.

End Builds.

Lemma builds_bind {A B : Type} (T : list shape) (m : M A) (k : A -> M B)
    (Q : list shape -> A -> Prop) (R : list shape -> B -> Prop) :
  builds T m Q ->
  (forall T' a, Q (T ++ T') a -> builds (T ++ T') (k a) R) ->
  builds T (mbind m k) R.
Proof.
  intros Hm Hk s Hs. destruct (Hm s Hs) as (T1 & H1 & Q1).
  unfold mbind. destruct (m s) as [[a|e] s1] eqn:E; cbn [fst snd] in *.
  - destruct (Hk T1 a (Q1 a eq_refl) s1 H1) as (T2 & H2 & Q2).
    exists (T1 ++ T2). rewrite app_assoc. split; [exact H2 | exact Q2].
  - exists T1. split; [exact H1|]. intros b Eb. discriminate Eb.
Qed.

(** *** The primitive operations *)

Lemma builds_alloc (T : list shape) (K : shape) (o : hobj) :
  shape_ok T K o -> builds T (alloc o) (fun T' v => has_shape T' v K).
Proof.
  intros Ho s Hs. exists [K]. unfold alloc. cbn [fst snd].
  split; [apply shaped_alloc; assumption|].
  intros a E. apply Ok_inj in E. subst a. exists (length s).
  split; [reflexivity|]. destruct Hs as [L _]. rewrite <- L.
  rewrite lookup_app_r by lia. rewrite Nat.sub_diag. reflexivity.
Qed.

Lemma builds_get (T : list shape) (o : hval) (k : string) :
  builds T (get o k) (fun _ _ => True).
Proof. apply builds_read; [apply get_store | auto]. Qed.

(** The value under a key is the value of an entry with that key. *)
Lemma obj_get_Forall {B : Type} (P : string * B -> Prop) (k : string) (v : B)
    (props : list (string * B)) :
  Forall P props -> obj_get k props = Some v -> P (k, v).
Proof.
  intros F G. induction F as [|[k' v'] props Hv F IH]; cbn in G; [discriminate|].
  destruct (String.eqb k k') eqn:E; [|exact (IH G)].
  apply String.eqb_eq in E. subst k'.
  assert (v = v') as -> by congruence. exact Hv.
Qed.

Lemma Forall_obj_set_key {B : Type} (P : string * B -> Prop) (k : string)
    (v : B) (props : list (string * B)) :
  P (k, v) -> Forall P props -> Forall P (obj_set k v props).
Proof.
  intros Hv F. unfold obj_set. destruct (obj_get k props).
  - induction F as [|[k0 v0] props H0 F IH]; cbn; [constructor|].
    destruct (String.eqb k k0) eqn:E; constructor; auto.
    apply String.eqb_eq in E. subst k0. exact Hv.
  - induction F as [|[k0 v0] props H0 F IH]; cbn; [repeat constructor; auto|].
    destruct (key_before k k0); repeat constructor; auto.
Qed.

(** A truthy value read from [sellerIndex] is a seller record. *)
Lemma builds_get_index (T : list shape) (o : hval) (k : string) :
  has_shape T o SIndex ->
  builds T (get o k) (fun T' v => truthy v = true -> has_shape T' v SStat).
Proof.
  intros (l & -> & Hl). apply builds_read; [apply get_store|].
  intros s a [L H] E Ha. cbn in E. apply Ok_inj in E. subst a.
  destruct (s !! l) as [o|] eqn:Es; [|discriminate Ha].
  destruct (H l SIndex o Hl Es) as (props & -> & F).
  destruct (obj_get k props) as [v|] eqn:G; [|discriminate Ha]. cbn.
  exact (obj_get_Forall _ k v props F G).
Qed.

(** What is read from a seller record is [undefined] or what the record
    may hold under the key. *)
Lemma builds_get_stat (T : list shape) (o : hval) (k : string) :
  has_shape T o SStat ->
  builds T (get o k) (fun T' v => v = HUndefined \/ stat_field T' (k, v)).
Proof.
  intros (l & -> & Hl). apply builds_read; [apply get_store|].
  intros s a [L H] E. cbn in E. apply Ok_inj in E. subst a.
  destruct (s !! l) as [o|] eqn:Es; [|left; reflexivity].
  destruct (H l SStat o Hl Es) as (props & -> & _ & F).
  destruct (obj_get k props) as [v|] eqn:G; [|left; reflexivity]. cbn.
  right. exact (obj_get_Forall _ k v props F G).
Qed.

Lemma builds_get_sold (T : list shape) (o : hval) :
  has_shape T o SStat ->
  builds T (get o "products_sold") (fun T' v => has_shape T' v SSold).
Proof.
  intros (l & -> & Hl). apply builds_read; [apply get_store|].
  intros s a [L H] E. cbn in E. apply Ok_inj in E. subst a.
  assert (is_Some (s !! l)) as [o Es]
    by (apply lookup_lt_is_Some; rewrite <- L; eapply lookup_lt_Some; exact Hl).
  rewrite Es. destruct (H l SStat o Hl Es) as (props & -> & [sold G] & F).
  rewrite G. cbn. exact (obj_get_Forall _ _ sold props F G).
Qed.

Lemma builds_own_entries_sold (T : list shape) (v : hval) :
  has_shape T v SSold ->
  builds T (own_entries v)
    (fun _ entries => Forall (fun kv => primitive (snd kv)) entries).
Proof.
  intros (l & -> & Hl). apply builds_read; [reflexivity|].
  intros s a [L H] E. cbn in E. apply Ok_inj in E. subst a.
  destruct (s !! l) as [o|] eqn:Es; [|constructor].
  destruct (H l SSold o Hl Es) as (props & -> & F). exact F.
Qed.

Lemma builds_put (T : list shape) (K : shape) (o : hval) (k : string)
    (v : hval) :
  has_shape T o K ->
  (forall props, shape_ok T K (HObj props) ->
                 shape_ok T K (HObj (obj_set k v props))) ->
  builds T (put o k v) (fun _ _ => True).
Proof.
  intros (l & -> & Hl) Hok s Hs. exists []. rewrite app_nil_r.
  unfold put. destruct (s !! l) as [[props|es]|] eqn:Es; cbn [fst snd];
    try (split; [exact Hs | auto]).
  split; [|auto].
  eapply shaped_update; [exact Hs | exact Hl|].
  apply Hok. destruct Hs as [_ H]. eapply H; eassumption.
Qed.

Lemma HObj_inj (props props' : list (string * hval)) :
  HObj props = HObj props' -> props = props'.
Proof.
  intros E.
  apply (f_equal (fun o => match o with HObj p => p | HArr _ => [] end)) in E.
  exact E.
Qed.

Lemma builds_put_stat (T : list shape) (o : hval) (k : string) (v : hval) :
  has_shape T o SStat -> k <> "products_sold" -> stat_field T (k, v) ->
  builds T (put o k v) (fun _ _ => True).
Proof.
  intros Ho Hk Hv. apply (builds_put T SStat); [exact Ho|].
  intros props (props' & E & G & F). apply HObj_inj in E. subst props'.
  exists (obj_set k v props). split; [reflexivity|].
  split; [rewrite obj_get_set_ne; assumption|].
  apply Forall_obj_set_key; assumption.
Qed.

Lemma builds_put_sold (T : list shape) (o : hval) (k : string) (v : hval) :
  has_shape T o SSold -> primitive v ->
  builds T (put o k v) (fun _ _ => True).
Proof.
  intros Ho Hv. apply (builds_put T SSold); [exact Ho|].
  intros props (props' & E & F). apply HObj_inj in E. subst props'.
  exists (obj_set k v props). split; [reflexivity|].
  apply Forall_obj_set; [intros k'; exact Hv | exact F].
Qed.

Lemma builds_put_products (T : list shape) (o : hval) (k : string) (v : hval) :
  has_shape T o SProducts -> builds T (put o k v) (fun _ _ => True).
Proof. intros Ho. apply (builds_put T SProducts); [exact Ho | auto]. Qed.

Lemma builds_put_index (T : list shape) (o : hval) (k : string) (v : hval) :
  has_shape T o SIndex -> has_shape T v SStat ->
  builds T (put o k v) (fun _ _ => True).
Proof.
  intros Ho Hv. apply (builds_put T SIndex); [exact Ho|].
  intros props (props' & E & F). apply HObj_inj in E. subst props'.
  exists (obj_set k v props). split; [reflexivity|].
  apply Forall_obj_set; [intros k'; exact Hv | exact F].
Qed.

Lemma builds_elements (T : list shape) (v : hval) :
  builds T (elements v) (fun _ _ => True).
Proof. apply builds_read; [reflexivity | auto]. Qed.

Lemma builds_elements_stats (T : list shape) (v : hval) :
  has_shape T v SStats ->
  builds T (elements v)
    (fun T' r => Forall (fun x => has_shape T' x SStat)
                        (from_option (fun l => l) [] r)).
Proof.
  intros (l & -> & Hl). apply builds_read; [reflexivity|].
  intros s a [L H] E. cbn in E. apply Ok_inj in E. subst a.
  destruct (s !! l) as [o|] eqn:Es; [|constructor].
  destruct (H l SStats o Hl Es) as (es & -> & F). exact F.
Qed.

Lemma builds_sort_in_place (T : list shape) (a : hval)
    (cmp : store -> hval -> hval -> float) :
  has_shape T a SStats -> builds T (sort_in_place a cmp) (fun _ _ => True).
Proof.
  intros (l & -> & Hl) s Hs. exists []. rewrite app_nil_r.
  unfold sort_in_place. destruct (s !! l) as [[props|es]|] eqn:Es; cbn [fst snd];
    try (split; [exact Hs | auto]).
  split; [|auto].
  eapply shaped_update; [exact Hs | exact Hl|].
  destruct Hs as [_ H]. destruct (H l SStats _ Hl Es) as (es' & E & F).
  apply (f_equal (fun o => match o with HArr p => p | HObj _ => [] end)) in E.
  cbn in E. subst es'. exists (js_sort (cmp s) es). split; [reflexivity|].
  eapply Permutation_Forall; [symmetry; apply js_sort_Permutation | exact F].
Qed.

(** *** Loops *)

Lemma builds_forM {A : Type} (f : A -> M unit) (l : list A) (T : list shape) :
  (forall T' a, In a l -> builds (T ++ T') (f a) (fun _ _ => True)) ->
  builds T (forM f l) (fun _ _ => True).
Proof.
  revert T. induction l as [|a l IH]; intros T H; cbn [forM].
  - apply builds_ret. exact I.
  - eapply builds_bind.
    + specialize (H [] a (or_introl eq_refl)). rewrite app_nil_r in H. exact H.
    + intros T1 _ _. apply IH. intros T' b Hb. rewrite <- app_assoc.
      apply H. right. exact Hb.
Qed.

Lemma builds_forM_from {A : Type} (f : Z -> A -> M unit) (l : list A)
    (index : Z) (T : list shape) :
  (forall T' i a, In a l -> builds (T ++ T') (f i a) (fun _ _ => True)) ->
  builds T (forM_from f index l) (fun _ _ => True).
Proof.
  revert T index. induction l as [|a l IH]; intros T index H; cbn [forM_from].
  - apply builds_ret. exact I.
  - eapply builds_bind.
    + specialize (H [] index a (or_introl eq_refl)). rewrite app_nil_r in H.
      exact H.
    + intros T1 _ _. apply IH. intros T' i b Hb. rewrite <- app_assoc.
      apply H. right. exact Hb.
Qed.

Lemma builds_mapM {A : Type} (K : shape) (f : A -> M hval) (l : list A)
    (T : list shape) :
  (forall T' a, In a l ->
     builds (T ++ T') (f a) (fun T'' v => has_shape T'' v K)) ->
  builds T (Heap.mapM f l) (fun T' bs => Forall (fun v => has_shape T' v K) bs).
Proof.
  revert T. induction l as [|a l IH]; intros T H; cbn [Heap.mapM].
  - apply builds_ret. constructor.
  - eapply builds_bind.
    + specialize (H [] a (or_introl eq_refl)). rewrite app_nil_r in H. exact H.
    + intros T1 b Hb. cbn beta in Hb. eapply builds_bind.
      * apply IH. intros T' x Hx. rewrite <- app_assoc. apply H. right. exact Hx.
      * intros T2 bs Hbs. cbn beta in Hbs. apply builds_ret.
        constructor; [apply has_shape_app, Hb | exact Hbs].
Qed.

(** *** The function *)

Section Fresh.
Variable ToString : store -> hval -> string.
Variable ToNumber : store -> hval -> float.

Ltac lift := solve [repeat first [assumption | apply has_shape_app]].

Ltac split_Forall :=
  repeat match goal with
         | |- Forall _ (_ :: _) => constructor
         | |- Forall _ [] => constructor
         end.

Ltac pure_step :=
  eapply builds_bind;
  [ first [ apply builds_get | apply builds_elements
          | apply builds_pure; reflexivity ]
  | intros ? ? _ ].

Lemma builds_new_stat (T : list shape) (seller : hval) :
  builds T (new_stat ToString seller) (fun T' v => has_shape T' v SStat).
Proof.
  unfold new_stat. do 5 pure_step.
  eapply builds_bind.
  { apply (builds_alloc _ SSold). exists []. split; [reflexivity | constructor]. }
  intros T1 sold Hsold. cbn beta in Hsold.
  apply (builds_alloc _ SStat). eexists. split; [reflexivity|].
  split; [eexists; reflexivity|].
  split_Forall; try exact I.
  exact Hsold.
Qed.

Lemma builds_index_seller (T : list shape) (acc s : hval) :
  has_shape T acc SIndex -> has_shape T s SStat ->
  builds T (index_seller ToString acc s) (fun _ _ => True).
Proof.
  intros Ha Hs. unfold index_seller. do 2 pure_step.
  apply builds_put_index; lift.
Qed.

Lemma builds_index_product (T : list shape) (productIndex p : hval) :
  has_shape T productIndex SProducts ->
  builds T (index_product ToString productIndex p) (fun _ _ => True).
Proof.
  intros Ha. unfold index_product. do 2 pure_step.
  apply builds_put_products; lift.
Qed.

Lemma builds_process_item (T : list shape) (f : Heap.revenue_fn)
    (productIndex seller item : hval) :
  has_shape T seller SStat ->
  builds T (Heap.process_item ToString ToNumber f productIndex seller item)
         (fun _ _ => True).
Proof.
  intros Hs. unfold Heap.process_item. do 3 pure_step.
  destruct (negb (Heap.truthy _)); [apply builds_ret; exact I|].
  do 7 pure_step.
  eapply builds_bind; [apply builds_put_stat; [lift | discriminate | exact I]|].
  intros ? ? _.
  eapply builds_bind; [apply builds_get_sold; lift|].
  intros T1 sold1 Hsold1. cbn beta in Hsold1. pure_step.
  eapply builds_bind.
  { destruct (negb (Heap.truthy _));
      [apply builds_put_sold; [lift | exact I] | apply builds_ret; exact I]. }
  intros ? ? _.
  eapply builds_bind; [apply builds_get_sold; lift|].
  intros T2 sold2 Hsold2. cbn beta in Hsold2. pure_step.
  apply builds_put_sold; [lift | exact I].
Qed.

Lemma builds_process_record (T : list shape) (f : Heap.revenue_fn)
    (sellerIndex productIndex record : hval) :
  has_shape T sellerIndex SIndex ->
  builds T (Heap.process_record ToString ToNumber f sellerIndex productIndex
              record)
         (fun _ _ => True).
Proof.
  intros Hi. unfold Heap.process_record. do 2 pure_step.
  eapply builds_bind; [apply builds_get_index; lift|].
  intros T1 seller Hseller. cbn beta in Hseller.
  destruct (Heap.truthy seller); cbn [negb]; [|apply builds_ret; exact I].
  specialize (Hseller eq_refl). pure_step.
  eapply builds_bind; [apply builds_put_stat; [lift | discriminate | exact I]|].
  intros ? ? _. do 3 pure_step.
  eapply builds_bind; [apply builds_put_stat; [lift | discriminate | exact I]|].
  intros ? ? _. do 2 pure_step.
  match goal with |- builds _ (match ?x with _ => _ end) _ => destruct x as [its|] end;
    [|apply builds_raise].
  apply builds_forM. intros Tx item _. apply builds_process_item. lift.
Qed.

Lemma builds_assign_bonus (T : list shape) (g : Heap.bonus_fn) (total index : Z)
    (seller : hval) :
  has_shape T seller SStat ->
  builds T (assign_bonus g total index seller) (fun _ _ => True).
Proof.
  intros Hs. unfold assign_bonus. pure_step.
  eapply builds_bind; [apply builds_put_stat; [lift | discriminate | exact I]|].
  intros ? ? _.
  eapply builds_bind; [apply builds_get_sold; lift|].
  intros T1 sold Hsold. cbn beta in Hsold.
  eapply builds_bind; [apply builds_own_entries_sold; lift|].
  intros T2 entries Hentries. cbn beta in Hentries.
  eapply builds_bind.
  { apply (builds_mapM SPair). intros Tx kq Hkq.
    apply (builds_alloc _ SPair). eexists. split; [reflexivity|].
    split_Forall; [exact I|]. cbn [snd].
    rewrite List.Forall_forall in Hentries. apply (Hentries kq).
    apply (Permutation_in kq (js_sort_Permutation by_quantity entries)).
    apply list_elem_of_In.
    eapply elem_of_sublist; [apply list_elem_of_In, Hkq | apply sublist_take]. }
  intros T3 pairs Hpairs. cbn beta in Hpairs.
  eapply builds_bind.
  { apply (builds_alloc _ STop). exists pairs. split; [reflexivity | exact Hpairs]. }
  intros T4 top Htop. cbn beta in Htop.
  apply builds_put_stat; [lift | discriminate | exact Htop].
Qed.

Lemma builds_to2 (T : list shape) (n : hval) :
  builds T (Heap.to2 ToNumber n) (fun _ v => primitive v).
Proof.
  unfold Heap.to2. eapply builds_bind; [apply builds_pure; reflexivity|].
  intros ? ? _. apply builds_ret. exact I.
Qed.

Lemma builds_report_entry (T : list shape) (seller : hval) :
  has_shape T seller SStat ->
  builds T (Heap.report_entry ToString ToNumber seller)
         (fun T' v => has_shape T' v SEntry).
Proof.
  intros Hs. unfold Heap.report_entry. do 2 pure_step.
  eapply builds_bind; [apply builds_get_stat; lift|].
  intros T1 name Hname. cbn beta in Hname. pure_step.
  eapply builds_bind; [apply builds_to2|].
  intros T2 revenue Hrevenue. cbn beta in Hrevenue. pure_step.
  eapply builds_bind; [apply builds_to2|].
  intros T3 profit Hprofit. cbn beta in Hprofit.
  eapply builds_bind; [apply builds_get_stat; lift|].
  intros T4 sales_count Hsales_count. cbn beta in Hsales_count.
  eapply builds_bind; [apply builds_get_stat; lift|].
  intros T5 top_products Htop_products. cbn beta in Htop_products. pure_step.
  eapply builds_bind; [apply builds_to2|].
  intros T6 bonus Hbonus. cbn beta in Hbonus.
  apply (builds_alloc _ SEntry). eexists. split; [reflexivity|].
  split_Forall; cbn [snd].
  - left. exact I.
  - left. destruct Hname as [->|H]; [exact I | exact H].
  - left. exact Hrevenue.
  - left. exact Hprofit.
  - left. destruct Hsales_count as [->|H]; [exact I | exact H].
  - destruct Htop_products as [->|H]; [left; exact I|].
    right. unfold stat_field in H. cbn in H. lift.
  - left. exact Hbonus.
Qed.

Lemma builds_check_data (T : list shape) (data : hval) :
  builds T (Heap.check_data data) (fun _ _ => True).
Proof.
  unfold Heap.check_data.
  destruct (negb (Heap.truthy data)); [apply builds_raise|].
  do 6 pure_step.
  repeat match goal with
         | |- builds _ (match ?x with _ => _ end) _ => destruct x
         | |- builds _ (if ?x then _ else _) _ => destruct x
         end;
    first [apply builds_raise | apply builds_ret; exact I].
Qed.

Lemma builds_check_options (T : list shape) (options : Heap.options_value) :
  builds T (Heap.check_options options) (fun _ _ => True).
Proof.
  unfold Heap.check_options.
  destruct options as [| |[| |f] [| |g]];
    first [apply builds_raise | apply builds_ret; exact I].
Qed.

Lemma builds_analyzeSalesData (T : list shape) (data : hval)
    (options : Heap.options_value) :
  builds T (Heap.analyzeSalesData ToString ToNumber data options)
         (fun T' v => has_shape T' v SReport).
Proof.
  unfold Heap.analyzeSalesData.
  eapply builds_bind; [apply builds_check_data|]. intros T0 [[ss ps] rs] _.
  eapply builds_bind; [apply builds_check_options|]. intros T1 [f g] _.
  eapply builds_bind.
  { apply (builds_mapM SStat). intros Tx seller _. apply builds_new_stat. }
  intros T2 stats Hstats. cbn beta in Hstats.
  eapply builds_bind.
  { apply (builds_alloc _ SStats).
    exists stats. split; [reflexivity | exact Hstats]. }
  intros T3 sellerStats HsellerStats. cbn beta in HsellerStats.
  eapply builds_bind.
  { apply (builds_alloc _ SIndex).
    exists []. split; [reflexivity | constructor]. }
  intros T4 sellerIndex HsellerIndex. cbn beta in HsellerIndex.
  eapply builds_bind.
  { apply builds_forM. intros Tx s Hs. apply builds_index_seller; [lift|].
    rewrite List.Forall_forall in Hstats. specialize (Hstats s Hs). lift. }
  intros T5 _ _.
  eapply builds_bind; [apply (builds_alloc _ SProducts); exact I|].
  intros T6 productIndex HproductIndex. cbn beta in HproductIndex.
  eapply builds_bind.
  { apply builds_forM. intros Tx p _. apply builds_index_product. lift. }
  intros T7 _ _.
  eapply builds_bind.
  { apply builds_forM. intros Tx r _. apply builds_process_record. lift. }
  intros T8 _ _.
  eapply builds_bind; [apply builds_sort_in_place; lift|].
  intros T9 _ _.
  eapply builds_bind; [apply builds_elements_stats; lift|].
  intros T10 sorted Hsorted. cbn beta in Hsorted.
  eapply builds_bind.
  { apply builds_forM_from. intros Tx i s Hs. apply builds_assign_bonus.
    rewrite List.Forall_forall in Hsorted. specialize (Hsorted s Hs). lift. }
  intros T11 _ _.
  eapply builds_bind.
  { apply (builds_mapM SEntry). intros Tx s Hs. apply builds_report_entry.
    rewrite List.Forall_forall in Hsorted. specialize (Hsorted s Hs). lift. }
  intros T12 entries Hentries. cbn beta in Hentries.
  apply (builds_alloc _ SReport). exists entries.
  split; [reflexivity | exact Hentries].
Qed.

(** What a value of one of the shapes of a report leads to has one of
    these shapes. *)
Lemma reachable_of_report (T : list shape) (s : store) (v : hval) (l : loc) :
  shaped T s -> reachable s v l ->
  forall K, has_shape T v K -> of_report K = true ->
  exists K', T !! l = Some K' /\ of_report K' = true.
Proof.
  intros [L H] R. induction R as [l|l o v l' Hl Hv R IH]; intros K (l0 & E & HK) HR.
  - apply (f_equal (fun v => match v with HRef l => l | _ => 0%nat end)) in E.
    cbn in E. subst l0. exists K. split; assumption.
  - apply (f_equal (fun v => match v with HRef l => l | _ => 0%nat end)) in E.
    cbn in E. subst l0. specialize (H l K o HK Hl).
    assert (Hprim : primitive v -> exists K', T !! l' = Some K' /\ of_report K' = true).
    { intros P. inversion R; subst; contradiction P. }
    destruct K; try discriminate HR; cbn in H.
    + destruct H as (props & -> & F). cbn in Hv. apply List.in_map_iff in Hv.
      destruct Hv as (kv & <- & Hkv). rewrite List.Forall_forall in F.
      apply Hprim, F, Hkv.
    + destruct H as (es & -> & F). cbn in Hv. rewrite List.Forall_forall in F.
      exact (IH SPair (F v Hv) eq_refl).
    + destruct H as (props & -> & F). cbn in Hv. apply List.in_map_iff in Hv.
      destruct Hv as (kv & <- & Hkv). rewrite List.Forall_forall in F.
      destruct (F kv Hkv) as [P|P]; [exact (Hprim P) | exact (IH STop P eq_refl)].
    + destruct H as (es & -> & F). cbn in Hv. rewrite List.Forall_forall in F.
      exact (IH SEntry (F v Hv) eq_refl).
Qed.

(** X25. Whatever the store, the data and the options, every object that a
    returned report leads to (the array, its entries, their [top_products]
    arrays and the pairs in them) was allocated by the call: none of them
    is an object of the store the call started from. *)
Theorem report_shares_nothing_with_the_input (s : store) (data : hval)
    (options : Heap.options_value) (v : hval) (l : loc) :
  fst (Heap.analyzeSalesData ToString ToNumber data options s) = Ok v ->
  reachable (snd (Heap.analyzeSalesData ToString ToNumber data options s)) v l ->
  (length s <= l)%nat /\
  is_Some (snd (Heap.analyzeSalesData ToString ToNumber data options s) !! l).
Proof.
  intros Ev R.
  assert (Ht : shaped (replicate (length s) SInput) s).
  { split; [apply length_replicate|].
    intros l0 K o HK _. apply lookup_replicate in HK as [-> _]. exact I. }
  destruct (builds_analyzeSalesData _ data options s Ht) as (T' & Ht' & Q).
  destruct (reachable_of_report _ _ v l Ht' R SReport (Q v Ev) eq_refl)
    as (K & HK & HR).
  split.
  - destruct (decide (l < length s)%nat) as [Hlt|]; [|lia].
    rewrite lookup_app_l in HK by (rewrite length_replicate; exact Hlt).
    apply lookup_replicate in HK as [HK _]. subst K. discriminate HR.
  - destruct Ht' as [L _]. apply lookup_lt_is_Some. rewrite <- L.
    eapply lookup_lt_Some. exact HK.
Qed.

End Fresh.

Lemma report_shares_nothing_with_the_input_witness :
  let outcome := Heap.analyzeSalesData plain_ToString plain_ToNumber
                   scenario_ref scenario_options scenario_store in
  fst outcome = Ok (HRef 22) /\
  reachable (snd outcome) (HRef 22) 17 /\
  (length scenario_store <= 17)%nat /\ is_Some (snd outcome !! 17%nat).
Proof.
  cbn zeta.
  assert (Ev : fst (Heap.analyzeSalesData plain_ToString plain_ToNumber
                      scenario_ref scenario_options scenario_store)
               = Ok (HRef 22)) by (vm_compute; reflexivity).
  assert (R : reachable
                (snd (Heap.analyzeSalesData plain_ToString plain_ToNumber
                        scenario_ref scenario_options scenario_store))
                (HRef 22) 17).
  { apply (reach_step _ 22 (HArr [HRef 20; HRef 21]) (HRef 20));
      [vm_compute; reflexivity | left; reflexivity|].
    apply (reach_step _ 20
             (HObj [("seller_id", HStr "s1"); ("name", HStr "Ann Lee");
                    ("revenue", HNum 100); ("profit", HNum 30);
                    ("sales_count", HNum 1); ("top_products", HRef 18);
                    ("bonus", HNum 4.5)])
             (HRef 18));
      [vm_compute; reflexivity | cbn; tauto|].
    apply (reach_step _ 18 (HArr [HRef 17]) (HRef 17));
      [vm_compute; reflexivity | left; reflexivity|].
    apply reach_here. }
  split; [exact Ev|]. split; [exact R|].
  exact (report_shares_nothing_with_the_input plain_ToString plain_ToNumber
           scenario_store scenario_ref scenario_options (HRef 22) 17%nat Ev R).
Defined.
